(** * Shared-memory buffer pools: [awrams/utils/messaging/buffers.py]

    A shallow embedding of the buffer module and the properties of its
    pool protocol.

    Modelling conventions.
    - Python exceptions are the constructors of [exn]; a call that never
      returns (a [Queue.get] without timeout on an empty queue, seen from a
      single process) is the outcome [Blocked].
    - The state shared between processes is the [world]: the contents of
      every shared block ([mp.Array] / [mp.Value]) and of every
      [mp.Queue], each addressed by a handle.  Objects that hold a handle
      alias the same block or queue.
    - [mp.Queue] is taken as an atomic FIFO: [put] appends, [get] removes
      the oldest element, and a timeout expires exactly when the queue is
      empty.  The real [put] hands the value to a feeder thread, so that a
      [get] with a short timeout issued right after it can give up
      although the value is on its way; a [get] without timeout waits for
      it.  What is stated about calls that follow a [put] is therefore
      stated for blocking calls, or for calls made once every value put
      has been received.
    - numpy arrays are view descriptors (block, offset, shape, strides):
      two views are aliases when they read the same cells of the same
      block.
    - The platform is a 64-bit one: numpy's default integer and index
      type [intp] and Python's [ssize_t] are signed 64-bit integers.
    - Shared memory is granted for every block whose size in bytes
      [ctypes] accepts; the operating system refusing a mapping for lack
      of memory is outside the model. *)

From Stdlib Require Import ZArith List String Bool Lia Permutation.
Import ListNotations.
Open Scope Z_scope.

(* ================================================================== *)
(** * Outcomes and the world monad *)

Inductive exn : Type :=
| KeyError        (* lookup in a dict; the spec's UnsupportedDtype *)
| ValueError      (* numpy reshape mismatch (the spec's ShapeMismatch), negative length *)
| IndexError
| TypeError
| AttributeError
| Empty           (* queue.Empty; the spec's Timeout *)
| OverflowError   (* a length that does not fit ssize_t, a block of too many bytes *)
| Unmodelled.     (* not an exception: numpy leaves integer arithmetic here
                     (a product taken in float64), which the model does not
                     follow *)

Inductive outcome (A : Type) : Type :=
| Ok (a : A)
| Raise (e : exn)
| Blocked.

Arguments Ok {A} a.
Arguments Raise {A} e.
Arguments Blocked {A}.

Definition obind {A B} (o : outcome A) (k : A -> outcome B) : outcome B :=
  match o with
  | Ok a => k a
  | Raise e => Raise e
  | Blocked => Blocked
  end.

Notation "x <-? e ;; k" := (obind e (fun x => k))
  (at level 61, e at next level, right associativity).

(** One storage word holds one element (its raw bit pattern). *)
Definition word := Z.

Record world : Type := mkWorld {
  shm : nat -> list word;      (* contents of the shared blocks *)
  next_shm : nat;              (* next fresh block handle *)
  queues : nat -> list Z;      (* contents of the queues, oldest first *)
  next_queue : nat             (* next fresh queue handle *)
}.

Definition empty_world : world :=
  mkWorld (fun _ => []) 0%nat (fun _ => []) 0%nat.

Definition M (A : Type) : Type := world -> outcome A * world.

Definition ret {A} (a : A) : M A := fun w => (Ok a, w).

Definition bind {A B} (m : M A) (k : A -> M B) : M B :=
  fun w => match m w with
           | (Ok a, w') => k a w'
           | (Raise e, w') => (Raise e, w')
           | (Blocked, w') => (Blocked, w')
           end.

Definition lift {A} (o : outcome A) : M A := fun w => (o, w).

Notation "x <- e ;; k" := (bind e (fun x => k))
  (at level 61, e at next level, right associativity).
Notation "e ;;; k" := (bind e (fun _ => k))
  (at level 61, right associativity).

(** [for x in xs: s = body(x, s)] *)
Fixpoint for_each {A S} (xs : list A) (body : A -> S -> M S) (s : S) : M S :=
  match xs with
  | [] => ret s
  | x :: rest => s' <- body x s ;; for_each rest body s'
  end.

(** The same loop for code that does not touch the world. *)
Fixpoint ofor_each {A S} (xs : list A) (body : A -> S -> outcome S) (s : S)
  : outcome S :=
  match xs with
  | [] => Ok s
  | x :: rest => s' <-? body x s ;; ofor_each rest body s'
  end.

(* ================================================================== *)
(** * Python containers *)

(** A [dict] keeps its keys in insertion order; assigning to a key that
    is present replaces the value in place. *)
Section Dict.
Variables K V : Type.
Variable eqb : K -> K -> bool.

Definition pydict := list (K * V).

Fixpoint dict_get (d : pydict) (k : K) : option V :=
  match d with
  | [] => None
  | (k', v) :: rest => if eqb k' k then Some v else dict_get rest k
  end.

Fixpoint dict_set (d : pydict) (k : K) (v : V) : pydict :=
  match d with
  | [] => [(k, v)]
  | (k', v') :: rest =>
      if eqb k' k then (k', v) :: rest else (k', v') :: dict_set rest k v
  end.

(** [d[k]] *)
Definition dict_getitem (d : pydict) (k : K) : outcome V :=
  match dict_get d k with
  | Some v => Ok v
  | None => Raise KeyError
  end.

(** [dict(pairs)] *)
Definition dict_of_pairs (pairs : list (K * V)) : pydict :=
  fold_left (fun d kv => dict_set d (fst kv) (snd kv)) pairs [].

Definition dict_keys (d : pydict) : list K := map fst d.
Definition dict_values (d : pydict) : list V := map snd d.
Definition dict_items (d : pydict) : list (K * V) := d.
End Dict.

Arguments dict_get {K V} eqb d k.
Arguments dict_set {K V} eqb d k v.
Arguments dict_getitem {K V} eqb d k.
Arguments dict_of_pairs {K V} eqb pairs.
Arguments dict_keys {K V} d.
Arguments dict_values {K V} d.
Arguments dict_items {K V} d.

(** Dicts keyed by field name. *)
Definition sdict (V : Type) := pydict string V.
Definition sget {V} (d : sdict V) (k : string) : option V := dict_get String.eqb d k.
Definition sset {V} (d : sdict V) (k : string) (v : V) : sdict V :=
  dict_set String.eqb d k v.
Definition sgetitem {V} (d : sdict V) (k : string) : outcome V :=
  dict_getitem String.eqb d k.

(** [l[i]] on a Python list: a negative index counts from the end. *)
Definition list_getitem {A} (l : list A) (i : Z) : outcome A :=
  let n := Z.of_nat (List.length l) in
  let j := if i <? 0 then i + n else i in
  if (j <? 0) || (n <=? j) then Raise IndexError
  else match nth_error l (Z.to_nat j) with
       | Some a => Ok a
       | None => Raise IndexError
       end.

(** [range(n)] *)
Definition range (n : Z) : list Z := map Z.of_nat (seq 0 (Z.to_nat n)).

(* ================================================================== *)
(** * ctypes, numpy dtypes and the mapping tables *)

Inductive ctype : Type :=
| c_byte | c_short | c_int | c_long | c_float | c_double.

Definition sizeof (t : ctype) : Z :=
  match t with
  | c_byte => 1 | c_short => 2 | c_int => 4 | c_long => 8
  | c_float => 4 | c_double => 8
  end.

Definition ctype_eqb (a b : ctype) : bool :=
  match a, b with
  | c_byte, c_byte | c_short, c_short | c_int, c_int | c_long, c_long
  | c_float, c_float | c_double, c_double => true
  | _, _ => false
  end.

Inductive np_dtype : Type :=
| int8 | int16 | int32 | int64 | float16 | float32 | float64.

Definition itemsize (d : np_dtype) : Z :=
  match d with
  | int8 => 1 | int16 => 2 | int32 => 4 | int64 => 8
  | float16 => 2 | float32 => 4 | float64 => 8
  end.

Definition np_dtype_eqb (a b : np_dtype) : bool :=
  match a, b with
  | int8, int8 | int16, int16 | int32, int32 | int64, int64
  | float16, float16 | float32, float32 | float64, float64 => true
  | _, _ => false
  end.

(** What [multiprocessing] accepts as element type: a ctypes type or a
    one-letter type code. *)
Inductive typecode_or_type : Type :=
| CType (t : ctype)
| TypeCode (c : string).

Definition typecode_or_type_eqb (a b : typecode_or_type) : bool :=
  match a, b with
  | CType x, CType y => ctype_eqb x y
  | TypeCode x, TypeCode y => String.eqb x y
  | _, _ => false
  end.

(** [multiprocessing.sharedctypes.typecode_to_type] on the codes of the
    types above. *)
Definition typecode_to_type : pydict string ctype :=
  [ ("b", c_byte); ("h", c_short); ("i", c_int); ("l", c_long);
    ("f", c_float); ("d", c_double) ]%string.

Definition _ctypes_to_numpy : pydict typecode_or_type np_dtype :=
  [ (CType c_float, float32);
    (CType c_double, float64);
    (TypeCode "d", float64) ].

Definition _numpy_to_ctypes : pydict np_dtype typecode_or_type :=
  dict_of_pairs np_dtype_eqb
    (combine (dict_values _ctypes_to_numpy) (dict_keys _ctypes_to_numpy)).

(* ================================================================== *)
(** * Shapes *)

(** A shape argument is an int or a tuple of ints. *)
Inductive py_shape : Type :=
| ShapeInt (n : Z)
| ShapeTuple (dims : list Z).

Definition shape_dims (s : py_shape) : list Z :=
  match s with
  | ShapeInt n => [n]
  | ShapeTuple dims => dims
  end.

Definition product (dims : list Z) : Z := fold_right Z.mul 1 dims.

(** numpy's index type [intp] is a signed 64-bit integer. *)
Definition intp_max : Z := 2 ^ 63 - 1.
Arguments intp_max : simpl never.

Definition wrap64 (z : Z) : Z := (z + 2 ^ 63) mod 2 ^ 64 - 2 ^ 63.

Definition in_int64 (z : Z) : bool := (- 2 ^ 63 <=? z) && (z <=? intp_max).
Definition in_uint64 (z : Z) : bool := (0 <=? z) && (z <? 2 ^ 64).

(** [int(np.prod(shape))].  numpy first turns the shape into an array,
    whose element type depends on the values: [int64] when all of them
    fit, [uint64] when they are non-negative and below [2 ^ 64], Python
    objects when one of them fits neither type, and [float64] for a
    mixture of negative and [uint64] values.  The product of an integer
    array wraps around in its type; Python objects multiply exactly. *)
Definition np_prod (s : py_shape) : outcome Z :=
  let dims := shape_dims s in
  if forallb in_int64 dims then Ok (wrap64 (product dims))
  else if forallb in_uint64 dims then Ok (product dims mod 2 ^ 64)
  else if forallb (fun d => in_int64 d || in_uint64 d) dims
       then Raise Unmodelled
       else Ok (product dims).

(** [len(shape)]; an int has no length. *)
Definition shape_len (s : py_shape) : outcome Z :=
  match s with
  | ShapeInt _ => Raise TypeError
  | ShapeTuple dims => Ok (Z.of_nat (List.length dims))
  end.

(* ================================================================== *)
(** * multiprocessing: shared arrays, values and queues *)

(** A raw shared array: element type and length are fixed at creation,
    the contents live in the world. *)
Record raw_array : Type := mkRawArray {
  arr_type : ctype;      (* the attribute _type_ *)
  arr_len : Z;
  arr_block : nat
}.

Inductive mp_array : Type :=
| RawArray (a : raw_array)
| SynchronizedArray (a : raw_array).   (* lock wrapper, no _type_ attribute *)


(** [hasattr(mp_array, '_type_')] *)
Definition has_type_attr (a : mp_array) : bool :=
  match a with
  | RawArray _ => true
  | SynchronizedArray _ => false
  end.

(** [mp_array.get_obj()]: the raw array behind the lock wrapper. *)
Definition get_obj (a : mp_array) : outcome mp_array :=
  match a with
  | SynchronizedArray r => Ok (RawArray r)
  | RawArray _ => Raise AttributeError
  end.

(** [mp_array._type_] *)
Definition type_attr (a : mp_array) : outcome ctype :=
  match a with
  | RawArray r => Ok (arr_type r)
  | SynchronizedArray _ => Raise AttributeError
  end.

(** [typecode_to_type.get(t, t)]; a string that is no type code cannot
    be turned into an array type. *)
Definition resolve_type (t : typecode_or_type) : outcome ctype :=
  match t with
  | CType c => Ok c
  | TypeCode s =>
      match dict_get String.eqb typecode_to_type s with
      | Some c => Ok c
      | None => Raise TypeError
      end
  end.

(** A fresh zero-filled block of [n] words. *)
Definition alloc_block (n : Z) : M nat :=
  fun w =>
    let h := next_shm w in
    (Ok h,
     mkWorld (fun h' => if Nat.eqb h' h then repeat 0 (Z.to_nat n) else shm w h')
             (S h) (queues w) (next_queue w)).

(** [mp.Array(typecode_or_type, size, lock=False)].  The array type is
    [type_ * size]: [ctypes] takes the length as an [ssize_t], rejects a
    negative one, and rejects an array of more than [2 ^ 63 - 1] bytes. *)
Definition mp_Array (t : typecode_or_type) (size : Z) : M mp_array :=
  type_ <- lift (resolve_type t) ;;
  if negb (in_int64 size) then lift (Raise OverflowError)
  else if size <? 0 then lift (Raise ValueError)
  else if intp_max / sizeof type_ <? size then lift (Raise OverflowError)
  else h <- alloc_block size ;;
       ret (RawArray (mkRawArray type_ size h)).


Definition set_queue (w : world) (q : nat) (l : list Z) : world :=
  mkWorld (shm w) (next_shm w)
          (fun q' => if Nat.eqb q' q then l else queues w q')
          (next_queue w).

(** [mp.Queue()] *)
Definition mp_Queue : M nat :=
  fun w =>
    let q := next_queue w in
    (Ok q,
     mkWorld (shm w) (next_shm w)
             (fun q' => if Nat.eqb q' q then [] else queues w q')
             (S q)).

(** [q.put(x)] *)
Definition queue_put (q : nat) (x : Z) : M unit :=
  fun w => (Ok tt, set_queue w q (queues w q ++ [x])).

(** [q.get(timeout=timeout)]: on an empty queue the call waits; with a
    timeout it gives up with [Empty], without one it never returns. *)
Definition queue_get (q : nat) (timeout : option Z) : M Z :=
  fun w =>
    match queues w q with
    | x :: rest => (Ok x, set_queue w q rest)
    | [] =>
        match timeout with
        | Some _ => (Raise Empty, w)
        | None => (Blocked, w)
        end
    end.

(* ================================================================== *)
(** * numpy arrays as views *)

Inductive np_order : Type := order_C | order_F.

(** A view: the cell of index [i1, ..., ik] is word
    [nd_offset + i1 * s1 + ... + ik * sk] of block [nd_block]. *)
Record ndarray : Type := mkArray {
  nd_block : nat;
  nd_dtype : np_dtype;
  nd_offset : Z;
  nd_shape : list Z;
  nd_strides : list Z
}.

Definition nd_size (a : ndarray) : Z := product (nd_shape a).

(** [len(a)] *)
Definition nd_len (a : ndarray) : outcome Z :=
  match nd_shape a with
  | [] => Raise TypeError
  | n :: _ => Ok n
  end.

(** [np.frombuffer(mp_array, dtype)]: a flat view of the whole buffer.
    Only the raw array exports its memory. *)
Definition np_frombuffer (a : mp_array) (dtype : np_dtype) : outcome ndarray :=
  match a with
  | RawArray r =>
      let nbytes := arr_len r * sizeof (arr_type r) in
      if nbytes mod itemsize dtype =? 0
      then Ok (mkArray (arr_block r) dtype 0 [nbytes / itemsize dtype] [1])
      else Raise ValueError
  | SynchronizedArray _ => Raise TypeError
  end.

(** The size of the known dimensions, or [None] when it exceeds [intp]. *)
Fixpoint known_size (dims : list Z) (acc : Z) : option Z :=
  match dims with
  | [] => Some acc
  | d :: rest =>
      if d <? 0 then known_size rest acc
      else if intp_max <? acc * d then None
      else known_size rest (acc * d)
  end.

Definition count_unknown (dims : list Z) : nat :=
  List.length (filter (fun d => d <? 0) dims).

(** numpy's treatment of the new shape in [reshape]: one negative entry
    stands for the dimension to infer; in every other case the sizes
    must agree. *)
Definition fix_unknown_dimension (dims : list Z) (size : Z) : outcome (list Z) :=
  if (2 <=? count_unknown dims)%nat then Raise ValueError
  else match known_size dims 1 with
       | None => Raise ValueError
       | Some s_known =>
           if (count_unknown dims =? 1)%nat then
             if (s_known =? 0) || negb (size mod s_known =? 0)
             then Raise ValueError
             else Ok (map (fun d => if d <? 0 then size / s_known else d) dims)
           else if size =? s_known then Ok dims
           else Raise ValueError
       end.

Fixpoint c_strides (dims : list Z) : list Z :=
  match dims with
  | [] => []
  | _ :: rest => product rest :: c_strides rest
  end.

Fixpoint f_strides (acc : Z) (dims : list Z) : list Z :=
  match dims with
  | [] => []
  | d :: rest => acc :: f_strides (acc * d) rest
  end.

(** The most axes an array can have (64 from numpy 2.0 on). *)
Definition NPY_MAXDIMS : Z := 32.

(** numpy's conversion of a shape argument to a list of [intp]: too many
    entries, or an entry that does not fit [intp], is a [ValueError]. *)
Definition intp_converter (dims : list Z) : outcome (list Z) :=
  if NPY_MAXDIMS <? Z.of_nat (List.length dims) then Raise ValueError
  else if forallb in_int64 dims then Ok dims
  else Raise ValueError.

(** [a.reshape(shape, order=order)] on the flat array [np.frombuffer]
    returns: always a view of the same block. *)
Definition reshape (a : ndarray) (shape : py_shape) (order : np_order)
  : outcome ndarray :=
  dims <-? intp_converter (shape_dims shape) ;;
  dims <-? fix_unknown_dimension dims (nd_size a) ;;
  Ok (mkArray (nd_block a) (nd_dtype a) (nd_offset a) dims
        match order with
        | order_C => c_strides dims
        | order_F => f_strides 1 dims
        end).

(** [np.asarray(a)] of an array is the array itself. *)
Definition np_asarray (a : ndarray) : ndarray := a.

(** ** Basic indexing *)

Inductive axis_index : Type :=
| AInt (i : Z)
| ASlice (start stop : option Z).

Inductive py_index : Type :=
| IdxInt (i : Z)
| IdxSlice (start stop : option Z)
| IdxTuple (l : list axis_index).

Definition index_axes_of (ix : py_index) : list axis_index :=
  match ix with
  | IdxInt i => [AInt i]
  | IdxSlice s e => [ASlice s e]
  | IdxTuple l => l
  end.

(** A slice bound, clipped the way [slice.indices] does for step 1. *)
Definition slice_bound (n : Z) (b : option Z) (default : Z) : Z :=
  match b with
  | None => default
  | Some v => if v <? 0 then Z.max (v + n) 0 else Z.min v n
  end.

Fixpoint index_axes (ixs : list axis_index) (off : Z) (shape strides : list Z)
  : outcome (Z * (list Z * list Z)) :=
  match ixs with
  | [] => Ok (off, (shape, strides))
  | ix :: rest =>
      match shape, strides with
      | n :: shape', st :: strides' =>
          match ix with
          | AInt i =>
              let j := if i <? 0 then i + n else i in
              if (j <? 0) || (n <=? j) then Raise IndexError
              else index_axes rest (off + j * st) shape' strides'
          | ASlice s e =>
              let a := slice_bound n s 0 in
              let b := slice_bound n e n in
              (* an empty slice starts at the base of its axis *)
              let start := if b <=? a then 0 else a in
              r <-? index_axes rest (off + start * st) shape' strides' ;;
              Ok (fst r, (Z.max 0 (b - a) :: fst (snd r), st :: snd (snd r)))
          end
      | _, _ => Raise IndexError
      end
  end.

(** [a[ix]] for integers, slices and tuples of them.  A result that
    keeps an axis is a view of the same cells.  When the integers use up
    every axis numpy returns the element itself, a scalar copied out of
    the block; the result without axes stands for that scalar: it names
    the cell the value comes from and is not an alias of it. *)
Definition nd_getitem (a : ndarray) (ix : py_index) : outcome ndarray :=
  r <-? index_axes (index_axes_of ix) (nd_offset a) (nd_shape a) (nd_strides a) ;;
  Ok (mkArray (nd_block a) (nd_dtype a) (fst r) (fst (snd r)) (snd (snd r))).

(** Python truth value of an optional index argument. *)
Definition truthy (indices : option py_index) : bool :=
  match indices with
  | None => false
  | Some (IdxInt i) => negb (i =? 0)
  | Some (IdxSlice _ _) => true
  | Some (IdxTuple l) => match l with [] => false | _ => true end
  end.

(** The cell the full index [a[i1, ..., ik]] denotes; a negative entry
    counts from the end of its axis, as in [index_axes]. *)
Fixpoint cell_of (idx shape strides : list Z) (off : Z) : option Z :=
  match idx, shape, strides with
  | [], [], [] => Some off
  | i :: idx', n :: shape', st :: strides' =>
      let j := if i <? 0 then i + n else i in
      if (j <? 0) || (n <=? j) then None
      else cell_of idx' shape' strides' (off + j * st)
  | _, _, _ => None
  end.

(** Reading element [idx] of a view in world [w]. *)
Definition nd_item (w : world) (a : ndarray) (idx : list Z) : option word :=
  match cell_of idx (nd_shape a) (nd_strides a) (nd_offset a) with
  | Some c => if c <? 0 then None else nth_error (shm w (nd_block a)) (Z.to_nat c)
  | None => None
  end.

(* ================================================================== *)
(** * buffers.py: views and allocation *)

Definition shm_as_ndarray (mp_array : mp_array) (shape : option py_shape)
           (order : np_order) : outcome ndarray :=
  (* support SynchronizedArray: *)
  mp_array <-? (if negb (has_type_attr mp_array) then get_obj mp_array
                else Ok mp_array) ;;
  type_ <-? type_attr mp_array ;;
  dtype <-? dict_getitem typecode_or_type_eqb _ctypes_to_numpy (CType type_) ;;
  result <-? np_frombuffer mp_array dtype ;;
  result <-? match shape with
             | Some s => reshape result s order
             | None => Ok result
             end ;;
  Ok (np_asarray result).

Definition init_shm_ndarray (shape : py_shape) (dtype : np_dtype) : M mp_array :=
  t <- lift (dict_getitem np_dtype_eqb _numpy_to_ctypes dtype) ;;
  size <- lift (np_prod shape) ;;
  shm <- mp_Array t size ;;
  ret shm.


(* ================================================================== *)
(** * buffers.py: BufferManager *)

Module BufferManager.

(** The attributes of the object; [buffers_np] is unset until
    [rebuild_buffers] has run. *)
Record t : Type := mk {
  queue : nat;
  buffers_shm : list mp_array;
  buf_shape : option py_shape;
  buffers_np : option (list ndarray)
}.

Definition set_buffers_np (self : t) (l : list ndarray) : t :=
  mk (queue self) (buffers_shm self) (buf_shape self) (Some l).

(** [self.buffers_np] *)
Definition get_buffers_np (self : t) : outcome (list ndarray) :=
  match buffers_np self with
  | Some l => Ok l
  | None => Raise AttributeError
  end.

(** The loop of [rebuild_buffers]; an exception leaves the views
    appended so far. *)
Fixpoint rebuild_loop (bs : list mp_array) (self : t) (acc : list ndarray)
  : outcome unit * t :=
  match bs with
  | [] => (Ok tt, set_buffers_np self acc)
  | b :: rest =>
      match shm_as_ndarray b (buf_shape self) order_C with
      | Ok v => rebuild_loop rest self (acc ++ [v])
      | Raise e => (Raise e, set_buffers_np self acc)
      | Blocked => (Blocked, set_buffers_np self acc)
      end
  end.

Definition rebuild_buffers (self : t) : outcome unit * t :=
  rebuild_loop (buffers_shm self) self [].

(** [BufferManager(buffers, queue, shape, build)] *)
Definition init (buffers : list mp_array) (queue : nat)
           (shape : option py_shape) (build : bool) : outcome t :=
  let self := mk queue buffers shape None in
  if build then
    match rebuild_buffers self with
    | (Ok _, self') => Ok self'
    | (Raise e, _) => Raise e
    | (Blocked, _) => Blocked
    end
  else Ok self.

Definition map_buffer (self : t) (buffer_id : Z) (indices : option py_index)
  : outcome ndarray :=
  if negb (truthy indices) then
    bufs <-? get_buffers_np self ;;
    list_getitem bufs buffer_id
  else
    bufs <-? get_buffers_np self ;;
    v <-? list_getitem bufs buffer_id ;;
    match indices with
    | Some ix => nd_getitem v ix
    | None => Ok v          (* not reached: None is not truthy *)
    end.

Definition get_buffer (self : t) (timeout : option Z) : M (Z * ndarray) :=
  buffer_id <- queue_get (queue self) timeout ;;
  v <- lift (map_buffer self buffer_id None) ;;
  ret (buffer_id, v).

Definition reclaim (self : t) (buffer_id : Z) : M unit :=
  queue_put (queue self) buffer_id.

End BufferManager.

(* ================================================================== *)
(** * buffers.py: conversion of dictionaries of shared arrays *)

(** The [shape] argument of [shm_to_nd_dict]: absent, one common shape,
    or a dictionary of shapes (the case [hasattr(shape, 'items')]). *)
Inductive shape_arg : Type :=
| NoShape
| CommonShape (s : py_shape)
| ShapeDict (d : sdict (option py_shape)).

Definition has_items (s : shape_arg) : bool :=
  match s with
  | ShapeDict _ => true
  | _ => false
  end.

Definition shm_to_nd_dict (buffers : sdict mp_array) (shape : shape_arg)
           (order : np_order) : outcome (sdict ndarray) :=
  let nd_dict : sdict ndarray := [] in
  let to_shape : option py_shape :=
    match shape with
    | CommonShape s => Some s
    | _ => None
    end in
  r <-? ofor_each (dict_items buffers)
          (fun kv st =>
             let '(k, v) := kv in
             let '(to_shape, nd_dict) := st in
             to_shape <-? match shape with
                          | ShapeDict d => sgetitem d k
                          | _ => Ok to_shape
                          end ;;
             a <-? shm_as_ndarray v to_shape order ;;
             Ok (to_shape, sset nd_dict k a))
          (to_shape, nd_dict) ;;
  Ok (snd r).

(** [shapes[k] is None or len(shapes[k]) == 0] *)
Definition is_scalar_shape (s : option py_shape) : outcome bool :=
  match s with
  | None => Ok true
  | Some sh => n <-? shape_len sh ;; Ok (n =? 0)
  end.

Definition shm_to_nd_dict_inputs (buffers : sdict mp_array)
           (shapes : sdict (option py_shape)) (order : np_order)
  : outcome (sdict ndarray) :=
  let nd_dict : sdict ndarray := [] in
  ofor_each (dict_items buffers)
    (fun kv nd_dict =>
       let '(k, v) := kv in
       s <-? sgetitem shapes k ;;
       scalar <-? is_scalar_shape s ;;
       if scalar then
         a <-? shm_as_ndarray v (Some (ShapeTuple [1])) order ;;
         Ok (sset nd_dict k a)
       else
         a <-? shm_as_ndarray v s order ;;
         Ok (sset nd_dict k a))
    nd_dict.

(* ================================================================== *)
(** * buffers.py: BufferedDictManager *)

Module BufferedDictManager.

Record t : Type := mk {
  queue : nat;
  buffers_shm : list (sdict mp_array);
  buffers_nd : option (list (sdict ndarray))
}.

Definition set_buffers_nd (self : t) (l : list (sdict ndarray)) : t :=
  mk (queue self) (buffers_shm self) (Some l).

Definition get_buffers_nd (self : t) : outcome (list (sdict ndarray)) :=
  match buffers_nd self with
  | Some l => Ok l
  | None => Raise AttributeError
  end.

Fixpoint rebuild_loop (bs : list (sdict mp_array)) (self : t)
         (acc : list (sdict ndarray)) : outcome unit * t :=
  match bs with
  | [] => (Ok tt, set_buffers_nd self acc)
  | b :: rest =>
      match shm_to_nd_dict b NoShape order_C with
      | Ok d => rebuild_loop rest self (acc ++ [d])
      | Raise e => (Raise e, set_buffers_nd self acc)
      | Blocked => (Blocked, set_buffers_nd self acc)
      end
  end.

Definition rebuild_buffers (self : t) : outcome unit * t :=
  rebuild_loop (buffers_shm self) self [].

(** [BufferedDictManager(buffers, queue, build)] *)
Definition init (buffers : list (sdict mp_array)) (queue : nat) (build : bool)
  : outcome t :=
  let self := mk queue buffers None in
  if build then
    match rebuild_buffers self with
    | (Ok _, self') => Ok self'
    | (Raise e, _) => Raise e
    | (Blocked, _) => Blocked
    end
  else Ok self.

Definition map_buffer (self : t) (buffer_id : Z) (buffer_len : option Z)
  : outcome (sdict ndarray) :=
  match buffer_len with
  | None =>
      bufs <-? get_buffers_nd self ;;
      list_getitem bufs buffer_id
  | Some len =>
      let buffers : sdict ndarray := [] in
      bufs <-? get_buffers_nd self ;;
      d <-? list_getitem bufs buffer_id ;;
      ofor_each (dict_items d)
        (fun kv buffers =>
           let '(k, v) := kv in
           s <-? nd_getitem v (IdxSlice (Some 0) (Some len)) ;;
           Ok (sset buffers k s))
        buffers
  end.

Definition get_buffer (self : t) (buffer_len : option Z) (timeout : option Z)
  : M (Z * sdict ndarray) :=
  buffer_id <- queue_get (queue self) timeout ;;
  buffers <- lift (map_buffer self buffer_id buffer_len) ;;
  ret (buffer_id, buffers).

Definition reclaim (self : t) (buffer_id : Z) : M unit :=
  queue_put (queue self) buffer_id.

End BufferedDictManager.

(* ================================================================== *)
(** * buffers.py: factories *)

Definition create_buffers (buf_count : Z) (buf_shape : py_shape)
           (dtype : np_dtype) : M (list mp_array * nat) :=
  let buffers : list mp_array := [] in
  q <- mp_Queue ;;
  buffers <- for_each (range buf_count)
               (fun i buffers =>
                  b <- init_shm_ndarray buf_shape dtype ;;
                  queue_put q i ;;;
                  ret (buffers ++ [b]))
               buffers ;;
  ret (buffers, q).

Definition create_managed_buffers (count : Z) (shape : py_shape)
           (dtype : np_dtype) (build : bool) : M BufferManager.t :=
  bq <- create_buffers count shape dtype ;;
  lift (BufferManager.init (fst bq) (snd bq) (Some shape) build).

Definition create_dict_buffers (recordables : list string) (buf_count : Z)
           (buf_len : py_shape) (dtype : np_dtype)
  : M (list (sdict mp_array) * nat) :=
  let buffers : list (sdict mp_array) := [] in
  q <- mp_Queue ;;
  buffers <- for_each (range buf_count)
               (fun i buffers =>
                  let cur_buf_shm : sdict mp_array := [] in
                  cur_buf_shm <- for_each recordables
                                   (fun k cur =>
                                      b <- init_shm_ndarray buf_len dtype ;;
                                      ret (sset cur k b))
                                   cur_buf_shm ;;
                  queue_put q i ;;;
                  ret (buffers ++ [cur_buf_shm]))
               buffers ;;
  ret (buffers, q).

(** Modelled from the spec: [ObjectDict] of [awrams.utils.metatypes] is
    not part of the sources; it is taken as a dict whose keys are also
    attributes, so [o(buffers=.., shapes=..)] is a record of two dicts. *)
Record shm_dict : Type := mkShmDict {
  sd_buffers : sdict mp_array;
  sd_shapes : sdict (option py_shape)
}.

Definition create_shm_dict_inputs (shape_map : sdict (option py_shape))
           (dtype : np_dtype) : M shm_dict :=
  r <- for_each (dict_keys shape_map)
         (fun k st =>
            s <- lift (sgetitem shape_map k) ;;
            scalar <- lift (is_scalar_shape s) ;;
            b <- (if scalar then init_shm_ndarray (ShapeTuple [1]) dtype
                  else match s with
                       | Some sh => init_shm_ndarray sh dtype
                       | None => lift (Raise TypeError)   (* not reached *)
                       end) ;;
            ret (sset (fst st) k b, sset (snd st) k s))
         ([], []) ;;
  ret (mkShmDict (fst r) (snd r)).

(* ================================================================== *)
(** * Consumers and the checkout protocol *)

(** What the two [get_buffer] methods share: take the oldest id from
    the queue, then resolve it with [map_buffer]. *)
Definition checkout {V} (q : nat) (resolve : Z -> outcome V)
           (timeout : option Z) : M (Z * V) :=
  buffer_id <- queue_get q timeout ;;
  v <- lift (resolve buffer_id) ;;
  ret (buffer_id, v).

(** A consumer that calls [get_buffer] once per entry of [timeouts] and
    never reclaims. *)
Fixpoint drain (m : BufferManager.t) (timeouts : list (option Z))
  : M (list (Z * ndarray)) :=
  match timeouts with
  | [] => ret []
  | t :: rest =>
      x <- BufferManager.get_buffer m t ;;
      xs <- drain m rest ;;
      ret (x :: xs)
  end.

(** A single consumer: one [get_buffer] per round, followed or not by
    the [reclaim] of the id that call returned; the result is the ids
    in the order received. *)
Fixpoint consume (m : BufferManager.t) (rounds : list bool) : M (list Z) :=
  match rounds with
  | [] => ret []
  | give_back :: rest =>
      x <- BufferManager.get_buffer m None ;;
      (if give_back then BufferManager.reclaim m (fst x) else ret tt) ;;;
      xs <- consume m rest ;;
      ret (fst x :: xs)
  end.

(** The cooperative protocol.  Besides the world, the state records
    which consumer holds which id; this bookkeeping exists only in the
    protocol, the code keeps no trace of it. *)
Record pool_state : Type := mkPool {
  pool_world : world;
  held : list (nat * Z)       (* consumer, id *)
}.

Definition holds_eqb (a b : nat * Z) : bool :=
  Nat.eqb (fst a) (fst b) && Z.eqb (snd a) (snd b).

Fixpoint remove_first (x : nat * Z) (l : list (nat * Z)) : list (nat * Z) :=
  match l with
  | [] => []
  | y :: rest => if holds_eqb x y then rest else y :: remove_first x rest
  end.

Section Protocol.
Variables A V : Type.
Variable get : A -> M (Z * V).       (* a get_buffer method *)
Variable put : Z -> M unit.          (* the reclaim method *)

Inductive action : Type :=
| Get (consumer : nat) (args : A)
| Reclaim (consumer : nat) (id : Z).

(** One call by one consumer.  A [Reclaim] of an id the consumer does
    not hold is outside the protocol: [None]. *)
Definition step (s : pool_state) (a : action) : option pool_state :=
  match a with
  | Get c args =>
      match get args (pool_world s) with
      | (Ok (id, _), w') => Some (mkPool w' ((c, id) :: held s))
      | (_, w') => Some (mkPool w' (held s))
      end
  | Reclaim c id =>
      if existsb (holds_eqb (c, id)) (held s) then
        match put id (pool_world s) with
        | (Ok _, w') => Some (mkPool w' (remove_first (c, id) (held s)))
        | (_, w') => Some (mkPool w' (held s))
        end
      else None
  end.

Fixpoint run (s : pool_state) (actions : list action) : option pool_state :=
  match actions with
  | [] => Some s
  | a :: rest =>
      match step s a with
      | Some s' => run s' rest
      | None => None
      end
  end.
End Protocol.

Arguments Get {A} consumer args.
Arguments Reclaim {A} consumer id.
Arguments step {A V} get put s a.
Arguments run {A V} get put s actions.

(** The free-list invariant for a pool of [n] slots. *)
Definition free_list_invariant (n : Z) (free : list Z) (held : list (nat * Z))
  : Prop :=
  NoDup free /\
  (forall id, In id free -> 0 <= id < n) /\
  (forall id, 0 <= id < n ->
     (In id free /\ forall c, ~ In (c, id) held) \/
     (~ In id free /\
      exists c, In (c, id) held /\
                forall c', In (c', id) held -> c' = c)) /\
  NoDup (map snd held).

(* ================================================================== *)
(** * Vocabulary of the properties *)

(** The shapes numpy takes as they are written: at most [NPY_MAXDIMS]
    dimensions, each of them in [0 .. intp_max], and a size that stays
    within [bound] at every step of its computation. *)
Fixpoint dims_in_range (bound acc : Z) (dims : list Z) : bool :=
  match dims with
  | [] => true
  | d :: rest =>
      (0 <=? d) && (d <=? intp_max) && (acc * d <=? bound)
      && dims_in_range bound (acc * d) rest
  end.

Definition shape_in_range (bound : Z) (s : py_shape) : bool :=
  (Z.of_nat (List.length (shape_dims s)) <=? NPY_MAXDIMS)
  && dims_in_range bound 1 (shape_dims s).

(** A shape [reshape] takes as it is written: the size fits [intp]. *)
Definition intp_shape (s : py_shape) : Prop :=
  shape_in_range intp_max s = true.

(** A shape without negative dimension, each dimension within [intp]. *)
Definition nonneg_dims (s : py_shape) : Prop :=
  Forall (fun d => 0 <= d <= intp_max) (shape_dims s).

(** The largest element count of a block of 8-byte elements, the widest
    the tables register: [ctypes] accepts [2 ^ 63 - 1] bytes. *)
Definition max_elements : Z := intp_max / 8.

(** A valid shape: a shape as above of which a buffer can exist, for any
    registered element type. *)
Definition valid_shape (s : py_shape) : Prop :=
  shape_in_range max_elements s = true.

(** The element types the tables know. *)
Definition registered (dtype : np_dtype) : Prop :=
  dict_get np_dtype_eqb _numpy_to_ctypes dtype <> None.

Definition registered_ctype (t : ctype) : Prop :=
  dict_get typecode_or_type_eqb _ctypes_to_numpy (CType t) <> None.

(** The raw array behind a shared array, with or without lock wrapper. *)
Definition raw_of (a : mp_array) : raw_array :=
  match a with
  | RawArray r => r
  | SynchronizedArray r => r
  end.

(** The ids [0 .. n-1] a factory seeds the free list with. *)
Definition ids (n : nat) : list Z := map Z.of_nat (seq 0 n).

(** The number of slots of a manager whose views have been built. *)
Definition pool_size (m : BufferManager.t) : option Z :=
  option_map (fun l => Z.of_nat (List.length l)) (BufferManager.buffers_np m).

Definition dict_pool_size (d : BufferedDictManager.t) : option Z :=
  option_map (fun l => Z.of_nat (List.length l)) (BufferedDictManager.buffers_nd d).

(** A buffer as [init_shm_ndarray shape] allocates it. *)
Definition buffer_of_shape (shape : py_shape) (b : mp_array) : Prop :=
  exists r, b = RawArray r /\ registered_ctype (arr_type r) /\
            arr_len r = product (shape_dims shape).

(** [reclaim] of each id of [l], in order. *)
Definition enqueue_all (m : BufferManager.t) (l : list Z) : M unit :=
  for_each l (fun id _ => BufferManager.reclaim m id) tt.

(** The protocol's invariant in one formula: the free ids followed by
    the held ids are a rearrangement of [0 .. n-1]. *)
Definition pool_inv (n : Z) (q : nat) (s : pool_state) : Prop :=
  Permutation (queues (pool_world s) q ++ map snd (held s)) (ids (Z.to_nat n)).

(** A view with at least one axis. *)
Definition has_leading_axis (v : ndarray) : Prop :=
  nd_shape v <> [] /\ nd_strides v <> [].

(** The length of the leading axis of a view (0 when it has none). *)
Definition leading_len (v : ndarray) : Z := hd 0 (nd_shape v).

(** The first [len] entries of the leading axis of [v], as a view of the
    same cells. *)
Definition truncated (v : ndarray) (len : Z) : ndarray :=
  mkArray (nd_block v) (nd_dtype v) (nd_offset v)
          (len :: tl (nd_shape v)) (nd_strides v).

(** The dimensions a field of a shape map ends up with: a missing or
    empty shape stands for one element. *)
Definition effective_dims (s : option py_shape) : list Z :=
  match s with
  | None => [1]
  | Some sh => match shape_dims sh with
               | [] => [1]
               | dims => dims
               end
  end.

(** The shapes a shape map may hold: [None] or a valid tuple. *)
Definition field_shape_ok (s : option py_shape) : Prop :=
  s = None \/ exists dims, s = Some (ShapeTuple dims) /\ valid_shape (ShapeTuple dims).

(** Sample objects: a manager of three flat buffers of four elements,
    and a record manager with one slot of two fields of five elements. *)
Definition sample_views : list ndarray :=
  [ mkArray 0 float64 0 [4] [1];
    mkArray 1 float64 0 [4] [1];
    mkArray 2 float64 0 [4] [1] ].

Definition sample_manager : BufferManager.t :=
  BufferManager.mk 0
    [ RawArray (mkRawArray c_double 4 0);
      RawArray (mkRawArray c_double 4 1);
      RawArray (mkRawArray c_double 4 2) ]
    None (Some sample_views).

(** A manager of two buffers of six elements seen as 2 x 3 matrices. *)
Definition sample_matrix_manager : BufferManager.t :=
  BufferManager.mk 0
    [ RawArray (mkRawArray c_double 6 0);
      RawArray (mkRawArray c_double 6 1) ]
    (Some (ShapeTuple [2; 3]))
    (Some [ mkArray 0 float64 0 [2; 3] [3; 1];
            mkArray 1 float64 0 [2; 3] [3; 1] ]).

Definition sample_record : sdict ndarray :=
  [ ("a"%string, mkArray 0 float64 0 [5] [1]);
    ("b"%string, mkArray 1 float64 0 [5] [1]) ].

Definition sample_dict_manager : BufferedDictManager.t :=
  BufferedDictManager.mk 0
    [ [ ("a"%string, RawArray (mkRawArray c_double 5 0));
        ("b"%string, RawArray (mkRawArray c_double 5 1)) ] ]
    (Some [sample_record]).

Definition sample_shape_map : sdict (option py_shape) :=
  [ ("x"%string, Some (ShapeTuple []));
    ("y"%string, Some (ShapeTuple [10])) ].

(** The flat view [np.frombuffer] yields on a buffer of a registered type. *)
Definition flat_view (r : raw_array) (dtype : np_dtype) : ndarray :=
  mkArray (arr_block r) dtype 0 [arr_len r] [1].

(** What relates a field of the shape map to its buffer and to its view. *)
Definition field_buffer (kv : string * option py_shape)
           (kb : string * mp_array) : Prop :=
  fst kb = fst kv /\
  buffer_of_shape (ShapeTuple (effective_dims (snd kv))) (snd kb).

Definition field_view (kb : string * mp_array) (kn : string * ndarray) : Prop :=
  fst kn = fst kb /\ nd_block (snd kn) = arr_block (raw_of (snd kb)).

(** The ids a consumer has given back, in order. *)
Fixpoint given_back (rounds : list bool) (l : list Z) : list Z :=
  match rounds, l with
  | b :: rounds', id :: l' =>
      if b then id :: given_back rounds' l' else given_back rounds' l'
  | _, _ => []
  end.

(* ================================================================== *)
(** * Vocabulary of the further properties *)

(** A buffer as [init_shm_ndarray shape dtype] allocates it: its element
    type is the one the tables map back to [dtype]. *)
Definition buffer_of (shape : py_shape) (dtype : np_dtype) (b : mp_array) : Prop :=
  exists r, b = RawArray r /\
            dict_get typecode_or_type_eqb _ctypes_to_numpy (CType (arr_type r))
              = Some dtype /\
            arr_len r = product (shape_dims shape).

(** The view [shm_as_ndarray] builds in C order on a buffer. *)
Definition view_of (shape : py_shape) (dtype : np_dtype) (b : mp_array)
           (v : ndarray) : Prop :=
  nd_block v = arr_block (raw_of b) /\ nd_dtype v = dtype /\
  nd_offset v = 0 /\ nd_shape v = shape_dims shape /\
  nd_strides v = c_strides (shape_dims shape).

(** An index with one entry per axis, each within the axis. *)
Definition index_in_shape (idx dims : list Z) : Prop :=
  Forall2 (fun i n => 0 <= i < n) idx dims.

(** An index with its negative entries counted from the end of their
    axes. *)
Fixpoint wrap_index (idx dims : list Z) : list Z :=
  match idx, dims with
  | i :: idx', n :: dims' =>
      (if i <? 0 then i + n else i) :: wrap_index idx' dims'
  | _, _ => idx
  end.

(** The position of an index in row-major and in column-major order. *)
Fixpoint linear_C (idx dims : list Z) : Z :=
  match idx, dims with
  | i :: idx', _ :: dims' => i * product dims' + linear_C idx' dims'
  | _, _ => 0
  end.

Fixpoint linear_F (idx dims : list Z) : Z :=
  match idx, dims with
  | i :: idx', n :: dims' => i + n * linear_F idx' dims'
  | _, _ => 0
  end.

Definition strides_of (order : np_order) (dims : list Z) : list Z :=
  match order with
  | order_C => c_strides dims
  | order_F => f_strides 1 dims
  end.

Definition linear_of (order : np_order) (idx dims : list Z) : Z :=
  match order with
  | order_C => linear_C idx dims
  | order_F => linear_F idx dims
  end.


(** The length Python's [v[0:L]] leaves of an axis of length [n]. *)
Definition clip_len (n L : Z) : Z :=
  if L <? 0 then Z.max (L + n) 0 else Z.min L n.

(** The product of the dimensions that are given, leaving out a negative
    entry. *)
Definition known_product (dims : list Z) : Z :=
  product (filter (fun d => negb (d <? 0)) dims).

Definition create_shm_dict_result : Type :=
  (sdict mp_array * sdict (option py_shape))%type.

(** [create_shm_dict]; the result [o(buffers=buffers, shape=shapes)] is
    the pair of the two dicts, and a shape stored in a dict is a value
    that may also be [None]. *)
Definition create_shm_dict (keys : list string) (shape : py_shape)
           (dtype : np_dtype) : M create_shm_dict_result :=
  r <- for_each keys
         (fun k st =>
            b <- init_shm_ndarray shape dtype ;;
            ret (sset (fst st) k b, sset (snd st) k (Some shape)))
         ([], []) ;;
  ret (fst r, snd r).


(** A view of a record that spans the buffer of the same field. *)
Definition field_spans (kb : string * mp_array) (kn : string * ndarray) : Prop :=
  fst kn = fst kb /\
  nd_block (snd kn) = arr_block (raw_of (snd kb)) /\
  nd_offset (snd kn) = 0 /\
  product (nd_shape (snd kn)) = arr_len (raw_of (snd kb)).


(** A record as [create_dict_buffers] builds it: one buffer of [buf_len]
    elements for each of the names. *)
Definition record_of (recordables : list string) (buf_len : py_shape)
           (dtype : np_dtype) (rec : sdict mp_array) : Prop :=
  NoDup (dict_keys rec) /\
  (forall k, In k (dict_keys rec) <-> In k recordables) /\
  Forall (fun kv => buffer_of buf_len dtype (snd kv)) rec.

(** The flat view of a whole buffer, field by field. *)
Definition field_flat (kb : string * mp_array) (kn : string * ndarray) : Prop :=
  fst kn = fst kb /\
  nd_block (snd kn) = arr_block (raw_of (snd kb)) /\
  nd_offset (snd kn) = 0 /\
  nd_shape (snd kn) = [arr_len (raw_of (snd kb))].

(* ================================================================== *)
(** * Shapes and the dtype tables *)

Lemma registered_iff (dtype : np_dtype) :
  registered dtype <-> dtype = float32 \/ dtype = float64.
Proof.
  unfold registered; split.
  - destruct dtype; cbn; intros H; auto; now contradiction H.
  - intros [-> | ->]; cbn; discriminate.
Qed.

Lemma registered_ctype_iff (t : ctype) :
  registered_ctype t <-> t = c_float \/ t = c_double.
Proof.
  unfold registered_ctype; split.
  - destruct t; cbn; intros H; auto; now contradiction H.
  - intros [-> | ->]; cbn; discriminate.
Qed.

Ltac intp_consts :=
  unfold intp_max in *;
  change (2 ^ 63) with 9223372036854775808 in *;
  change (2 ^ 64) with 18446744073709551616 in *.

Lemma wrap64_small (z : Z) : - 2 ^ 63 <= z <= intp_max -> wrap64 z = z.
Proof.
  unfold wrap64; intp_consts; intros H.
  rewrite Z.mod_small; lia.
Qed.

Lemma max_elements_le : max_elements <= intp_max.
Proof. unfold max_elements. intp_consts. apply Z.div_le_upper_bound; lia. Qed.

Lemma max_elements_bytes (n : Z) : n <= max_elements -> n * 8 <= intp_max.
Proof.
  unfold max_elements. intros H.
  pose proof (Z.mul_div_le intp_max 8 ltac:(lia)). lia.
Qed.

Lemma dims_in_range_spec (bound : Z) (dims : list Z) : forall acc,
  bound <= intp_max ->
  0 <= acc <= bound ->
  dims_in_range bound acc dims = true ->
  Forall (fun d => 0 <= d <= intp_max) dims /\
  0 <= acc * product dims <= bound /\
  known_size dims acc = Some (acc * product dims) /\
  count_unknown dims = 0%nat.
Proof.
  intros acc Hb; revert acc.
  induction dims as [| d rest IH]; intros acc Hacc H.
  - cbn. rewrite Z.mul_1_r. repeat split; auto; lia.
  - cbn [dims_in_range] in H.
    apply andb_prop in H as [H Hrest]. apply andb_prop in H as [H Hmul].
    apply andb_prop in H as [Hd Hd'].
    apply Z.leb_le in Hd. apply Z.leb_le in Hd'. apply Z.leb_le in Hmul.
    assert (Hacc' : 0 <= acc * d <= bound)
      by (split; [apply Z.mul_nonneg_nonneg; lia | exact Hmul]).
    destruct (IH _ Hacc' Hrest) as (Hall & Hrng & Hknown & Hcnt).
    unfold count_unknown in *. cbn [known_size filter product fold_right].
    fold (product rest).
    destruct (Z.ltb_spec d 0); [lia |].
    destruct (Z.ltb_spec intp_max (acc * d)); [lia |].
    rewrite Z.mul_assoc. repeat split; auto; apply Hrng.
Qed.

Lemma dims_in_range_mono (b b' : Z) (dims : list Z) : forall acc,
  b <= b' -> dims_in_range b acc dims = true -> dims_in_range b' acc dims = true.
Proof.
  intros acc Hb; revert acc.
  induction dims as [| d rest IH]; intros acc H; [reflexivity |].
  cbn [dims_in_range] in *.
  apply andb_prop in H as [H Hrest]. apply andb_prop in H as [H Hmul].
  apply Z.leb_le in Hmul.
  rewrite H, (IH _ Hrest). cbn [andb].
  rewrite andb_true_r. apply Z.leb_le. lia.
Qed.

(** A shape of which a buffer can exist is a shape [reshape] takes. *)
Lemma valid_shape_intp_shape (s : py_shape) : valid_shape s -> intp_shape s.
Proof.
  unfold valid_shape, intp_shape, shape_in_range. intros H.
  apply andb_prop in H as [Hlen H]. rewrite Hlen. cbn [andb].
  exact (dims_in_range_mono _ _ _ _ max_elements_le H).
Qed.

Lemma shape_in_range_spec (bound : Z) (s : py_shape) :
  1 <= bound <= intp_max ->
  shape_in_range bound s = true ->
  Z.of_nat (List.length (shape_dims s)) <= NPY_MAXDIMS /\
  Forall (fun d => 0 <= d <= intp_max) (shape_dims s) /\
  0 <= product (shape_dims s) <= bound /\
  known_size (shape_dims s) 1 = Some (product (shape_dims s)) /\
  count_unknown (shape_dims s) = 0%nat.
Proof.
  intros Hb H. unfold shape_in_range in H.
  apply andb_prop in H as [Hlen H]. apply Z.leb_le in Hlen.
  apply dims_in_range_spec in H; [| lia | lia].
  rewrite Z.mul_1_l in H. tauto.
Qed.

Lemma max_elements_pos : 1 <= max_elements <= intp_max.
Proof. split; [vm_compute; discriminate | apply max_elements_le]. Qed.

Lemma forallb_in_int64 (dims : list Z) :
  Forall (fun d => 0 <= d <= intp_max) dims -> forallb in_int64 dims = true.
Proof.
  intros H. apply forallb_forall. rewrite Forall_forall in H.
  intros d Hd. specialize (H d Hd). unfold in_int64.
  apply andb_true_intro; split; apply Z.leb_le; intp_consts; lia.
Qed.

Lemma intp_converter_Ok (dims dims' : list Z) :
  intp_converter dims = Ok dims' ->
  dims' = dims /\ Z.of_nat (List.length dims) <= NPY_MAXDIMS /\
  forallb in_int64 dims = true.
Proof.
  unfold intp_converter.
  destruct (Z.ltb_spec NPY_MAXDIMS (Z.of_nat (List.length dims))) as [Hl | Hl];
    [discriminate |].
  destruct (forallb in_int64 dims); [| discriminate].
  intros Heq. injection Heq as <-. split; [reflexivity | split; [exact Hl | reflexivity]].
Qed.

Lemma intp_converter_intp_shape (s : py_shape) :
  intp_shape s -> intp_converter (shape_dims s) = Ok (shape_dims s).
Proof.
  intros H. unfold intp_shape in H.
  apply shape_in_range_spec in H; [| intp_consts; lia].
  destruct H as (Hlen & Hall & _). unfold intp_converter.
  destruct (Z.ltb_spec NPY_MAXDIMS (Z.of_nat (List.length (shape_dims s))));
    [lia |].
  now rewrite (forallb_in_int64 _ Hall).
Qed.

Lemma valid_shape_product (s : py_shape) :
  valid_shape s ->
  0 <= product (shape_dims s) <= intp_max /\
  np_prod s = Ok (product (shape_dims s)).
Proof.
  intros H. unfold valid_shape in H.
  apply shape_in_range_spec in H; [| apply max_elements_pos].
  destruct H as (_ & Hall & Hrng & _ & _).
  pose proof max_elements_le as Hle.
  split; [lia |]. unfold np_prod. cbv zeta.
  rewrite (forallb_in_int64 _ Hall). f_equal. apply wrap64_small.
  intp_consts; lia.
Qed.

Lemma valid_shape_bytes (s : py_shape) :
  valid_shape s -> product (shape_dims s) * 8 <= intp_max.
Proof.
  intros H. unfold valid_shape in H.
  apply shape_in_range_spec in H; [| apply max_elements_pos].
  apply max_elements_bytes. lia.
Qed.

Lemma fix_unknown_dimension_intp (s : py_shape) (size : Z) :
  intp_shape s ->
  fix_unknown_dimension (shape_dims s) size =
  if size =? product (shape_dims s) then Ok (shape_dims s) else Raise ValueError.
Proof.
  intros H. unfold intp_shape in H.
  apply shape_in_range_spec in H; [| intp_consts; lia].
  destruct H as (_ & _ & _ & Hknown & Hcnt).
  unfold fix_unknown_dimension. rewrite Hcnt, Hknown. reflexivity.
Qed.

Lemma fix_unknown_dimension_valid (s : py_shape) (size : Z) :
  valid_shape s ->
  fix_unknown_dimension (shape_dims s) size =
  if size =? product (shape_dims s) then Ok (shape_dims s) else Raise ValueError.
Proof.
  intros H. apply fix_unknown_dimension_intp, valid_shape_intp_shape, H.
Qed.

(* ================================================================== *)
(** * Allocation *)


Lemma init_shm_ndarray_ok (shape : py_shape) (dtype : np_dtype) (w : world) :
  registered dtype -> valid_shape shape ->
  exists t,
    registered_ctype t /\ sizeof t = itemsize dtype /\
    dict_get typecode_or_type_eqb _ctypes_to_numpy (CType t) = Some dtype /\
    init_shm_ndarray shape dtype w =
    (Ok (RawArray (mkRawArray t (product (shape_dims shape)) (next_shm w))),
     snd (alloc_block (product (shape_dims shape)) w)).
Proof.
  intros Hreg Hval.
  destruct (valid_shape_product _ Hval) as [Hrng Hprod].
  pose proof (valid_shape_bytes _ Hval) as Hbytes.
  apply registered_iff in Hreg.
  assert (Hin : in_int64 (product (shape_dims shape)) = true).
  { unfold in_int64. apply andb_true_intro; split; apply Z.leb_le;
      intp_consts; lia. }
  assert (Hfit : forall t, 0 < sizeof t <= 8 ->
            (intp_max / sizeof t <? product (shape_dims shape)) = false).
  { intros t Ht. apply Z.ltb_ge. apply Z.div_le_lower_bound; [lia |]. nia. }
  unfold init_shm_ndarray.
  destruct Hreg as [-> | ->].
  - exists c_float. split; [apply registered_ctype_iff; auto |].
    split; [reflexivity |]. split; [reflexivity |].
    unfold bind at 1, lift at 1. cbn [dict_getitem dict_get _numpy_to_ctypes].
    change (dict_getitem np_dtype_eqb _numpy_to_ctypes float32)
      with (Ok (A := typecode_or_type) (CType c_float)).
    cbv iota beta. unfold bind at 1, lift at 1. rewrite Hprod. cbv iota beta.
    unfold mp_Array, bind, lift, ret. cbn [resolve_type].
    rewrite Hin. cbn [negb].
    destruct (Z.ltb_spec (product (shape_dims shape)) 0); [lia |].
    rewrite (Hfit c_float) by (cbn; lia). reflexivity.
  - exists c_double. split; [apply registered_ctype_iff; auto |].
    split; [reflexivity |]. split; [reflexivity |].
    unfold bind at 1, lift at 1.
    change (dict_getitem np_dtype_eqb _numpy_to_ctypes float64)
      with (Ok (A := typecode_or_type) (TypeCode "d")).
    cbv iota beta. unfold bind at 1, lift at 1. rewrite Hprod. cbv iota beta.
    unfold mp_Array, bind, lift, ret.
    change (resolve_type (TypeCode "d")) with (Ok (A := ctype) c_double).
    cbv iota beta.
    rewrite Hin. cbn [negb].
    destruct (Z.ltb_spec (product (shape_dims shape)) 0); [lia |].
    rewrite (Hfit c_double) by (cbn; lia). reflexivity.
Qed.







Lemma valid_shape_nonneg_dims (s : py_shape) : valid_shape s -> nonneg_dims s.
Proof.
  intros H. unfold valid_shape in H.
  apply shape_in_range_spec in H; [| apply max_elements_pos]. apply H.
Qed.




(* ================================================================== *)
(** * Views *)

Lemma np_frombuffer_same_size (r : raw_array) (dtype : np_dtype) :
  sizeof (arr_type r) = itemsize dtype ->
  np_frombuffer (RawArray r) dtype = Ok (flat_view r dtype).
Proof.
  intros Hsz. unfold np_frombuffer, flat_view. rewrite Hsz.
  assert (Hpos : itemsize dtype <> 0) by (destruct dtype; discriminate).
  rewrite Z.mod_mul by exact Hpos. rewrite Z.div_mul by exact Hpos.
  reflexivity.
Qed.

Lemma shm_as_ndarray_unfold (a : mp_array) :
  registered_ctype (arr_type (raw_of a)) ->
  exists dtype,
    dict_get typecode_or_type_eqb _ctypes_to_numpy
      (CType (arr_type (raw_of a))) = Some dtype /\
    forall shape order,
      shm_as_ndarray a shape order =
      match shape with
      | Some s => reshape (flat_view (raw_of a) dtype) s order
      | None => Ok (flat_view (raw_of a) dtype)
      end.
Proof.
  intros Hreg. apply registered_ctype_iff in Hreg.
  assert (Hsz : exists dtype,
             dict_get typecode_or_type_eqb _ctypes_to_numpy
               (CType (arr_type (raw_of a))) = Some dtype /\
             sizeof (arr_type (raw_of a)) = itemsize dtype).
  { destruct Hreg as [-> | ->]; eexists; split; reflexivity. }
  destruct Hsz as (dtype & Hget & Hsz). exists dtype. split; [exact Hget |].
  intros shape order. unfold shm_as_ndarray, dict_getitem.
  destruct a as [r | r]; cbn [has_type_attr negb get_obj obind type_attr raw_of] in *;
    rewrite Hget; cbn [obind]; rewrite (np_frombuffer_same_size _ _ Hsz);
    cbn [obind]; destruct shape as [s |]; cbn [obind];
    try reflexivity; destruct (reshape _ s order); reflexivity.
Qed.

Lemma reshape_flat_intp (r : raw_array) (dtype : np_dtype) (s : py_shape)
      (order : np_order) :
  intp_shape s ->
  reshape (flat_view r dtype) s order =
  if arr_len r =? product (shape_dims s)
  then Ok (mkArray (arr_block r) dtype 0 (shape_dims s)
             match order with
             | order_C => c_strides (shape_dims s)
             | order_F => f_strides 1 (shape_dims s)
             end)
  else Raise ValueError.
Proof.
  intros Hval. unfold reshape.
  rewrite (intp_converter_intp_shape _ Hval). cbn [obind].
  rewrite (fix_unknown_dimension_intp _ _ Hval).
  unfold nd_size, flat_view; cbn [nd_shape product fold_right].
  rewrite Z.mul_1_r.
  destruct (arr_len r =? product (shape_dims s)); reflexivity.
Qed.

Lemma reshape_flat_valid (r : raw_array) (dtype : np_dtype) (s : py_shape)
      (order : np_order) :
  valid_shape s ->
  reshape (flat_view r dtype) s order =
  if arr_len r =? product (shape_dims s)
  then Ok (mkArray (arr_block r) dtype 0 (shape_dims s)
             match order with
             | order_C => c_strides (shape_dims s)
             | order_F => f_strides 1 (shape_dims s)
             end)
  else Raise ValueError.
Proof.
  intros Hval. apply reshape_flat_intp, valid_shape_intp_shape, Hval.
Qed.

Lemma shm_as_ndarray_shaped
      (r : raw_array) (shape : py_shape) (order : np_order) :
  registered_ctype (arr_type r) -> valid_shape shape ->
  arr_len r = product (shape_dims shape) ->
  exists v, shm_as_ndarray (RawArray r) (Some shape) order = Ok v /\
            nd_block v = arr_block r /\ nd_shape v = shape_dims shape.
Proof.
  intros Hreg Hval Hlen.
  destruct (shm_as_ndarray_unfold (RawArray r) Hreg) as (dtype & _ & Hun).
  rewrite (Hun (Some shape) order), (reshape_flat_valid _ _ _ _ Hval).
  cbn [raw_of]. rewrite Hlen, Z.eqb_refl. eexists. repeat split.
Qed.

Lemma shm_as_ndarray_succeeds_iff_size_matches_parts
      (a : mp_array) (shape : py_shape) (order : np_order) :
  registered_ctype (arr_type (raw_of a)) -> valid_shape shape ->
  (product (shape_dims shape) = arr_len (raw_of a) ->
   exists v, shm_as_ndarray a (Some shape) order = Ok v) /\
  (product (shape_dims shape) <> arr_len (raw_of a) ->
   shm_as_ndarray a (Some shape) order = Raise ValueError).
Proof.
  intros Hreg Hval.
  destruct (shm_as_ndarray_unfold a Hreg) as (dtype & _ & Hun).
  rewrite (Hun (Some shape) order), (reshape_flat_valid _ _ _ _ Hval).
  destruct (Z.eqb_spec (arr_len (raw_of a)) (product (shape_dims shape)))
    as [Heq | Hne].
  - split; [intros _; eexists; reflexivity | intros H; now symmetry in Heq].
  - split; [intros H; now symmetry in H | reflexivity].
Qed.



(* ================================================================== *)
(** * The free-list queue *)

Lemma queues_set_queue (w : world) (q : nat) (l : list Z) :
  queues (set_queue w q l) q = l.
Proof. cbn. now rewrite Nat.eqb_refl. Qed.

Lemma queues_set_queue_other (w : world) (q q' : nat) (l : list Z) :
  q' <> q -> queues (set_queue w q l) q' = queues w q'.
Proof. intros H. cbn. apply Nat.eqb_neq in H. now rewrite H. Qed.

Lemma checkout_empty {V} (q : nat) (resolve : Z -> outcome V) (w : world) :
  queues w q = [] ->
  checkout q resolve None w = (Blocked, w) /\
  forall t, checkout q resolve (Some t) w = (Raise Empty, w).
Proof.
  intros H. unfold checkout, bind, queue_get. rewrite H. split; reflexivity.
Qed.

Lemma checkout_nonempty {V} (q : nat) (resolve : Z -> outcome V)
      (timeout : option Z) (w : world) (id : Z) (rest : list Z) :
  queues w q = id :: rest ->
  checkout q resolve timeout w =
  (match resolve id with
   | Ok v => Ok (id, v)
   | Raise e => Raise e
   | Blocked => Blocked
   end, set_queue w q rest).
Proof.
  intros H. unfold checkout, bind, queue_get, lift, ret. rewrite H.
  destruct (resolve id); reflexivity.
Qed.

(** A checkout that ends in [Empty] found the queue empty and changed
    nothing, provided resolving an id never raises [Empty] itself. *)
Lemma checkout_Empty_inv {V} (q : nat) (resolve : Z -> outcome V)
      (timeout : option Z) (w w' : world) :
  (forall id, resolve id <> Raise Empty) ->
  checkout q resolve timeout w = (Raise Empty, w') ->
  w' = w /\ queues w q = [].
Proof.
  intros Hres H.
  destruct (queues w q) as [| id rest] eqn:Hq.
  - destruct (checkout_empty q resolve w Hq) as [Hb Ht].
    destruct timeout as [t |].
    + rewrite Ht in H. inversion H. auto.
    + rewrite Hb in H. discriminate.
  - rewrite (checkout_nonempty q resolve timeout w id rest Hq) in H.
    specialize (Hres id). destruct (resolve id); inversion H; congruence.
Qed.

Lemma list_getitem_not_Empty {A} (l : list A) (i : Z) :
  list_getitem l i <> Raise Empty.
Proof.
  unfold list_getitem.
  destruct ((_ <? 0) || _); [discriminate |].
  destruct (nth_error _ _); discriminate.
Qed.

Lemma index_axes_not_Empty (ixs : list axis_index) :
  forall off shape strides, index_axes ixs off shape strides <> Raise Empty.
Proof.
  induction ixs as [| ix rest IH]; intros off shape strides; cbn.
  - discriminate.
  - destruct shape as [| n shape']; [discriminate |].
    destruct strides as [| st strides']; [discriminate |].
    destruct ix as [i | s e].
    + destruct ((_ <? 0) || _); [discriminate | apply IH].
    + match goal with
      | |- context [index_axes rest ?o shape' strides'] =>
          specialize (IH o shape' strides');
          destruct (index_axes rest o shape' strides'); cbn; congruence
      end.
Qed.

Lemma nd_getitem_not_Empty (a : ndarray) (ix : py_index) :
  nd_getitem a ix <> Raise Empty.
Proof.
  unfold nd_getitem.
  pose proof (index_axes_not_Empty (index_axes_of ix) (nd_offset a)
                (nd_shape a) (nd_strides a)) as H.
  destruct (index_axes _ _ _ _); cbn; congruence.
Qed.

Lemma ofor_each_not_Empty {A S} (body : A -> S -> outcome S) (xs : list A) :
  (forall x s, body x s <> Raise Empty) ->
  forall s, ofor_each xs body s <> Raise Empty.
Proof.
  intros Hbody. induction xs as [| x rest IH]; intros s; cbn.
  - discriminate.
  - specialize (Hbody x s). destruct (body x s); cbn; auto; congruence.
Qed.

Lemma BufferManager_map_buffer_not_Empty (m : BufferManager.t) (id : Z) :
  BufferManager.map_buffer m id None <> Raise Empty.
Proof.
  unfold BufferManager.map_buffer, BufferManager.get_buffers_np; cbn.
  destruct (BufferManager.buffers_np m); cbn; [| discriminate].
  apply list_getitem_not_Empty.
Qed.

Lemma BufferedDictManager_map_buffer_not_Empty
      (d : BufferedDictManager.t) (len : option Z) (id : Z) :
  BufferedDictManager.map_buffer d id len <> Raise Empty.
Proof.
  unfold BufferedDictManager.map_buffer, BufferedDictManager.get_buffers_nd.
  destruct (BufferedDictManager.buffers_nd d) as [l |];
    destruct len as [n |]; cbn; try discriminate.
  - pose proof (list_getitem_not_Empty l id) as H.
    destruct (list_getitem l id) as [x | e |]; cbn; try congruence.
    apply ofor_each_not_Empty. intros [k v] s.
    pose proof (nd_getitem_not_Empty v (IdxSlice (Some 0) (Some n))) as H'.
    destruct (nd_getitem v _); cbn; congruence.
  - apply list_getitem_not_Empty.
Qed.

(** C9.  A [get_buffer] with a timeout on a pool whose queue holds no id
    raises [Empty] (Timeout) and returns the world it was given; and
    whenever such a call ends in [Empty], the world is unchanged: the
    queues and the blocks are exactly as before.  Both managers. *)
Theorem get_buffer_timeout_has_no_side_effect
        (m : BufferManager.t) (d : BufferedDictManager.t)
        (buffer_len : option Z) (timeout : Z) (w : world) :
  (queues w (BufferManager.queue m) = [] ->
   BufferManager.get_buffer m (Some timeout) w = (Raise Empty, w)) /\
  (forall w', BufferManager.get_buffer m (Some timeout) w = (Raise Empty, w') ->
              w' = w /\ queues w (BufferManager.queue m) = []) /\
  (queues w (BufferedDictManager.queue d) = [] ->
   BufferedDictManager.get_buffer d buffer_len (Some timeout) w = (Raise Empty, w)) /\
  (forall w', BufferedDictManager.get_buffer d buffer_len (Some timeout) w
              = (Raise Empty, w') ->
              w' = w /\ queues w (BufferedDictManager.queue d) = []).
Proof.
  repeat split.
  - intros H.
    apply (checkout_empty (BufferManager.queue m)
             (fun id => BufferManager.map_buffer m id None) w H).
  - eapply (checkout_Empty_inv (BufferManager.queue m)
              (fun id => BufferManager.map_buffer m id None));
      [apply BufferManager_map_buffer_not_Empty | exact H].
  - eapply (checkout_Empty_inv (BufferManager.queue m)
              (fun id => BufferManager.map_buffer m id None));
      [apply BufferManager_map_buffer_not_Empty | exact H].
  - intros H.
    apply (checkout_empty (BufferedDictManager.queue d)
             (fun id => BufferedDictManager.map_buffer d id buffer_len) w H).
  - eapply (checkout_Empty_inv (BufferedDictManager.queue d)
              (fun id => BufferedDictManager.map_buffer d id buffer_len));
      [intro; apply BufferedDictManager_map_buffer_not_Empty | exact H].
  - eapply (checkout_Empty_inv (BufferedDictManager.queue d)
              (fun id => BufferedDictManager.map_buffer d id buffer_len));
      [intro; apply BufferedDictManager_map_buffer_not_Empty | exact H].
Qed.

(** C10.  [reclaim] checks nothing: for every integer id it returns
    normally and appends the id to the queue, whether or not the id is a
    slot of the pool or already free; two reclaims of one id in a row
    leave that id twice at the end of the queue, which then has a
    duplicate.  Both managers. *)
Theorem reclaim_appends_unconditionally
        (m : BufferManager.t) (d : BufferedDictManager.t) (id : Z) (w : world) :
  BufferManager.reclaim m id w =
    (Ok tt, set_queue w (BufferManager.queue m)
              (queues w (BufferManager.queue m) ++ [id])) /\
  BufferedDictManager.reclaim d id w =
    (Ok tt, set_queue w (BufferedDictManager.queue d)
              (queues w (BufferedDictManager.queue d) ++ [id])) /\
  (let w2 := snd ((BufferManager.reclaim m id ;;; BufferManager.reclaim m id) w) in
   fst ((BufferManager.reclaim m id ;;; BufferManager.reclaim m id) w) = Ok tt /\
   queues w2 (BufferManager.queue m)
     = queues w (BufferManager.queue m) ++ [id; id] /\
   ~ NoDup (queues w2 (BufferManager.queue m))) /\
  (let w2 := snd ((BufferedDictManager.reclaim d id ;;;
                   BufferedDictManager.reclaim d id) w) in
   fst ((BufferedDictManager.reclaim d id ;;;
         BufferedDictManager.reclaim d id) w) = Ok tt /\
   queues w2 (BufferedDictManager.queue d)
     = queues w (BufferedDictManager.queue d) ++ [id; id] /\
   ~ NoDup (queues w2 (BufferedDictManager.queue d))).
Proof.
  assert (Hdup : forall l : list Z, ~ NoDup (l ++ [id; id])).
  { intros l H. apply NoDup_remove_2 in H.
    apply H. rewrite in_app_iff. right. now left. }
  assert (Htwice : forall q,
             queues (set_queue (set_queue w q (queues w q ++ [id])) q
                       (queues (set_queue w q (queues w q ++ [id])) q ++ [id])) q
             = queues w q ++ [id; id]).
  { intros q. rewrite !queues_set_queue, <- app_assoc. reflexivity. }
  split; [reflexivity |]. split; [reflexivity |].
  split; cbn zeta.
  - unfold BufferManager.reclaim, bind, queue_put; cbn [fst snd].
    split; [reflexivity |]. rewrite Htwice. split; [reflexivity | apply Hdup].
  - unfold BufferedDictManager.reclaim, bind, queue_put; cbn [fst snd].
    split; [reflexivity |]. rewrite Htwice. split; [reflexivity | apply Hdup].
Qed.

(* ================================================================== *)
(** * Building a pool *)

Lemma list_getitem_in_range {A} (l : list A) (i : Z) :
  0 <= i < Z.of_nat (List.length l) ->
  exists a, list_getitem l i = Ok a /\ nth_error l (Z.to_nat i) = Some a.
Proof.
  intros Hi. unfold list_getitem.
  destruct (Z.ltb_spec i 0); [lia |].
  destruct (Z.ltb_spec i 0); [lia |].
  destruct (Z.leb_spec (Z.of_nat (List.length l)) i); [lia |]. cbn.
  destruct (nth_error l (Z.to_nat i)) as [a |] eqn:Hnth.
  - exists a. auto.
  - apply nth_error_None in Hnth. lia.
Qed.

Lemma queues_alloc_block (n : Z) (w : world) :
  queues (snd (alloc_block n w)) = queues w.
Proof. reflexivity. Qed.

Section CreateBuffers.
Variable shape : py_shape.
Variable dtype : np_dtype.
Hypothesis Hreg : registered dtype.
Hypothesis Hval : valid_shape shape.

Lemma init_shm_ndarray_buffer (w : world) :
  exists b w',
    init_shm_ndarray shape dtype w = (Ok b, w') /\
    buffer_of_shape shape b /\ queues w' = queues w.
Proof.
  destruct (init_shm_ndarray_ok shape dtype w Hreg Hval)
    as (t & Ht & _ & _ & Hinit).
  eexists _, _. split; [exact Hinit |]. split.
  - eexists. split; [reflexivity |]. split; [exact Ht | reflexivity].
  - reflexivity.
Qed.

Lemma create_buffers_loop (q : nat) (idl : list Z) :
  forall (acc : list mp_array) (w : world),
  exists bs w',
    for_each idl
      (fun i buffers =>
         b <- init_shm_ndarray shape dtype ;;
         queue_put q i ;;;
         ret (buffers ++ [b])) acc w = (Ok (acc ++ bs), w') /\
    List.length bs = List.length idl /\
    Forall (buffer_of_shape shape) bs /\
    queues w' q = queues w q ++ idl.
Proof.
  induction idl as [| i rest IH]; intros acc w.
  - exists [], w. cbn. rewrite !app_nil_r. auto.
  - destruct (init_shm_ndarray_buffer w) as (b & w1 & Hinit & Hb & Hq1).
    destruct (IH (acc ++ [b]) (set_queue w1 q (queues w1 q ++ [i])))
      as (bs & w' & Hloop & Hlen & Hall & Hq).
    exists (b :: bs), w'.
    cbn [for_each]. unfold bind at 1. unfold bind at 1. rewrite Hinit.
    unfold bind at 1. unfold queue_put at 1, ret at 1.
    rewrite Hloop, <- app_assoc. cbn [app List.length].
    split; [reflexivity |]. split; [now rewrite Hlen |].
    split; [now constructor |].
    rewrite Hq, queues_set_queue, Hq1, <- app_assoc. reflexivity.
Qed.

Lemma create_buffers_ok (buf_count : Z) (w : world) :
  exists bufs w',
    create_buffers buf_count shape dtype w = (Ok (bufs, next_queue w), w') /\
    List.length bufs = Z.to_nat buf_count /\
    Forall (buffer_of_shape shape) bufs /\
    queues w' (next_queue w) = ids (Z.to_nat buf_count).
Proof.
  unfold create_buffers.
  set (w0 := snd (mp_Queue w)).
  destruct (create_buffers_loop (next_queue w) (range buf_count) [] w0)
    as (bs & w' & Hloop & Hlen & Hall & Hq).
  exists bs, w'. unfold bind at 1. cbn [mp_Queue].
  unfold bind at 1. fold w0 in Hloop |- *.
  change (mkWorld (shm w) (next_shm w)
            (fun q' => if Nat.eqb q' (next_queue w) then [] else queues w q')
            (S (next_queue w))) with w0.
  rewrite Hloop. cbn [app ret].
  split; [reflexivity |].
  split; [rewrite Hlen; unfold range; now rewrite length_map, length_seq |].
  split; [exact Hall |].
  rewrite Hq. unfold w0; cbn. now rewrite Nat.eqb_refl.
Qed.

Lemma rebuild_loop_ok (self : BufferManager.t) (bs : list mp_array) :
  BufferManager.buf_shape self = Some shape ->
  Forall (buffer_of_shape shape) bs ->
  forall acc, exists views,
    BufferManager.rebuild_loop bs self acc =
      (Ok tt, BufferManager.set_buffers_np self (acc ++ views)) /\
    List.length views = List.length bs.
Proof.
  intros Hshape Hall. induction Hall as [| b rest Hb Hrest IH]; intros acc.
  - exists []. cbn. now rewrite app_nil_r.
  - destruct Hb as (r & -> & Ht & Hlen).
    destruct (shm_as_ndarray_shaped r shape order_C Ht Hval Hlen)
      as (v & Hv & _).
    destruct (IH (acc ++ [v])) as (views & Hloop & Hl).
    exists (v :: views). cbn [BufferManager.rebuild_loop].
    rewrite Hshape, Hv, Hloop, <- app_assoc. cbn. now rewrite Hl.
Qed.
End CreateBuffers.

Lemma create_managed_buffers_ok (N : Z) (shape : py_shape) (dtype : np_dtype)
      (w : world) :
  registered dtype -> valid_shape shape ->
  exists bufs m w1,
    create_buffers N shape dtype w = (Ok (bufs, next_queue w), w1) /\
    BufferManager.init bufs (next_queue w) (Some shape) true = Ok m /\
    create_managed_buffers N shape dtype true w = (Ok m, w1) /\
    BufferManager.queue m = next_queue w /\
    queues w1 (next_queue w) = ids (Z.to_nat N) /\
    pool_size m = Some (Z.of_nat (Z.to_nat N)).
Proof.
  intros Hreg Hval.
  destruct (create_buffers_ok shape dtype Hreg Hval N w)
    as (bufs & w1 & Hcreate & Hblen & Hall & Hq).
  set (self := BufferManager.mk (next_queue w) bufs (Some shape) None).
  destruct (rebuild_loop_ok shape Hval self bufs eq_refl Hall [])
    as (views & Hloop & Hvlen).
  assert (Hinit : BufferManager.init bufs (next_queue w) (Some shape) true
                  = Ok (BufferManager.set_buffers_np self views)).
  { unfold BufferManager.init, BufferManager.rebuild_buffers.
    cbn [BufferManager.buffers_shm]. fold self. rewrite Hloop. reflexivity. }
  exists bufs, (BufferManager.set_buffers_np self views), w1.
  split; [exact Hcreate |]. split; [exact Hinit |].
  split; [unfold create_managed_buffers, bind; rewrite Hcreate;
          cbn [fst snd lift]; now rewrite Hinit |].
  split; [reflexivity |]. split; [exact Hq |].
  unfold pool_size; cbn. now rewrite Hvlen, Hblen.
Qed.

(* ================================================================== *)
(** * Checking buffers out of a BufferManager *)

Section Checkout.
Variable m : BufferManager.t.
Variable n : Z.
Hypothesis Hsize : pool_size m = Some n.

Let q := BufferManager.queue m.

Lemma map_buffer_slot (id : Z) :
  0 <= id < n -> exists v, BufferManager.map_buffer m id None = Ok v.
Proof.
  intros Hid. unfold pool_size in Hsize.
  unfold BufferManager.map_buffer, BufferManager.get_buffers_np.
  destruct (BufferManager.buffers_np m) as [views |]; [| discriminate].
  cbn in Hsize |- *. injection Hsize as Hsize.
  destruct (list_getitem_in_range views id) as (v & Hv & _); [lia |].
  exists v. exact Hv.
Qed.

Lemma get_buffer_head (timeout : option Z) (w : world) (id : Z) (rest : list Z) :
  queues w q = id :: rest -> 0 <= id < n ->
  exists v, BufferManager.get_buffer m timeout w
            = (Ok (id, v), set_queue w q rest).
Proof.
  intros Hq Hid. destruct (map_buffer_slot id Hid) as (v & Hv).
  exists v.
  change (BufferManager.get_buffer m timeout)
    with (checkout q (fun id => BufferManager.map_buffer m id None) timeout).
  rewrite (checkout_nonempty q _ timeout w id rest Hq), Hv. reflexivity.
Qed.

Lemma drain_prefix (l : list Z) :
  Forall (fun id => 0 <= id < n) l ->
  forall (timeouts : list (option Z)) (rest : list Z) (w : world),
    queues w q = l ++ rest ->
    List.length timeouts = List.length l ->
    exists got w2,
      drain m timeouts w = (Ok got, w2) /\
      map fst got = l /\ queues w2 q = rest.
Proof.
  induction 1 as [| id l' Hid Hl' IH]; intros timeouts rest w Hq Hlen.
  - destruct timeouts; [| discriminate]. exists [], w. cbn. auto.
  - destruct timeouts as [| t ts]; [discriminate |].
    destruct (get_buffer_head t w id (l' ++ rest) Hq Hid) as (v & Hget).
    destruct (IH ts rest (set_queue w q (l' ++ rest)))
      as (got & w2 & Hdrain & Hfst & Hq2).
    { apply queues_set_queue. }
    { cbn in Hlen. lia. }
    exists ((id, v) :: got), w2.
    cbn [drain]. unfold bind at 1. rewrite Hget.
    unfold bind at 1. rewrite Hdrain. cbn. rewrite Hfst. auto.
Qed.

Lemma consume_prefix (l : list Z) :
  Forall (fun id => 0 <= id < n) l ->
  forall (rounds : list bool) (extra : list Z) (w : world),
    queues w q = l ++ extra ->
    List.length rounds = List.length l ->
    exists w2,
      consume m rounds w = (Ok l, w2) /\
      queues w2 q = extra ++ given_back rounds l.
Proof.
  induction 1 as [| id l' Hid Hl' IH]; intros rounds extra w Hq Hlen.
  - destruct rounds; [| discriminate]. exists w. cbn.
    rewrite app_nil_r. auto.
  - destruct rounds as [| b bs]; [discriminate |].
    destruct (get_buffer_head None w id (l' ++ extra) Hq Hid) as (v & Hget).
    cbn [consume]. unfold bind at 1. rewrite Hget. cbn [fst].
    destruct b.
    + destruct (IH bs (extra ++ [id])
                  (set_queue (set_queue w q (l' ++ extra)) q
                     (queues (set_queue w q (l' ++ extra)) q ++ [id])))
        as (w2 & Hcons & Hq2).
      { rewrite !queues_set_queue, <- app_assoc. reflexivity. }
      { cbn in Hlen. lia. }
      exists w2. unfold bind at 1.
      unfold BufferManager.reclaim at 1, queue_put at 1. fold q.
      unfold bind at 1. rewrite Hcons. cbn.
      rewrite Hq2, <- app_assoc. auto.
    + destruct (IH bs extra (set_queue w q (l' ++ extra)))
        as (w2 & Hcons & Hq2).
      { apply queues_set_queue. }
      { cbn in Hlen. lia. }
      exists w2. unfold bind at 1. unfold ret at 1.
      unfold bind at 1. rewrite Hcons. cbn. auto.
Qed.

Lemma enqueue_all_appends (l : list Z) :
  forall w, exists w',
    enqueue_all m l w = (Ok tt, w') /\ queues w' q = queues w q ++ l.
Proof.
  unfold enqueue_all.
  induction l as [| id l' IH]; intros w.
  - exists w. cbn. now rewrite app_nil_r.
  - destruct (IH (set_queue w q (queues w q ++ [id]))) as (w' & Hrun & Hq).
    exists w'. cbn [for_each]. unfold bind at 1.
    unfold BufferManager.reclaim at 1, queue_put at 1. fold q.
    rewrite Hrun, Hq, queues_set_queue, <- app_assoc. auto.
Qed.
End Checkout.

Lemma ids_range (k : nat) (id : Z) : In id (ids k) <-> 0 <= id < Z.of_nat k.
Proof.
  unfold ids. rewrite in_map_iff. split.
  - intros (x & <- & Hx). apply in_seq in Hx. lia.
  - intros H. exists (Z.to_nat id). split; [lia |]. apply in_seq. lia.
Qed.

Lemma ids_NoDup (k : nat) : NoDup (ids k).
Proof.
  unfold ids. apply Finite.Injective_map_NoDup; [| apply seq_NoDup].
  intros x y H. lia.
Qed.

(** C2.  A pool of [N > 0] buffers built by [create_buffers] (and wrapped
    by [create_managed_buffers]) has its free list seeded with
    [0 .. N-1]; [N] calls of [get_buffer] without any [reclaim], each a
    blocking call (no timeout, the default), all succeed and return the
    [N] distinct ids [0 .. N-1]; the call after them blocks when it has
    no timeout and raises [Empty] (Timeout) when it has one. *)
Theorem drain_succeeds_n_times_then_blocks
        (N : Z) (shape : py_shape) (dtype : np_dtype) (w : world) :
  0 < N -> registered dtype -> valid_shape shape ->
  exists bufs q m w1 got w2,
    create_buffers N shape dtype w = (Ok (bufs, q), w1) /\
    create_managed_buffers N shape dtype true w = (Ok m, w1) /\
    BufferManager.queue m = q /\
    queues w1 q = ids (Z.to_nat N) /\
    drain m (repeat None (Z.to_nat N)) w1 = (Ok got, w2) /\
    List.length got = Z.to_nat N /\
    map fst got = ids (Z.to_nat N) /\
    NoDup (map fst got) /\
    BufferManager.get_buffer m None w2 = (Blocked, w2) /\
    forall t, BufferManager.get_buffer m (Some t) w2 = (Raise Empty, w2).
Proof.
  intros HN Hreg Hval.
  destruct (create_managed_buffers_ok N shape dtype w Hreg Hval)
    as (bufs & m & w1 & Hcreate & _ & Hm & Hqm & Hq & Hsize).
  destruct (drain_prefix m _ Hsize (ids (Z.to_nat N))) with
      (timeouts := repeat (@None Z) (Z.to_nat N)) (rest := @nil Z) (w := w1)
    as (got & w2 & Hdrain & Hfst & Hq2).
  { apply Forall_forall. intros id Hid. now apply ids_range in Hid. }
  { rewrite Hqm, app_nil_r. exact Hq. }
  { rewrite repeat_length. unfold ids. now rewrite length_map, length_seq. }
  exists bufs, (next_queue w), m, w1, got, w2.
  split; [exact Hcreate |]. split; [exact Hm |]. split; [exact Hqm |].
  split; [exact Hq |]. split; [exact Hdrain |].
  split; [rewrite <- (length_map fst), Hfst; unfold ids;
          now rewrite length_map, length_seq |].
  split; [exact Hfst |]. split; [rewrite Hfst; apply ids_NoDup |].
  apply (checkout_empty (BufferManager.queue m)
           (fun id => BufferManager.map_buffer m id None) w2 Hq2).
Qed.

(** C3.  Take a manager with [n] slots and an empty free list, enqueue
    slot ids in the order [l] (for instance [a; b; c]), and let a single
    consumer call [get_buffer] once per id, after each call either
    reclaiming the id just returned or not: the ids come back in the
    order [l]. *)
Theorem single_consumer_receives_ids_in_fifo_order
        (m : BufferManager.t) (n : Z) (l : list Z) (rounds : list bool)
        (w : world) :
  pool_size m = Some n ->
  Forall (fun id => 0 <= id < n) l ->
  queues w (BufferManager.queue m) = [] ->
  List.length rounds = List.length l ->
  exists w2,
    (enqueue_all m l ;;; consume m rounds) w = (Ok l, w2) /\
    queues w2 (BufferManager.queue m) = given_back rounds l.
Proof.
  intros Hsize Hl Hq Hlen.
  destruct (enqueue_all_appends m l w) as (w1 & Hen & Hq1).
  rewrite Hq in Hq1. cbn in Hq1.
  destruct (consume_prefix m n Hsize l Hl rounds [] w1) as (w2 & Hcons & Hq2).
  { now rewrite app_nil_r. }
  { exact Hlen. }
  exists w2. unfold bind. rewrite Hen, Hcons. auto.
Qed.

(* ================================================================== *)
(** * The protocol keeps the free-list invariant *)

Lemma holds_eqb_eq (a b : nat * Z) : holds_eqb a b = true <-> a = b.
Proof.
  destruct a as [c i], b as [c' i']. unfold holds_eqb; cbn.
  rewrite andb_true_iff, Nat.eqb_eq, Z.eqb_eq. split.
  - intros [-> ->]. reflexivity.
  - intros H. inversion H. auto.
Qed.

Lemma remove_first_perm (x : nat * Z) (l : list (nat * Z)) :
  In x l -> Permutation (x :: remove_first x l) l.
Proof.
  induction l as [| y rest IH]; intros Hin; [contradiction |].
  cbn. destruct (holds_eqb x y) eqn:E.
  - apply holds_eqb_eq in E. subst y. reflexivity.
  - destruct Hin as [-> | Hin].
    + assert (holds_eqb x x = true) by now apply holds_eqb_eq. congruence.
    + rewrite perm_swap. constructor. now apply IH.
Qed.

Lemma NoDup_app_disjoint {A} (l1 l2 : list A) (x : A) :
  NoDup (l1 ++ l2) -> In x l1 -> In x l2 -> False.
Proof.
  induction l1 as [| a l1 IH]; intros Hnd H1 H2; [contradiction |].
  cbn in Hnd. inversion Hnd as [| ? ? Hnotin Hnd']; subst.
  destruct H1 as [-> | H1].
  - apply Hnotin. apply in_or_app. now right.
  - now apply IH.
Qed.

Lemma NoDup_snd_unique (l : list (nat * Z)) (c c' : nat) (id : Z) :
  NoDup (map snd l) -> In (c, id) l -> In (c', id) l -> c' = c.
Proof.
  induction l as [| [c0 i0] rest IH]; intros Hnd H1 H2; [contradiction |].
  cbn in Hnd. inversion Hnd as [| ? ? Hnotin Hnd']; subst.
  destruct H1 as [H1 | H1], H2 as [H2 | H2].
  - congruence.
  - inversion H1; subst. exfalso. apply Hnotin.
    apply in_map_iff. exists (c', id). auto.
  - inversion H2; subst. exfalso. apply Hnotin.
    apply in_map_iff. exists (c, id). auto.
  - now apply IH.
Qed.

Lemma pool_inv_free_list (n : Z) (q : nat) (s : pool_state) :
  pool_inv n q s ->
  free_list_invariant n (queues (pool_world s) q) (held s).
Proof.
  unfold pool_inv. intros Hperm.
  set (free := queues (pool_world s) q) in *.
  assert (Hnd : NoDup (free ++ map snd (held s))).
  { apply (Permutation_NoDup (Permutation_sym Hperm)), ids_NoDup. }
  assert (Hin : forall id, In id (free ++ map snd (held s)) <-> 0 <= id < n).
  { intros id. split.
    - intros H. apply (Permutation_in _ Hperm) in H. apply ids_range in H. lia.
    - intros H. apply (Permutation_in _ (Permutation_sym Hperm)).
      apply ids_range. lia. }
  split; [eapply NoDup_app_remove_r; exact Hnd |].
  split; [intros id H; apply Hin, in_or_app; now left |].
  split; [| eapply NoDup_app_remove_l; exact Hnd].
  intros id Hid. apply Hin in Hid. apply in_app_or in Hid as [Hf | Hh].
  - left. split; [exact Hf |]. intros c Hc.
    apply (NoDup_app_disjoint _ _ id Hnd Hf).
    apply in_map_iff. exists (c, id). auto.
  - right. split.
    + intros Hf. exact (NoDup_app_disjoint _ _ id Hnd Hf Hh).
    + apply in_map_iff in Hh as ([c i] & Hi & Hc). cbn in Hi. subst i.
      exists c. split; [exact Hc |]. intros c' Hc'.
      eapply NoDup_snd_unique; eauto. eapply NoDup_app_remove_l; exact Hnd.
Qed.

Section ProtocolInvariant.
Variables A V : Type.
Variable q : nat.
Variable resolve : A -> Z -> outcome V.
Variable timeout_of : A -> option Z.
Variable n : Z.
Hypothesis Hresolve :
  forall a id, 0 <= id < n -> exists v, resolve a id = Ok v.

Let get (a : A) : M (Z * V) := checkout q (resolve a) (timeout_of a).
Let put (id : Z) : M unit := queue_put q id.

Lemma step_keeps_pool_inv (s s' : pool_state) (a : action A) :
  pool_inv n q s -> step get put s a = Some s' -> pool_inv n q s'.
Proof.
  unfold pool_inv. intros Hinv Hstep. destruct a as [c args | c id]; cbn in Hstep.
  - unfold get in Hstep.
    destruct (queues (pool_world s) q) as [| id rest] eqn:Hq.
    + destruct (checkout_empty q (resolve args) (pool_world s) Hq) as [Hb Ht].
      destruct (timeout_of args) as [t |].
      * rewrite Ht in Hstep. inversion Hstep; subst; cbn. now rewrite Hq.
      * rewrite Hb in Hstep. inversion Hstep; subst; cbn. now rewrite Hq.
    + rewrite (checkout_nonempty q (resolve args) (timeout_of args)
                 (pool_world s) id rest Hq) in Hstep.
      destruct (Hresolve args id) as (v & Hv).
      { assert (Hin : In id (ids (Z.to_nat n))).
        { apply (Permutation_in _ Hinv). now left. }
        apply ids_range in Hin. lia. }
      rewrite Hv in Hstep. inversion Hstep; subst; cbn.
      rewrite Nat.eqb_refl.
      rewrite <- Hinv. cbn. symmetry. apply Permutation_middle.
  - destruct (existsb (holds_eqb (c, id)) (held s)) eqn:Hex; [| discriminate].
    apply existsb_exists in Hex as (y & Hy & Heq).
    apply holds_eqb_eq in Heq. subst y.
    unfold put, queue_put in Hstep. inversion Hstep; subst; cbn.
    rewrite Nat.eqb_refl, <- app_assoc. cbn.
    rewrite <- Hinv. apply Permutation_app_head.
    change (id :: map snd (remove_first (c, id) (held s)))
      with (map snd ((c, id) :: remove_first (c, id) (held s))).
    apply Permutation_map, remove_first_perm, Hy.
Qed.

Lemma run_keeps_pool_inv (actions : list (action A)) :
  forall s s',
    pool_inv n q s -> run get put s actions = Some s' -> pool_inv n q s'.
Proof.
  induction actions as [| a rest IH]; intros s s' Hinv Hrun; cbn in Hrun.
  - inversion Hrun; subst. exact Hinv.
  - destruct (step get put s a) as [s1 |] eqn:Hstep; [| discriminate].
    eapply IH; [| exact Hrun]. eapply step_keeps_pool_inv; eauto.
Qed.
End ProtocolInvariant.

(* ================================================================== *)
(** * Building a pool of records *)

Lemma sset_Forall {V} (P : V -> Prop) (d : sdict V) (k : string) (v : V) :
  Forall (fun kv => P (snd kv)) d -> P v ->
  Forall (fun kv => P (snd kv)) (sset d k v).
Proof.
  intros Hd Hv. induction Hd as [| [k' v'] rest Hk Hrest IH]; cbn.
  - constructor; auto.
  - destruct (String.eqb k' k); constructor; auto.
Qed.

Lemma shm_as_ndarray_flat (shape : py_shape) (b : mp_array) :
  buffer_of_shape shape b ->
  exists v, shm_as_ndarray b None order_C = Ok v /\ has_leading_axis v.
Proof.
  intros (r & -> & Ht & _).
  destruct (shm_as_ndarray_unfold (RawArray r) Ht) as (dtype & _ & Hun).
  rewrite (Hun None order_C). eexists. split; [reflexivity |].
  split; discriminate.
Qed.

Lemma shm_to_nd_dict_flat (shape : py_shape) (b : sdict mp_array) :
  Forall (fun kv => buffer_of_shape shape (snd kv)) b ->
  exists nd, shm_to_nd_dict b NoShape order_C = Ok nd /\
             Forall (fun kv => has_leading_axis (snd kv)) nd.
Proof.
  intros Hb. unfold shm_to_nd_dict, dict_items.
  assert (Hloop : forall acc : sdict ndarray,
             Forall (fun kv => has_leading_axis (snd kv)) acc ->
             exists nd,
               ofor_each b
                 (fun kv st =>
                    let '(k, v) := kv in
                    let '(to_shape, nd_dict) := st in
                    to_shape <-? Ok to_shape ;;
                    a <-? shm_as_ndarray v to_shape order_C ;;
                    Ok (to_shape, sset nd_dict k a)) (None, acc)
               = Ok (None, nd) /\
               Forall (fun kv => has_leading_axis (snd kv)) nd).
  { induction Hb as [| [k v] rest Hv Hrest IH]; intros acc Hacc.
    - exists acc. cbn. auto.
    - destruct (shm_as_ndarray_flat shape v Hv) as (a & Ha & Hax).
      destruct (IH (sset acc k a)) as (nd & Hnd & Hall).
      { now apply sset_Forall. }
      exists nd. cbn [ofor_each obind]. cbn in Ha. rewrite Ha. cbn [obind].
      auto. }
  destruct (Hloop [] (Forall_nil _)) as (nd & Hnd & Hall).
  exists nd. rewrite Hnd. cbn. auto.
Qed.

Lemma dict_rebuild_loop_ok (shape : py_shape) (self : BufferedDictManager.t)
      (bs : list (sdict mp_array)) :
  Forall (Forall (fun kv => buffer_of_shape shape (snd kv))) bs ->
  forall acc, exists nds,
    BufferedDictManager.rebuild_loop bs self acc =
      (Ok tt, BufferedDictManager.set_buffers_nd self (acc ++ nds)) /\
    List.length nds = List.length bs /\
    Forall (Forall (fun kv => has_leading_axis (snd kv))) nds.
Proof.
  intros Hall. induction Hall as [| b rest Hb Hrest IH]; intros acc.
  - exists []. cbn. now rewrite app_nil_r.
  - destruct (shm_to_nd_dict_flat shape b Hb) as (nd & Hnd & Hax).
    destruct (IH (acc ++ [nd])) as (nds & Hloop & Hl & Hall').
    exists (nd :: nds). cbn [BufferedDictManager.rebuild_loop].
    rewrite Hnd, Hloop, <- app_assoc. cbn. rewrite Hl. auto.
Qed.

Section CreateDictBuffers.
Variable recordables : list string.
Variable buf_len : py_shape.
Variable dtype : np_dtype.
Hypothesis Hreg : registered dtype.
Hypothesis Hval : valid_shape buf_len.

Lemma create_record_loop (keys : list string) :
  forall (cur : sdict mp_array) (w : world),
    Forall (fun kv => buffer_of_shape buf_len (snd kv)) cur ->
    exists cur' w',
      for_each keys
        (fun k cur =>
           b <- init_shm_ndarray buf_len dtype ;;
           ret (sset cur k b)) cur w = (Ok cur', w') /\
      Forall (fun kv => buffer_of_shape buf_len (snd kv)) cur' /\
      queues w' = queues w.
Proof.
  induction keys as [| k rest IH]; intros cur w Hcur.
  - exists cur, w. cbn. auto.
  - destruct (init_shm_ndarray_buffer buf_len dtype Hreg Hval w)
      as (b & w1 & Hinit & Hb & Hq1).
    destruct (IH (sset cur k b) w1) as (cur' & w' & Hloop & Hall & Hq).
    { now apply sset_Forall. }
    exists cur', w'. cbn [for_each]. unfold bind at 1. unfold bind at 1.
    rewrite Hinit. unfold ret at 1. rewrite Hloop.
    split; [reflexivity |]. split; [exact Hall | congruence].
Qed.

Lemma create_dict_buffers_loop (q : nat) (idl : list Z) :
  forall (acc : list (sdict mp_array)) (w : world),
  exists bs w',
    for_each idl
      (fun i buffers =>
         cur_buf_shm <- for_each recordables
                          (fun k cur =>
                             b <- init_shm_ndarray buf_len dtype ;;
                             ret (sset cur k b))
                          [] ;;
         queue_put q i ;;;
         ret (buffers ++ [cur_buf_shm])) acc w = (Ok (acc ++ bs), w') /\
    List.length bs = List.length idl /\
    Forall (Forall (fun kv => buffer_of_shape buf_len (snd kv))) bs /\
    queues w' q = queues w q ++ idl.
Proof.
  induction idl as [| i rest IH]; intros acc w.
  - exists [], w. cbn. rewrite !app_nil_r. auto.
  - destruct (create_record_loop recordables [] w (Forall_nil _))
      as (cur & w1 & Hrec & Hcur & Hq1).
    destruct (IH (acc ++ [cur]) (set_queue w1 q (queues w1 q ++ [i])))
      as (bs & w' & Hloop & Hlen & Hall & Hq).
    exists (cur :: bs), w'.
    cbn [for_each]. unfold bind at 1. unfold bind at 1.
    rewrite Hrec. unfold bind at 1. unfold queue_put at 1, ret at 1.
    rewrite Hloop, <- app_assoc. cbn [app List.length].
    split; [reflexivity |]. split; [now rewrite Hlen |].
    split; [now constructor |].
    rewrite Hq, queues_set_queue, Hq1, <- app_assoc. reflexivity.
Qed.

Lemma create_dict_buffers_ok (buf_count : Z) (w : world) :
  exists bufs w',
    create_dict_buffers recordables buf_count buf_len dtype w
      = (Ok (bufs, next_queue w), w') /\
    List.length bufs = Z.to_nat buf_count /\
    Forall (Forall (fun kv => buffer_of_shape buf_len (snd kv))) bufs /\
    queues w' (next_queue w) = ids (Z.to_nat buf_count).
Proof.
  unfold create_dict_buffers. cbv zeta.
  set (w0 := snd (mp_Queue w)).
  destruct (create_dict_buffers_loop (next_queue w) (range buf_count) [] w0)
    as (bs & w' & Hloop & Hlen & Hall & Hq).
  exists bs, w'. unfold bind at 1. cbn [mp_Queue].
  unfold bind at 1. fold w0 in Hloop |- *.
  change (mkWorld (shm w) (next_shm w)
            (fun q' => if Nat.eqb q' (next_queue w) then [] else queues w q')
            (S (next_queue w))) with w0.
  rewrite Hloop. cbn [app ret].
  split; [reflexivity |].
  split; [rewrite Hlen; unfold range; now rewrite length_map, length_seq |].
  split; [exact Hall |].
  rewrite Hq. unfold w0; cbn. now rewrite Nat.eqb_refl.
Qed.
End CreateDictBuffers.

Lemma nd_getitem_leading_slice (v : ndarray) (len : Z) :
  has_leading_axis v ->
  exists n sh st str,
    nd_shape v = n :: sh /\ nd_strides v = st :: str /\
    nd_getitem v (IdxSlice (Some 0) (Some len)) =
    Ok (mkArray (nd_block v) (nd_dtype v)
          (nd_offset v
           + (if slice_bound n (Some len) n <=? slice_bound n (Some 0) 0
              then 0 else slice_bound n (Some 0) 0) * st)
          (Z.max 0 (slice_bound n (Some len) n - slice_bound n (Some 0) 0) :: sh)
          (st :: str)).
Proof.
  intros [Hsh Hst]. unfold nd_getitem.
  destruct (nd_shape v) as [| n sh]; [contradiction |].
  destruct (nd_strides v) as [| st str]; [contradiction |].
  exists n, sh, st, str. auto.
Qed.

Lemma dict_map_buffer_slot (d : BufferedDictManager.t) (n : Z)
      (nds : list (sdict ndarray)) :
  BufferedDictManager.buffers_nd d = Some nds ->
  Z.of_nat (List.length nds) = n ->
  Forall (Forall (fun kv => has_leading_axis (snd kv))) nds ->
  forall (buffer_len : option Z) (id : Z),
    0 <= id < n ->
    exists v, BufferedDictManager.map_buffer d id buffer_len = Ok v.
Proof.
  intros Hnd Hlen Hall buffer_len id Hid.
  unfold BufferedDictManager.map_buffer, BufferedDictManager.get_buffers_nd.
  rewrite Hnd.
  destruct (list_getitem_in_range nds id) as (fields & Hget & Hnth); [lia |].
  destruct buffer_len as [len |]; cbn [obind]; rewrite Hget; cbn [obind];
    [| eexists; reflexivity].
  assert (Hfields : Forall (fun kv => has_leading_axis (snd kv)) fields).
  { apply nth_error_In in Hnth. rewrite Forall_forall in Hall. now apply Hall. }
  clear Hget Hnth. unfold dict_items. generalize (@nil (string * ndarray)).
  induction Hfields as [| [k v] rest Hv Hrest IH]; intros acc.
  - eexists; reflexivity.
  - destruct (nd_getitem_leading_slice v len Hv)
      as (n0 & sh & st & str & _ & _ & Hslice).
    cbn [ofor_each]. rewrite Hslice. cbn [obind]. apply IH.
Qed.

Lemma create_dict_pool_ok (recordables : list string) (N : Z)
      (buf_len : py_shape) (dtype : np_dtype) (w : world) :
  registered dtype -> valid_shape buf_len ->
  exists bufs d nds w1,
    create_dict_buffers recordables N buf_len dtype w
      = (Ok (bufs, next_queue w), w1) /\
    BufferedDictManager.init bufs (next_queue w) true = Ok d /\
    BufferedDictManager.queue d = next_queue w /\
    queues w1 (next_queue w) = ids (Z.to_nat N) /\
    BufferedDictManager.buffers_nd d = Some nds /\
    Z.of_nat (List.length nds) = Z.of_nat (Z.to_nat N) /\
    Forall (Forall (fun kv => has_leading_axis (snd kv))) nds.
Proof.
  intros Hreg Hval.
  destruct (create_dict_buffers_ok recordables buf_len dtype Hreg Hval N w)
    as (bufs & w1 & Hcreate & Hblen & Hall & Hq).
  set (self := BufferedDictManager.mk (next_queue w) bufs None).
  destruct (dict_rebuild_loop_ok buf_len self bufs Hall [])
    as (nds & Hloop & Hlen & Hax).
  exists bufs, (BufferedDictManager.set_buffers_nd self nds), nds, w1.
  split; [exact Hcreate |].
  split; [unfold BufferedDictManager.init, BufferedDictManager.rebuild_buffers;
          cbn [BufferedDictManager.buffers_shm]; fold self;
          now rewrite Hloop |].
  split; [reflexivity |]. split; [exact Hq |]. split; [reflexivity |].
  split; [now rewrite Hlen, Hblen | exact Hax].
Qed.

(** C1.  Build a pool of [N] slots with [create_buffers] (wrapped into a
    [BufferManager] by [create_managed_buffers]) or with
    [create_dict_buffers] and [BufferedDictManager].  After any sequence
    of [get_buffer] and [reclaim] calls by any consumers in which every
    [reclaim] is of an id its caller holds, the free list has no
    duplicate, contains only ids of [0 .. N-1], and every id of that
    range is either free and held by nobody or not free and held by
    exactly one consumer. *)
Theorem free_list_invariant_holds_under_protocol
        (N : Z) (shape : py_shape) (dtype : np_dtype)
        (recordables : list string) (buf_len : py_shape) (w : world) :
  registered dtype -> valid_shape shape -> valid_shape buf_len ->
  (exists bufs q m w1,
     create_buffers N shape dtype w = (Ok (bufs, q), w1) /\
     create_managed_buffers N shape dtype true w = (Ok m, w1) /\
     BufferManager.queue m = q /\
     forall actions s,
       run (BufferManager.get_buffer m) (BufferManager.reclaim m)
           (mkPool w1 []) actions = Some s ->
       free_list_invariant N (queues (pool_world s) q) (held s)) /\
  (exists bufs q d w1,
     create_dict_buffers recordables N buf_len dtype w = (Ok (bufs, q), w1) /\
     BufferedDictManager.init bufs q true = Ok d /\
     BufferedDictManager.queue d = q /\
     forall actions s,
       run (fun args => BufferedDictManager.get_buffer d (fst args) (snd args))
           (BufferedDictManager.reclaim d)
           (mkPool w1 []) actions = Some s ->
       free_list_invariant N (queues (pool_world s) q) (held s)).
Proof.
  intros Hreg Hval Hval'. split.
  - destruct (create_managed_buffers_ok N shape dtype w Hreg Hval)
      as (bufs & m & w1 & Hcreate & _ & Hm & Hqm & Hq & Hsize).
    exists bufs, (next_queue w), m, w1.
    split; [exact Hcreate |]. split; [exact Hm |]. split; [exact Hqm |].
    intros actions s Hrun. apply pool_inv_free_list.
    rewrite <- Hqm.
    apply (run_keeps_pool_inv (option Z) ndarray (BufferManager.queue m)
             (fun _ id => BufferManager.map_buffer m id None)
             (fun t => t) N) with (actions := actions) (s := mkPool w1 []).
    + intros _ id Hid. apply (map_buffer_slot m _ Hsize). lia.
    + unfold pool_inv; cbn. rewrite Hqm, Hq, app_nil_r. reflexivity.
    + exact Hrun.
  - destruct (create_dict_pool_ok recordables N buf_len dtype w Hreg Hval')
      as (bufs & d & nds & w1 & Hcreate & Hinit & Hqd & Hq & Hnd & Hlen & Hax).
    exists bufs, (next_queue w), d, w1.
    split; [exact Hcreate |]. split; [exact Hinit |]. split; [exact Hqd |].
    intros actions s Hrun. apply pool_inv_free_list.
    rewrite <- Hqd.
    apply (run_keeps_pool_inv (option Z * option Z) (sdict ndarray)
             (BufferedDictManager.queue d)
             (fun args id => BufferedDictManager.map_buffer d id (fst args))
             (fun args => snd args) N)
      with (actions := actions) (s := mkPool w1 []).
    + intros args id Hid.
      apply (dict_map_buffer_slot d _ nds Hnd Hlen Hax). lia.
    + unfold pool_inv; cbn. rewrite Hqd, Hq, app_nil_r. reflexivity.
    + exact Hrun.
Qed.

(* ================================================================== *)
(** * Length-truncated records *)

Lemma nd_getitem_truncated (v : ndarray) (len : Z) :
  has_leading_axis v -> 0 <= len <= leading_len v ->
  nd_getitem v (IdxSlice (Some 0) (Some len)) = Ok (truncated v len).
Proof.
  intros Hax Hlen.
  destruct (nd_getitem_leading_slice v len Hax)
    as (n & sh & st & str & Hsh & Hst & Hget).
  rewrite Hget. unfold truncated, leading_len in *. rewrite Hsh, Hst in *.
  cbn [hd tl] in *. unfold slice_bound.
  destruct (Z.ltb_spec 0 0); [lia |].
  destruct (Z.ltb_spec len 0); [lia |].
  replace (Z.min 0 n) with 0 by lia.
  replace (Z.min len n) with len by lia.
  replace ((if len <=? 0 then 0 else 0) * st) with 0
    by (destruct (len <=? 0); lia).
  rewrite Z.add_0_r, Z.sub_0_r.
  replace (Z.max 0 len) with len by lia. reflexivity.
Qed.

Lemma sset_fresh {V} (d : sdict V) (k : string) (v : V) :
  ~ In k (dict_keys d) -> sset d k v = d ++ [(k, v)].
Proof.
  induction d as [| [k' v'] rest IH]; intros Hk; cbn; [reflexivity |].
  destruct (String.eqb_spec k' k) as [-> | Hne].
  - exfalso. apply Hk. now left.
  - f_equal. apply IH. intros Hin. apply Hk. now right.
Qed.

Lemma sget_map {V} (g : V -> V) (d : sdict V) (k : string) :
  sget (map (fun kv => (fst kv, g (snd kv))) d) k = option_map g (sget d k).
Proof.
  induction d as [| [k' v'] rest IH]; cbn; [reflexivity |].
  destruct (String.eqb k' k); [reflexivity | exact IH].
Qed.

Lemma sget_In {V} (d : sdict V) (k : string) (v : V) :
  sget d k = Some v -> In (k, v) d.
Proof.
  induction d as [| [k' v'] rest IH]; cbn; [discriminate |].
  destruct (String.eqb_spec k' k) as [-> | Hne].
  - intros H. inversion H. now left.
  - intros H. right. now apply IH.
Qed.

Lemma truncate_loop (len : Z) (fields : sdict ndarray) :
  (forall k v, In (k, v) fields ->
               has_leading_axis v /\ 0 <= len <= leading_len v) ->
  forall acc : sdict ndarray,
    NoDup (dict_keys (acc ++ fields)) ->
    ofor_each fields
      (fun kv buffers =>
         let '(k, v) := kv in
         s <-? nd_getitem v (IdxSlice (Some 0) (Some len)) ;;
         Ok (sset buffers k s)) acc
    = Ok (acc ++ map (fun kv => (fst kv, truncated (snd kv) len)) fields).
Proof.
  induction fields as [| [k v] rest IH]; intros Hall acc Hnd.
  - cbn. now rewrite app_nil_r.
  - destruct (Hall k v (or_introl eq_refl)) as [Hax Hlen].
    cbn [ofor_each]. rewrite (nd_getitem_truncated v len Hax Hlen).
    cbn [obind map fst snd].
    unfold dict_keys in Hnd. rewrite map_app in Hnd. cbn [map fst] in Hnd.
    rewrite sset_fresh.
    + rewrite (IH (fun k' v' Hin => Hall k' v' (or_intror Hin))
                 (acc ++ [(k, truncated v len)])).
      * now rewrite <- app_assoc.
      * unfold dict_keys. rewrite map_app, map_app, <- app_assoc. exact Hnd.
    + apply NoDup_remove_2 in Hnd. intros Hin. apply Hnd.
      apply in_or_app. now left.
Qed.

Lemma cell_of_cons (i n st : Z) (idx sh str : list Z) (off : Z) :
  0 <= i < n ->
  cell_of (i :: idx) (n :: sh) (st :: str) off = cell_of idx sh str (off + i * st).
Proof.
  intros Hi. cbn [cell_of]. cbv zeta.
  destruct (Z.ltb_spec i 0); [lia |].
  destruct (Z.ltb_spec i 0); [lia |].
  destruct (Z.leb_spec n i); [lia |]. reflexivity.
Qed.

(** A negative entry reads the cell of the entry counted from the end. *)
Lemma cell_of_cons_negative (i n st : Z) (idx sh str : list Z) (off : Z) :
  - n <= i < 0 ->
  cell_of (i :: idx) (n :: sh) (st :: str) off
  = cell_of (i + n :: idx) (n :: sh) (st :: str) off.
Proof.
  intros Hi. cbn [cell_of]. cbv zeta.
  assert (H1 : (i <? 0) = true) by (apply Z.ltb_lt; lia).
  assert (H2 : (i + n <? 0) = false) by (apply Z.ltb_ge; lia).
  rewrite H1, H2. cbv iota. now rewrite H2.
Qed.

Lemma cell_of_cons_outside (i n st : Z) (idx sh str : list Z) (off : Z) :
  i < - n \/ n <= i ->
  cell_of (i :: idx) (n :: sh) (st :: str) off = None.
Proof.
  intros Hi. cbn [cell_of]. cbv zeta.
  destruct (Z.ltb_spec i 0).
  - destruct (Z.ltb_spec (i + n) 0); [reflexivity |].
    destruct (Z.leb_spec n (i + n)); [reflexivity | lia].
  - destruct (Z.ltb_spec i 0); [lia |].
    destruct (Z.leb_spec n i); [reflexivity | lia].
Qed.

Lemma nd_item_truncated (w : world) (v : ndarray) (len i : Z) (idx : list Z) :
  has_leading_axis v -> 0 <= len <= leading_len v -> 0 <= i < len ->
  nd_item w (truncated v len) (i :: idx) = nd_item w v (i :: idx).
Proof.
  intros [Hsh Hst] Hlen Hi. unfold nd_item, truncated, leading_len in *.
  cbn [nd_shape nd_strides nd_offset nd_block].
  destruct (nd_shape v) as [| n sh]; [contradiction |].
  destruct (nd_strides v) as [| st str]; [contradiction |].
  cbn [hd tl] in *.
  rewrite !cell_of_cons by lia. reflexivity.
Qed.

Lemma sset_keys_In {V} (d : sdict V) (k x : string) (v : V) :
  In x (dict_keys (sset d k v)) -> x = k \/ In x (dict_keys d).
Proof.
  induction d as [| [k' v'] rest IH]; cbn.
  - intros [<- | []]. now left.
  - destruct (String.eqb k' k); cbn.
    + intros H. now right.
    + intros [<- | H]; [right; now left |].
      destruct (IH H); [now left | right; now right].
Qed.

Lemma sset_keys_NoDup {V} (d : sdict V) (k : string) (v : V) :
  NoDup (dict_keys d) -> NoDup (dict_keys (sset d k v)).
Proof.
  induction d as [| [k' v'] rest IH]; cbn; intros Hnd.
  - repeat constructor. intros [].
  - inversion Hnd as [| ? ? Hnotin Hnd']; subst.
    destruct (String.eqb_spec k' k) as [-> | Hne]; cbn.
    + now constructor.
    + constructor; [| now apply IH].
      intros H. apply sset_keys_In in H as [-> | H]; [now apply Hne | now apply Hnotin].
Qed.

Lemma shm_as_ndarray_None_axis (b : mp_array) (order : np_order) (v : ndarray) :
  shm_as_ndarray b None order = Ok v -> has_leading_axis v.
Proof.
  unfold shm_as_ndarray, np_asarray.
  destruct b as [r | r]; cbn [has_type_attr negb get_obj obind type_attr];
    destruct (dict_getitem typecode_or_type_eqb _ctypes_to_numpy
                (CType (arr_type r))) as [dtype | e |];
    cbn [obind]; try discriminate;
    unfold np_frombuffer;
    destruct (arr_len r * sizeof (arr_type r) mod itemsize dtype =? 0);
    cbn [obind]; try discriminate;
    intros H; inversion H; subst; split; discriminate.
Qed.

(** A record of views is well formed when its keys are distinct and
    every view has a leading axis. *)
Lemma shm_to_nd_dict_well_formed (b : sdict mp_array) (nd : sdict ndarray) :
  shm_to_nd_dict b NoShape order_C = Ok nd ->
  NoDup (dict_keys nd) /\ Forall (fun kv => has_leading_axis (snd kv)) nd.
Proof.
  unfold shm_to_nd_dict, dict_items.
  assert (Hloop : forall (acc : sdict ndarray) r,
             NoDup (dict_keys acc) ->
             Forall (fun kv => has_leading_axis (snd kv)) acc ->
             ofor_each b
               (fun kv st =>
                  let '(k, v) := kv in
                  let '(to_shape, nd_dict) := st in
                  to_shape <-? Ok to_shape ;;
                  a <-? shm_as_ndarray v to_shape order_C ;;
                  Ok (to_shape, sset nd_dict k a)) (None, acc) = Ok r ->
             NoDup (dict_keys (snd r)) /\
             Forall (fun kv => has_leading_axis (snd kv)) (snd r)).
  { induction b as [| [k v] rest IH]; intros acc r Hnd Hax Hrun.
    - cbn in Hrun. inversion Hrun; subst. cbn. auto.
    - cbn [ofor_each obind] in Hrun.
      destruct (shm_as_ndarray v None order_C) as [a | e |] eqn:Ha;
        cbn [obind] in Hrun; try discriminate.
      apply (IH (sset acc k a) r).
      + now apply sset_keys_NoDup.
      + apply sset_Forall; [exact Hax |].
        eapply shm_as_ndarray_None_axis; exact Ha.
      + exact Hrun. }
  intros H.
  match type of H with
  | obind ?run _ = _ => destruct run as [r | e |] eqn:Hrun
  end; cbn [obind] in H; try discriminate.
  inversion H; subst. apply (Hloop [] r); [constructor | constructor | exact Hrun].
Qed.

Lemma dict_rebuild_loop_well_formed (self d : BufferedDictManager.t)
      (bs : list (sdict mp_array)) :
  forall acc : list (sdict ndarray),
    Forall (fun nd => NoDup (dict_keys nd) /\
                      Forall (fun kv => has_leading_axis (snd kv)) nd) acc ->
    BufferedDictManager.rebuild_loop bs self acc = (Ok tt, d) ->
    exists nds,
      BufferedDictManager.buffers_nd d = Some nds /\
      Forall (fun nd => NoDup (dict_keys nd) /\
                        Forall (fun kv => has_leading_axis (snd kv)) nd) nds.
Proof.
  induction bs as [| b rest IH]; intros acc Hacc Hrun; cbn in Hrun.
  - inversion Hrun; subst. exists acc. auto.
  - destruct (shm_to_nd_dict b NoShape order_C) as [nd | e |] eqn:Hnd;
      try discriminate.
    apply (IH (acc ++ [nd])); [| exact Hrun].
    apply Forall_app. split; [exact Hacc |]. constructor; [| constructor].
    now apply shm_to_nd_dict_well_formed with (b := b).
Qed.

Lemma list_getitem_In {A} (l : list A) (i : Z) (a : A) :
  list_getitem l i = Ok a -> In a l.
Proof.
  unfold list_getitem. destruct ((_ <? 0) || _); [discriminate |].
  destruct (nth_error l _) eqn:Hnth; [| discriminate].
  intros H. inversion H; subst. eapply nth_error_In; eauto.
Qed.

(** C5.  Take a [BufferedDictManager] whose views were built by
    [rebuild_buffers], and let its queue start with slot [id], whose
    fields all have an allocated (leading) length of at least [L >= 0].
    Then [get_buffer(L)] returns [id] with a record of the same fields
    in which every view is the field's full view cut to leading length
    [L]: same block, and the same element at every index below [L].
    Without a length it returns the record of full views itself. *)
Theorem dict_get_buffer_truncates_every_field
        (self d : BufferedDictManager.t) (nds : list (sdict ndarray))
        (fields : sdict ndarray) (id : Z) (rest : list Z) (L : Z)
        (timeout : option Z) (w : world) :
  BufferedDictManager.rebuild_buffers self = (Ok tt, d) ->
  BufferedDictManager.buffers_nd d = Some nds ->
  queues w (BufferedDictManager.queue d) = id :: rest ->
  list_getitem nds id = Ok fields ->
  (forall k v, In (k, v) fields -> 0 <= L <= leading_len v) ->
  (exists out,
     BufferedDictManager.get_buffer d (Some L) timeout w
       = (Ok (id, out), set_queue w (BufferedDictManager.queue d) rest) /\
     dict_keys out = dict_keys fields /\
     forall k v, sget fields k = Some v ->
       exists v',
         sget out k = Some v' /\
         nd_len v' = Ok L /\
         nd_block v' = nd_block v /\
         forall w' i idx, 0 <= i < L ->
           nd_item w' v' (i :: idx) = nd_item w' v (i :: idx)) /\
  BufferedDictManager.get_buffer d None timeout w
    = (Ok (id, fields), set_queue w (BufferedDictManager.queue d) rest).
Proof.
  intros Hbuilt Hnd Hq Hget Hlens.
  destruct (dict_rebuild_loop_well_formed self d
              (BufferedDictManager.buffers_shm self) [] (Forall_nil _) Hbuilt)
    as (nds' & Hnd' & Hwf).
  rewrite Hnd in Hnd'. inversion Hnd'; subst nds'.
  rewrite Forall_forall in Hwf.
  destruct (Hwf fields (list_getitem_In nds id fields Hget)) as [Hkeys Hax].
  rewrite Forall_forall in Hax.
  assert (Hall : forall k v, In (k, v) fields ->
                             has_leading_axis v /\ 0 <= L <= leading_len v).
  { intros k v Hin. split; [exact (Hax (k, v) Hin) | exact (Hlens k v Hin)]. }
  assert (Hfull : BufferedDictManager.map_buffer d id None = Ok fields).
  { unfold BufferedDictManager.map_buffer, BufferedDictManager.get_buffers_nd.
    rewrite Hnd. cbn [obind]. exact Hget. }
  assert (Hcut : BufferedDictManager.map_buffer d id (Some L)
                 = Ok (map (fun kv => (fst kv, truncated (snd kv) L)) fields)).
  { unfold BufferedDictManager.map_buffer, BufferedDictManager.get_buffers_nd.
    rewrite Hnd. cbn [obind]. rewrite Hget. cbn [obind]. unfold dict_items.
    now rewrite (truncate_loop L fields Hall []). }
  split.
  - exists (map (fun kv => (fst kv, truncated (snd kv) L)) fields).
    split.
    { change (BufferedDictManager.get_buffer d (Some L) timeout)
        with (checkout (BufferedDictManager.queue d)
                (fun i => BufferedDictManager.map_buffer d i (Some L)) timeout).
      rewrite (checkout_nonempty _ _ timeout w id rest Hq), Hcut. reflexivity. }
    split.
    { unfold dict_keys. rewrite map_map. reflexivity. }
    intros k v Hk. exists (truncated v L).
    rewrite (sget_map (fun v => truncated v L)), Hk.
    destruct (Hall k v (sget_In fields k v Hk)) as [Hax' Hlen].
    repeat split.
    intros w' i idx Hi. now apply nd_item_truncated.
  - change (BufferedDictManager.get_buffer d None timeout)
      with (checkout (BufferedDictManager.queue d)
              (fun i => BufferedDictManager.map_buffer d i None) timeout).
    rewrite (checkout_nonempty _ _ timeout w id rest Hq), Hfull. reflexivity.
Qed.

(* ================================================================== *)
(** * Records with a shape per field *)

Lemma sget_NoDup_In {V} (d : sdict V) (k : string) (v : V) :
  NoDup (dict_keys d) -> In (k, v) d -> sget d k = Some v.
Proof.
  induction d as [| [k' v'] rest IH]; intros Hnd Hin; [contradiction |].
  cbn in Hnd |- *. inversion Hnd as [| ? ? Hnotin Hnd']; subst.
  destruct Hin as [Heq | Hin].
  - inversion Heq; subst. now rewrite String.eqb_refl.
  - destruct (String.eqb_spec k' k) as [-> | Hne].
    + exfalso. apply Hnotin. apply in_map_iff. exists (k, v). auto.
    + now apply IH.
Qed.

Lemma field_shape_ok_valid (s : option py_shape) :
  field_shape_ok s -> valid_shape (ShapeTuple (effective_dims s)).
Proof.
  intros [-> | (dims & -> & Hval)]; [reflexivity |].
  destruct dims as [| d ds]; [reflexivity | exact Hval].
Qed.

Lemma field_shape_ok_scalar (s : option py_shape) :
  field_shape_ok s ->
  exists b, is_scalar_shape s = Ok b /\
            (b = true -> effective_dims s = [1]) /\
            (b = false -> exists sh, s = Some sh /\
                                     shape_dims sh = effective_dims s /\
                                     valid_shape sh).
Proof.
  intros [-> | (dims & -> & Hval)].
  - exists true. split; [reflexivity |]. split; [reflexivity | discriminate].
  - destruct dims as [| d ds].
    + exists true. split; [reflexivity |]. split; [reflexivity | discriminate].
    + exists false. split.
      * reflexivity.
      * split; [discriminate |]. intros _.
        exists (ShapeTuple (d :: ds)). split; [reflexivity |].
        split; [reflexivity | exact Hval].
Qed.

Section ShapeMap.
Variable shape_map : sdict (option py_shape).
Variable dtype : np_dtype.
Hypothesis Hreg : registered dtype.
Hypothesis Hkeys : NoDup (dict_keys shape_map).
Hypothesis Hshapes : forall k s, In (k, s) shape_map -> field_shape_ok s.

Lemma create_inputs_loop (items : sdict (option py_shape)) :
  (forall k s, In (k, s) items -> In (k, s) shape_map) ->
  forall (bufs : sdict mp_array) (shapes : sdict (option py_shape)) (w : world),
    NoDup (dict_keys bufs ++ dict_keys items) ->
    dict_keys shapes = dict_keys bufs ->
    exists bs w',
      for_each (dict_keys items)
        (fun k st =>
           s <- lift (sgetitem shape_map k) ;;
           scalar <- lift (is_scalar_shape s) ;;
           b <- (if scalar then init_shm_ndarray (ShapeTuple [1]) dtype
                 else match s with
                      | Some sh => init_shm_ndarray sh dtype
                      | None => lift (Raise TypeError)
                      end) ;;
           ret (sset (fst st) k b, sset (snd st) k s))
        (bufs, shapes) w
      = (Ok (bufs ++ bs, shapes ++ items), w') /\
      Forall2 field_buffer items bs.
Proof.
  induction items as [| [k s] rest IH]; intros Hsub bufs shapes w Hnd Hsame.
  - exists [], w. cbn. rewrite !app_nil_r. auto.
  - assert (Hin : In (k, s) shape_map) by (apply Hsub; now left).
    pose proof (sget_NoDup_In shape_map k s Hkeys Hin) as Hget.
    destruct (field_shape_ok_scalar s (Hshapes k s Hin))
      as (sc & Hsc & Htrue & Hfalse).
    assert (Halloc : exists b w1,
               (if sc then init_shm_ndarray (ShapeTuple [1]) dtype
                else match s with
                     | Some sh => init_shm_ndarray sh dtype
                     | None => lift (Raise TypeError)
                     end) w = (Ok b, w1) /\
               buffer_of_shape (ShapeTuple (effective_dims s)) b).
    { destruct sc.
      - rewrite (Htrue eq_refl).
        destruct (init_shm_ndarray_buffer (ShapeTuple [1]) dtype Hreg
                    eq_refl w) as (b & w1 & Hb & Hbuf & _).
        exists b, w1. auto.
      - destruct (Hfalse eq_refl) as (sh & -> & Hdims & Hval).
        destruct (init_shm_ndarray_buffer sh dtype Hreg Hval w)
          as (b & w1 & Hb & (r & -> & Ht & Hlen) & _).
        exists (RawArray r), w1. split; [exact Hb |].
        exists r. repeat split; auto. cbn [shape_dims]. congruence. }
    destruct Halloc as (b & w1 & Hb & Hbuf).
    cbn [dict_keys map fst] in Hnd.
    assert (Hfresh : ~ In k (dict_keys bufs)).
    { apply NoDup_remove_2 in Hnd. intros H. apply Hnd.
      apply in_or_app. now left. }
    destruct (IH (fun k' s' H => Hsub k' s' (or_intror H))
                (bufs ++ [(k, b)]) (shapes ++ [(k, s)]) w1)
      as (bs & w' & Hloop & Hall).
    { unfold dict_keys in *. rewrite map_app, <- app_assoc. exact Hnd. }
    { unfold dict_keys in *. rewrite !map_app. now rewrite Hsame. }
    exists ((k, b) :: bs), w'.
    cbn [dict_keys map fst for_each].
    unfold bind at 1. unfold bind at 1.
    unfold lift at 1, sgetitem, dict_getitem. fold (sget shape_map k).
    rewrite Hget. unfold bind at 1. unfold lift at 1. rewrite Hsc.
    unfold bind at 1. rewrite Hb. unfold ret at 1. cbn [fst snd].
    rewrite (sset_fresh bufs k b Hfresh).
    rewrite (sset_fresh shapes k s) by (now rewrite Hsame).
    fold (dict_keys rest). unfold sgetitem, dict_getitem in Hloop.
    rewrite Hloop, <- !app_assoc. cbn [app].
    split; [reflexivity |]. constructor; [| exact Hall].
    split; [reflexivity | exact Hbuf].
Qed.

Lemma to_nd_inputs_loop (order : np_order) (bs : sdict mp_array) :
  forall (items : sdict (option py_shape)),
    Forall2 field_buffer items bs ->
    (forall k s, In (k, s) items -> In (k, s) shape_map) ->
    forall acc : sdict ndarray,
      NoDup (dict_keys acc ++ dict_keys items) ->
      exists nd,
        ofor_each (dict_items bs)
          (fun kv nd_dict =>
             let '(k, v) := kv in
             s <-? sgetitem shape_map k ;;
             scalar <-? is_scalar_shape s ;;
             if scalar then
               a <-? shm_as_ndarray v (Some (ShapeTuple [1])) order ;;
               Ok (sset nd_dict k a)
             else
               a <-? shm_as_ndarray v s order ;;
               Ok (sset nd_dict k a)) acc
        = Ok (acc ++ nd) /\
        Forall2 (fun kv kn => fst kn = fst kv /\
                              nd_shape (snd kn) = effective_dims (snd kv))
                items nd /\
        Forall2 field_view bs nd.
Proof.
  induction bs as [| [k b] rest IH]; intros items Hall Hsub acc Hnd.
  - inversion Hall; subst. exists []. cbn. rewrite app_nil_r. auto.
  - inversion Hall as [| [k0 s] kb items' bs' [Hk Hbuf] Hall']; subst.
    cbn [fst snd] in Hk, Hbuf. subst k0.
    assert (Hin : In (k, s) shape_map) by (apply Hsub; now left).
    pose proof (sget_NoDup_In shape_map k s Hkeys Hin) as Hget.
    pose proof (Hshapes k s Hin) as Hok.
    destruct (field_shape_ok_scalar s Hok) as (sc & Hsc & Htrue & Hfalse).
    destruct Hbuf as (r & -> & Ht & Hlen). cbn [shape_dims] in Hlen.
    assert (Hview : exists a,
               (if sc then shm_as_ndarray (RawArray r) (Some (ShapeTuple [1])) order
                else shm_as_ndarray (RawArray r) s order) = Ok a /\
               nd_block a = arr_block r /\
               nd_shape a = effective_dims s).
    { destruct sc.
      - rewrite (Htrue eq_refl) in *.
        destruct (shm_as_ndarray_shaped r (ShapeTuple [1]) order Ht eq_refl Hlen)
          as (a & Ha & Hblk & Hshape).
        exists a. auto.
      - destruct (Hfalse eq_refl) as (sh & -> & Hdims & Hval).
        rewrite <- Hdims in Hlen.
        destruct (shm_as_ndarray_shaped r sh order Ht Hval Hlen)
          as (a & Ha & Hblk & Hshape).
        exists a. repeat split; auto. congruence. }
    destruct Hview as (a & Ha & Hblk & Hshape).
    cbn [dict_keys map fst] in Hnd.
    assert (Hfresh : ~ In k (dict_keys acc)).
    { apply NoDup_remove_2 in Hnd. intros H. apply Hnd.
      apply in_or_app. now left. }
    destruct (IH items' Hall' (fun k' s' H => Hsub k' s' (or_intror H))
                (acc ++ [(k, a)])) as (nd & Hloop & Hshapes' & Hviews).
    { unfold dict_keys in *. rewrite map_app, <- app_assoc. exact Hnd. }
    exists ((k, a) :: nd).
    unfold dict_items in *. cbn [ofor_each].
    unfold sgetitem, dict_getitem in *. fold (sget shape_map k).
    rewrite Hget. cbn [obind]. rewrite Hsc. cbn [obind].
    assert (Hstep :
              (if sc
               then a0 <-? shm_as_ndarray (RawArray r) (Some (ShapeTuple [1])) order ;;
                    Ok (sset acc k a0)
               else a0 <-? shm_as_ndarray (RawArray r) s order ;;
                    Ok (sset acc k a0)) = Ok (acc ++ [(k, a)])).
    { destruct sc; rewrite Ha; cbn [obind];
        now rewrite (sset_fresh acc k a Hfresh). }
    rewrite Hstep. cbn [obind]. rewrite Hloop, <- app_assoc. cbn [app].
    split; [reflexivity |].
    split; constructor; auto. split; auto.
Qed.
End ShapeMap.

Lemma Forall2_sget {A B} (R : string * A -> string * B -> Prop)
      (l1 : sdict A) (l2 : sdict B) :
  Forall2 R l1 l2 ->
  (forall a b, R a b -> fst b = fst a) ->
  forall k x, sget l1 k = Some x ->
              exists y, sget l2 k = Some y /\ R (k, x) (k, y).
Proof.
  intros Hall Hfst. induction Hall as [| [k1 x1] [k2 y2] r1 r2 HR Hrest IH];
    intros k x Hget; [discriminate |].
  pose proof (Hfst _ _ HR) as Hk. cbn in Hk. subst k2.
  cbn in Hget |- *. destruct (String.eqb_spec k1 k) as [-> | Hne].
  - inversion Hget; subst. exists y2. auto.
  - now apply IH.
Qed.

(** C8.  For a shape map with valid shapes, [create_shm_dict_inputs]
    followed by [shm_to_nd_dict_inputs] gives every field a buffer and a
    view of that buffer: a field whose shape is [None] or [()] gets a
    buffer of one element and a view of length 1, a field with a
    non-empty shape the buffer and the view of that shape; a field of
    shape [(10,)] has a view of length 10. *)
Theorem scalar_fields_degenerate_to_one_element
        (shape_map : sdict (option py_shape)) (dtype : np_dtype)
        (order : np_order) (w : world) :
  registered dtype ->
  NoDup (dict_keys shape_map) ->
  (forall k s, In (k, s) shape_map -> field_shape_ok s) ->
  exists r w' nd,
    create_shm_dict_inputs shape_map dtype w = (Ok r, w') /\
    sd_shapes r = shape_map /\
    shm_to_nd_dict_inputs (sd_buffers r) (sd_shapes r) order = Ok nd /\
    forall k s, sget shape_map k = Some s ->
      exists b v,
        sget (sd_buffers r) k = Some b /\
        sget nd k = Some v /\
        nd_block v = arr_block (raw_of b) /\
        (s = None \/ s = Some (ShapeTuple []) ->
         arr_len (raw_of b) = 1 /\ nd_shape v = [1] /\ nd_len v = Ok 1) /\
        (forall d ds, s = Some (ShapeTuple (d :: ds)) ->
         arr_len (raw_of b) = product (d :: ds) /\ nd_shape v = d :: ds /\
         nd_len v = Ok d) /\
        (s = Some (ShapeTuple [10]) -> nd_len v = Ok 10).
Proof.
  intros Hreg Hkeys Hshapes.
  destruct (create_inputs_loop shape_map dtype Hreg Hkeys Hshapes shape_map
              (fun k s H => H) [] [] w) as (bs & w' & Hloop & Hbufs).
  { cbn. exact Hkeys. }
  { reflexivity. }
  destruct (to_nd_inputs_loop shape_map Hkeys Hshapes order bs shape_map Hbufs
              (fun k s H => H) []) as (nd & Hnd & Hshape & Hview).
  { cbn. exact Hkeys. }
  exists (mkShmDict bs shape_map), w', nd.
  split.
  { unfold create_shm_dict_inputs. unfold bind at 1.
    unfold sdict, pydict in *. rewrite Hloop. reflexivity. }
  split; [reflexivity |].
  split.
  { unfold shm_to_nd_dict_inputs. cbn [sd_buffers sd_shapes]. exact Hnd. }
  intros k s Hget.
  destruct (Forall2_sget _ _ _ Hbufs (fun a b H => proj1 H) k s Hget)
    as (b & Hb & _ & (r & Hr & _ & Hlen)).
  destruct (Forall2_sget _ _ _ Hshape (fun a b H => proj1 H) k s Hget)
    as (v & Hv & _ & Hvshape).
  destruct (Forall2_sget _ _ _ Hview (fun a b H => proj1 H) k b Hb)
    as (v' & Hv' & _ & Hblk).
  rewrite Hv in Hv'. inversion Hv'; subst v'.
  cbn [fst snd] in *. subst b. cbn [raw_of shape_dims] in *.
  exists (RawArray r), v. cbn [sd_buffers raw_of].
  split; [exact Hb |]. split; [exact Hv |]. split; [exact Hblk |].
  unfold nd_len. rewrite Hvshape, Hlen.
  split; [| split].
  - intros [-> | ->]; cbn; auto.
  - intros d ds ->. cbn. auto.
  - intros ->. reflexivity.
Qed.

(** Outside the valid shapes: numpy infers a dimension given as [-1],
    so a six-element buffer reshapes to [(-1, 3)] as [(2, 3)] although
    the product of the entries is not 6. *)
Example reshape_infers_unknown_dimension :
  exists v,
    shm_as_ndarray (RawArray (mkRawArray c_double 6 0))
      (Some (ShapeTuple [-1; 3])) order_C = Ok v /\
    nd_shape v = [2; 3].
Proof. eexists. split; reflexivity. Qed.

(* ================================================================== *)
(** * Index projections *)

(** C6.  [BufferManager.map_buffer] decides with [if not indices]
    whether an index was given, so an index that Python counts as false
    is taken for a missing one: with the integer index [0] it returns
    the slot's full view, not the sub-view at index 0.  For every other
    index of the model it returns the sub-view [nd_getitem] computes,
    and without an index the full view.  On a pool of one [(2, 3)]
    buffer, [map_buffer(0, 0)] has shape [(2, 3)] where row 0 has shape
    [(3,)], while [map_buffer(0, 1)] is row 1. *)
Theorem map_buffer_takes_index_zero_for_no_index
        (m : BufferManager.t) (id : Z) :
  BufferManager.map_buffer m id (Some (IdxInt 0))
    = BufferManager.map_buffer m id None /\
  (forall ix,
     BufferManager.map_buffer m id (Some ix) =
     if truthy (Some ix)
     then v <-? BufferManager.map_buffer m id None ;; nd_getitem v ix
     else BufferManager.map_buffer m id None) /\
  (let pool := create_managed_buffers 1 (ShapeTuple [2; 3]) float64 true
                 empty_world in
   exists m0 v,
     fst pool = Ok m0 /\
     BufferManager.map_buffer m0 0 None = Ok v /\
     nd_shape v = [2; 3] /\
     BufferManager.map_buffer m0 0 (Some (IdxInt 0)) = Ok v /\
     nd_getitem v (IdxInt 0) = Ok (mkArray 0 float64 0 [3] [1]) /\
     BufferManager.map_buffer m0 0 (Some (IdxInt 1))
       = Ok (mkArray 0 float64 3 [3] [1])).
Proof.
  split; [reflexivity |]. split.
  - intros ix. unfold BufferManager.map_buffer.
    destruct (truthy (Some ix)); cbn [negb truthy]; [| reflexivity].
    destruct (BufferManager.get_buffers_np m) as [bufs | e |]; reflexivity.
  - cbv zeta. eexists _, _. split; [vm_compute; reflexivity |].
    repeat split.
Qed.

(* ================================================================== *)
(** * The theorems at concrete pools *)



Lemma drain_succeeds_n_times_then_blocks_witness :
  0 < 3 /\ registered float64 /\ valid_shape (ShapeTuple [2; 3]) /\
  exists m w1 got w2,
    create_managed_buffers 3 (ShapeTuple [2; 3]) float64 true empty_world
      = (Ok m, w1) /\
    drain m [None; None; None] w1 = (Ok got, w2) /\
    map fst got = [0; 1; 2] /\
    BufferManager.get_buffer m None w2 = (Blocked, w2) /\
    BufferManager.get_buffer m (Some 5) w2 = (Raise Empty, w2).
Proof.
  assert (Hr : registered float64) by (vm_compute; discriminate).
  assert (Hv : valid_shape (ShapeTuple [2; 3])) by reflexivity.
  split; [lia |]. split; [exact Hr |]. split; [exact Hv |].
  destruct (drain_succeeds_n_times_then_blocks 3 (ShapeTuple [2; 3]) float64
              empty_world)
    as (bufs & q & m & w1 & got & w2 & _ & Hm & _ & _ & Hd & _ & Hids & _ & Hb & Ht);
    [lia | exact Hr | exact Hv |].
  exists m, w1, got, w2.
  split; [exact Hm |]. split; [exact Hd |]. split; [exact Hids |].
  split; [exact Hb | apply Ht].
Defined.

Lemma single_consumer_receives_ids_in_fifo_order_witness :
  pool_size sample_manager = Some 3 /\
  Forall (fun id => 0 <= id < 3) [2; 0; 1] /\
  exists w2,
    (enqueue_all sample_manager [2; 0; 1] ;;;
     consume sample_manager [true; false; true]) empty_world
    = (Ok [2; 0; 1], w2).
Proof.
  assert (Hl : Forall (fun id => 0 <= id < 3) [2; 0; 1])
    by (repeat constructor; lia).
  split; [reflexivity |]. split; [exact Hl |].
  destruct (single_consumer_receives_ids_in_fifo_order sample_manager 3
              [2; 0; 1] [true; false; true] empty_world)
    as (w2 & Hrun & _); [reflexivity | exact Hl | reflexivity | reflexivity |].
  exists w2. exact Hrun.
Defined.

Lemma get_buffer_timeout_has_no_side_effect_witness :
  queues empty_world (BufferManager.queue sample_manager) = [] /\
  BufferManager.get_buffer sample_manager (Some 5) empty_world
    = (Raise Empty, empty_world) /\
  BufferedDictManager.get_buffer sample_dict_manager (Some 3) (Some 5) empty_world
    = (Raise Empty, empty_world) /\
  (empty_world = empty_world /\
   queues empty_world (BufferManager.queue sample_manager) = []).
Proof.
  destruct (get_buffer_timeout_has_no_side_effect sample_manager
              sample_dict_manager (Some 3) 5 empty_world)
    as (H1 & H2 & H3 & _).
  split; [reflexivity |]. split; [exact (H1 eq_refl) |].
  split; [exact (H3 eq_refl) |].
  exact (H2 empty_world (H1 eq_refl)).
Defined.

Lemma free_list_invariant_holds_under_protocol_witness :
  registered float64 /\ valid_shape (ShapeTuple [2; 3]) /\
  valid_shape (ShapeInt 5) /\
  (exists m w1 s,
     create_managed_buffers 2 (ShapeTuple [2; 3]) float64 true empty_world
       = (Ok m, w1) /\
     run (BufferManager.get_buffer m) (BufferManager.reclaim m) (mkPool w1 [])
         [Get 0%nat None; Get 1%nat (Some 5); Reclaim 0%nat 0; Get 1%nat None]
       = Some s /\
     held s = [(1%nat, 0); (1%nat, 1)] /\
     free_list_invariant 2 (queues (pool_world s) (BufferManager.queue m))
       (held s)) /\
  (exists bufs q d w1 s,
     create_dict_buffers ["a"; "b"]%string 2 (ShapeInt 5) float64 empty_world
       = (Ok (bufs, q), w1) /\
     BufferedDictManager.init bufs q true = Ok d /\
     run (fun args => BufferedDictManager.get_buffer d (fst args) (snd args))
         (BufferedDictManager.reclaim d) (mkPool w1 [])
         [Get 0%nat (Some 3, None); Reclaim 0%nat 0; Get 1%nat (None, Some 2)]
       = Some s /\
     free_list_invariant 2 (queues (pool_world s) q) (held s)).
Proof.
  assert (Hr : registered float64) by (vm_compute; discriminate).
  assert (Hv : valid_shape (ShapeTuple [2; 3])) by reflexivity.
  assert (Hv' : valid_shape (ShapeInt 5)) by reflexivity.
  split; [exact Hr |]. split; [exact Hv |]. split; [exact Hv' |].
  destruct (free_list_invariant_holds_under_protocol 2 (ShapeTuple [2; 3])
              float64 ["a"; "b"]%string (ShapeInt 5) empty_world Hr Hv Hv')
    as ((bufs & q & m & w1 & _ & Hm & Hq & Hinv) &
        (dbufs & dq & d & dw1 & Hcreate & Hinit & Hdq & Hdinv)).
  split.
  - vm_compute in Hm. inversion Hm; subst m w1. cbn in Hq. subst q.
    eexists _, _, _. split; [vm_compute; reflexivity |].
    split; [vm_compute; reflexivity |].
    split; [reflexivity |].
    apply (Hinv [Get 0%nat None; Get 1%nat (Some 5); Reclaim 0%nat 0;
                 Get 1%nat None]).
    vm_compute. reflexivity.
  - clear Hdq. vm_compute in Hcreate. inversion Hcreate; subst dbufs dq dw1.
    vm_compute in Hinit. injection Hinit as Hd. subst d.
    eexists _, _, _, _, _. split; [vm_compute; reflexivity |].
    split; [vm_compute; reflexivity |].
    split; [vm_compute; reflexivity |].
    apply (Hdinv [Get 0%nat (Some 3, None); Reclaim 0%nat 0;
                  Get 1%nat (None, Some 2)]).
    vm_compute. reflexivity.
Defined.

Lemma dict_get_buffer_truncates_every_field_witness :
  BufferedDictManager.rebuild_buffers sample_dict_manager
    = (Ok tt, sample_dict_manager) /\
  queues (set_queue empty_world 0 [0]) (BufferedDictManager.queue sample_dict_manager)
    = [0] /\
  list_getitem [sample_record] 0 = Ok sample_record /\
  exists out v',
    fst (BufferedDictManager.get_buffer sample_dict_manager (Some 3) None
           (set_queue empty_world 0 [0])) = Ok (0, out) /\
    sget out "b"%string = Some v' /\
    nd_len v' = Ok 3 /\
    fst (BufferedDictManager.get_buffer sample_dict_manager None None
           (set_queue empty_world 0 [0])) = Ok (0, sample_record).
Proof.
  split; [reflexivity |]. split; [reflexivity |]. split; [reflexivity |].
  destruct (dict_get_buffer_truncates_every_field sample_dict_manager
              sample_dict_manager [sample_record] sample_record 0 [] 3 None
              (set_queue empty_world 0 [0]))
    as ((out & Hget & _ & Hfields) & Hfull).
  - reflexivity.
  - reflexivity.
  - reflexivity.
  - reflexivity.
  - intros k v [H | [H | []]]; inversion H; subst;
      unfold leading_len; cbn; lia.
  - destruct (Hfields "b"%string (mkArray 1 float64 0 [5] [1]) eq_refl)
      as (v' & Hv' & Hlen & _).
    exists out, v'. rewrite Hget, Hfull. repeat split; assumption.
Defined.

Lemma scalar_fields_degenerate_to_one_element_witness :
  registered float64 /\
  NoDup (dict_keys sample_shape_map) /\
  exists r w' nd vx vy,
    create_shm_dict_inputs sample_shape_map float64 empty_world = (Ok r, w') /\
    shm_to_nd_dict_inputs (sd_buffers r) (sd_shapes r) order_C = Ok nd /\
    sget nd "x"%string = Some vx /\ nd_len vx = Ok 1 /\
    sget nd "y"%string = Some vy /\ nd_len vy = Ok 10.
Proof.
  assert (Hr : registered float64) by (vm_compute; discriminate).
  assert (Hk : NoDup (dict_keys sample_shape_map))
    by (repeat constructor; cbn; intuition discriminate).
  split; [exact Hr |]. split; [exact Hk |].
  destruct (scalar_fields_degenerate_to_one_element sample_shape_map float64
              order_C empty_world Hr Hk)
    as (r & w' & nd & Hcreate & _ & Hnd & Hfields).
  - intros k s [H | [H | []]]; inversion H; subst; right;
      eexists; split; reflexivity.
  - destruct (Hfields "x"%string (Some (ShapeTuple [])) eq_refl)
      as (bx & vx & _ & Hvx & _ & Hx & _ & _).
    destruct (Hfields "y"%string (Some (ShapeTuple [10])) eq_refl)
      as (b_y & vy & _ & Hvy & _ & _ & _ & Hy).
    exists r, w', nd, vx, vy.
    split; [exact Hcreate |]. split; [exact Hnd |].
    split; [exact Hvx |]. split; [apply Hx; now right |].
    split; [exact Hvy | now apply Hy].
Defined.

(* ================================================================== *)
(** * What a failed or unusual checkout does to the free list *)

Lemma list_getitem_out_of_range {A} (l : list A) (i : Z) :
  i < - Z.of_nat (List.length l) \/ Z.of_nat (List.length l) <= i ->
  list_getitem l i = Raise IndexError.
Proof.
  intros Hi. unfold list_getitem.
  destruct (Z.ltb_spec i 0).
  - destruct (Z.ltb_spec (i + Z.of_nat (List.length l)) 0); [reflexivity | lia].
  - destruct (Z.ltb_spec i 0); [lia |].
    destruct (Z.leb_spec (Z.of_nat (List.length l)) i); [reflexivity | lia].
Qed.


(** X1.  [get_buffer] removes the oldest id before it resolves it.  When
    that id is no index of the list of views (below [-n] or at least
    [n] for a manager of [n] slots) the call raises [IndexError] and the
    id is gone from the queue: a failure other than the timeout does
    have a side effect.  Both managers. *)
Theorem get_buffer_loses_an_unresolvable_id
        (m : BufferManager.t) (d : BufferedDictManager.t) (n : Z) (id : Z)
        (buffer_len timeout : option Z) (w : world) :
  pool_size m = Some n ->
  dict_pool_size d = Some n ->
  id < - n \/ n <= id ->
  (forall rest,
     queues w (BufferManager.queue m) = id :: rest ->
     BufferManager.get_buffer m timeout w
       = (Raise IndexError, set_queue w (BufferManager.queue m) rest)) /\
  (forall rest,
     queues w (BufferedDictManager.queue d) = id :: rest ->
     BufferedDictManager.get_buffer d buffer_len timeout w
       = (Raise IndexError, set_queue w (BufferedDictManager.queue d) rest)).
Proof.
  intros Hm Hd Hid. split; intros rest Hq.
  - change (BufferManager.get_buffer m timeout)
      with (checkout (BufferManager.queue m)
              (fun i => BufferManager.map_buffer m i None) timeout).
    rewrite (checkout_nonempty _ _ timeout w id rest Hq).
    unfold BufferManager.map_buffer, BufferManager.get_buffers_np, pool_size in *.
    destruct (BufferManager.buffers_np m) as [views |]; [| discriminate].
    cbn in Hm |- *. injection Hm as Hm.
    rewrite list_getitem_out_of_range by lia. reflexivity.
  - change (BufferedDictManager.get_buffer d buffer_len timeout)
      with (checkout (BufferedDictManager.queue d)
              (fun i => BufferedDictManager.map_buffer d i buffer_len) timeout).
    rewrite (checkout_nonempty _ _ timeout w id rest Hq).
    unfold BufferedDictManager.map_buffer, BufferedDictManager.get_buffers_nd,
      dict_pool_size in *.
    destruct (BufferedDictManager.buffers_nd d) as [nds |]; [| discriminate].
    cbn in Hd. injection Hd as Hd.
    destruct buffer_len; cbn [obind];
      rewrite list_getitem_out_of_range by lia; reflexivity.
Qed.

Lemma get_buffer_loses_an_unresolvable_id_witness :
  pool_size sample_manager = Some 3 /\
  BufferManager.get_buffer sample_manager None (set_queue empty_world 0 [7; 1])
    = (Raise IndexError, set_queue (set_queue empty_world 0 [7; 1]) 0 [1]).
Proof.
  split; [reflexivity |].
  destruct (get_buffer_loses_an_unresolvable_id sample_manager
              (BufferedDictManager.mk 0 [] (Some [[]; []; []])) 3 7 None None
              (set_queue empty_world 0 [7; 1]))
    as [Hm _]; [reflexivity | reflexivity | right; lia |].
  apply Hm. reflexivity.
Defined.



(** X3.  A manager constructed with [build=False] is returned without
    views, whatever the buffers are; until [rebuild_buffers] has run,
    [map_buffer] raises [AttributeError], and a [get_buffer] that finds
    an id raises it too after taking the id off the queue.  Both
    managers. *)
Theorem unbuilt_manager_raises_attribute_error
        (buffers : list mp_array) (dbuffers : list (sdict mp_array))
        (q : nat) (shape : option py_shape) (id : Z) (rest : list Z)
        (indices : option py_index) (buffer_len timeout : option Z)
        (w : world) :
  queues w q = id :: rest ->
  exists m d,
    BufferManager.init buffers q shape false = Ok m /\
    BufferedDictManager.init dbuffers q false = Ok d /\
    BufferManager.map_buffer m id indices = Raise AttributeError /\
    BufferedDictManager.map_buffer d id buffer_len = Raise AttributeError /\
    BufferManager.get_buffer m timeout w
      = (Raise AttributeError, set_queue w q rest) /\
    BufferedDictManager.get_buffer d buffer_len timeout w
      = (Raise AttributeError, set_queue w q rest).
Proof.
  intros Hq. eexists _, _.
  split; [reflexivity |]. split; [reflexivity |].
  split; [unfold BufferManager.map_buffer; cbn;
          destruct (negb (truthy indices)); reflexivity |].
  split; [destruct buffer_len; reflexivity |].
  split.
  - match goal with
    | |- BufferManager.get_buffer ?m _ _ = _ =>
        change (BufferManager.get_buffer m timeout)
          with (checkout q (fun i => BufferManager.map_buffer m i None) timeout)
    end.
    now rewrite (checkout_nonempty _ _ timeout w id rest Hq).
  - match goal with
    | |- BufferedDictManager.get_buffer ?d _ _ _ = _ =>
        change (BufferedDictManager.get_buffer d buffer_len timeout)
          with (checkout q (fun i => BufferedDictManager.map_buffer d i buffer_len)
                  timeout)
    end.
    rewrite (checkout_nonempty _ _ timeout w id rest Hq).
    destruct buffer_len; reflexivity.
Qed.

Lemma unbuilt_manager_raises_attribute_error_witness :
  queues (set_queue empty_world 0 [0; 1]) 0 = [0; 1] /\
  exists m,
    BufferManager.init [RawArray (mkRawArray c_double 4 0)] 0 None false = Ok m /\
    BufferManager.get_buffer m None (set_queue empty_world 0 [0; 1])
      = (Raise AttributeError, set_queue (set_queue empty_world 0 [0; 1]) 0 [1]).
Proof.
  split; [reflexivity |].
  destruct (unbuilt_manager_raises_attribute_error
              [RawArray (mkRawArray c_double 4 0)] [] 0 None 0 [1] None None None
              (set_queue empty_world 0 [0; 1]) eq_refl)
    as (m & d & Hm & _ & _ & _ & Hget & _).
  exists m. split; [exact Hm | exact Hget].
Defined.

(** X4.  [get_buffer] and [reclaim] touch nothing but the manager's own
    queue: whatever the outcome, the shared blocks, the allocation
    counters and every other queue are as before.  Both managers. *)
Theorem checkout_and_reclaim_touch_only_their_queue
        (m : BufferManager.t) (d : BufferedDictManager.t) (id : Z)
        (buffer_len timeout : option Z) (w : world) :
  let unchanged (q : nat) (w' : world) :=
    shm w' = shm w /\ next_shm w' = next_shm w /\
    next_queue w' = next_queue w /\
    forall q', q' <> q -> queues w' q' = queues w q' in
  unchanged (BufferManager.queue m) (snd (BufferManager.get_buffer m timeout w)) /\
  unchanged (BufferManager.queue m) (snd (BufferManager.reclaim m id w)) /\
  unchanged (BufferedDictManager.queue d)
            (snd (BufferedDictManager.get_buffer d buffer_len timeout w)) /\
  unchanged (BufferedDictManager.queue d)
            (snd (BufferedDictManager.reclaim d id w)).
Proof.
  cbv zeta.
  assert (Hset : forall q l,
             shm (set_queue w q l) = shm w /\
             next_shm (set_queue w q l) = next_shm w /\
             next_queue (set_queue w q l) = next_queue w /\
             forall q', q' <> q -> queues (set_queue w q l) q' = queues w q').
  { intros q l. repeat split. intros q' Hq'. now apply queues_set_queue_other. }
  assert (Hco : forall V q (resolve : Z -> outcome V),
             let w' := snd (checkout q resolve timeout w) in
             shm w' = shm w /\ next_shm w' = next_shm w /\
             next_queue w' = next_queue w /\
             forall q', q' <> q -> queues w' q' = queues w q').
  { intros V q resolve. cbv zeta.
    destruct (queues w q) as [| x rest] eqn:Hq.
    - destruct (checkout_empty q resolve w Hq) as [Hb Ht].
      destruct timeout as [t |]; [rewrite Ht | rewrite Hb]; cbn; auto.
    - rewrite (checkout_nonempty q resolve timeout w x rest Hq). apply Hset. }
  split; [apply (Hco _ (BufferManager.queue m)
                   (fun i => BufferManager.map_buffer m i None)) |].
  split; [apply Hset |].
  split; [apply (Hco _ (BufferedDictManager.queue d)
                   (fun i => BufferedDictManager.map_buffer d i buffer_len)) |].
  apply Hset.
Qed.

(** X5.  A consumer that reclaims every id right after receiving it
    walks the free list in a circle: one [get_buffer] and [reclaim]
    moves the oldest id to the end, and as many rounds as there are free
    ids return each of them once and leave the queue in its original
    order. *)
Theorem get_then_reclaim_rotates_the_free_list
        (m : BufferManager.t) (n : Z) (l : list Z) (w : world) :
  pool_size m = Some n ->
  Forall (fun id => 0 <= id < n) l ->
  queues w (BufferManager.queue m) = l ->
  (forall id rest, l = id :: rest ->
     exists w1, consume m [true] w = (Ok [id], w1) /\
                queues w1 (BufferManager.queue m) = rest ++ [id]) /\
  exists w2,
    consume m (repeat true (List.length l)) w = (Ok l, w2) /\
    queues w2 (BufferManager.queue m) = l.
Proof.
  intros Hm Hl Hq. split.
  - intros id rest ->.
    inversion Hl as [| ? ? Hid Hrest]; subst.
    destruct (consume_prefix m n Hm [id] (Forall_cons _ Hid (Forall_nil _))
                [true] rest w Hq eq_refl) as (w1 & Hrun & Hq1).
    exists w1. split; [exact Hrun | exact Hq1].
  - destruct (consume_prefix m n Hm l Hl (repeat true (List.length l)) [] w)
      as (w2 & Hrun & Hq2).
    { now rewrite app_nil_r. }
    { apply repeat_length. }
    exists w2. split; [exact Hrun |]. rewrite Hq2. cbn.
    clear. induction l as [| x l IH]; cbn; [reflexivity | now rewrite IH].
Qed.

Lemma get_then_reclaim_rotates_the_free_list_witness :
  pool_size sample_manager = Some 3 /\
  exists w2,
    consume sample_manager [true; true; true] (set_queue empty_world 0 [2; 0; 1])
      = (Ok [2; 0; 1], w2) /\
    queues w2 0 = [2; 0; 1].
Proof.
  split; [reflexivity |].
  destruct (get_then_reclaim_rotates_the_free_list sample_manager 3 [2; 0; 1]
              (set_queue empty_world 0 [2; 0; 1]))
    as (_ & w2 & Hrun & Hq);
    [reflexivity | repeat constructor; lia | reflexivity |].
  exists w2. split; [exact Hrun | exact Hq].
Defined.

Lemma checkout_and_reclaim_touch_only_their_queue_witness :
  queues (snd (BufferManager.reclaim sample_manager 1 empty_world)) 1%nat
    = queues empty_world 1%nat.
Proof.
  destruct (checkout_and_reclaim_touch_only_their_queue sample_manager
              sample_dict_manager 1 None None empty_world)
    as (_ & (_ & _ & _ & H) & _).
  apply H. discriminate.
Defined.

(* ================================================================== *)
(** * The cells of a view *)

Lemma index_in_shape_product_pos (idx dims : list Z) :
  index_in_shape idx dims -> 0 < product dims.
Proof.
  induction 1 as [| i n idx' dims' Hi Hrest IH]; cbn [product fold_right].
  - lia.
  - fold (product dims'). nia.
Qed.

Lemma linear_C_bounds (idx dims : list Z) :
  index_in_shape idx dims -> 0 <= linear_C idx dims < product dims.
Proof.
  induction 1 as [| i n idx' dims' Hi Hrest IH]; cbn [linear_C product fold_right].
  - lia.
  - fold (product dims').
    pose proof (index_in_shape_product_pos _ _ Hrest) as Hpos. nia.
Qed.

Lemma linear_F_bounds (idx dims : list Z) :
  index_in_shape idx dims -> 0 <= linear_F idx dims < product dims.
Proof.
  induction 1 as [| i n idx' dims' Hi Hrest IH]; cbn [linear_F product fold_right].
  - lia.
  - fold (product dims').
    pose proof (index_in_shape_product_pos _ _ Hrest) as Hpos. nia.
Qed.

Lemma cell_of_C (idx dims : list Z) :
  index_in_shape idx dims ->
  forall off, cell_of idx dims (c_strides dims) off
              = Some (off + linear_C idx dims).
Proof.
  induction 1 as [| i n idx' dims' Hi Hrest IH]; intros off;
    cbn [c_strides linear_C].
  - cbn [cell_of]. f_equal. lia.
  - rewrite cell_of_cons by lia.
    rewrite IH. f_equal. lia.
Qed.

Lemma cell_of_F (idx dims : list Z) :
  index_in_shape idx dims ->
  forall acc off, cell_of idx dims (f_strides acc dims) off
                  = Some (off + acc * linear_F idx dims).
Proof.
  induction 1 as [| i n idx' dims' Hi Hrest IH]; intros acc off;
    cbn [f_strides linear_F].
  - cbn [cell_of]. f_equal. lia.
  - rewrite cell_of_cons by lia.
    rewrite IH. f_equal. lia.
Qed.

(** An index that denotes a cell denotes the cell of an index within the
    shape: itself with the negative entries counted from the end. *)
Lemma cell_of_wrap_index (idx : list Z) :
  forall dims strides off c,
    cell_of idx dims strides off = Some c ->
    index_in_shape (wrap_index idx dims) dims /\
    cell_of (wrap_index idx dims) dims strides off = Some c.
Proof.
  induction idx as [| i idx' IH]; intros dims strides off c H.
  - destruct dims; [| destruct strides; discriminate].
    destruct strides; [| discriminate]. split; [constructor | exact H].
  - destruct dims as [| n dims']; [destruct strides; discriminate |].
    destruct strides as [| st strides']; [discriminate |].
    cbn [cell_of] in H. cbv zeta in H. cbn [wrap_index].
    set (j := if i <? 0 then i + n else i) in *.
    destruct (Z.ltb_spec j 0); [discriminate |].
    destruct (Z.leb_spec n j); [discriminate |]. cbn [orb] in H.
    destruct (IH _ _ _ _ H) as [Hin Hcell].
    split; [constructor; [lia | exact Hin] |].
    rewrite cell_of_cons by lia. exact Hcell.
Qed.

Lemma linear_C_injective (idx1 idx2 dims : list Z) :
  index_in_shape idx1 dims -> index_in_shape idx2 dims ->
  linear_C idx1 dims = linear_C idx2 dims -> idx1 = idx2.
Proof.
  intros H1. revert idx2.
  induction H1 as [| i n idx' dims' Hi Hrest IH]; intros idx2 H2 Heq.
  - inversion H2. reflexivity.
  - inversion H2 as [| j n' idx2' dims2 Hj Hrest2]; subst.
    cbn [linear_C] in Heq.
    pose proof (linear_C_bounds _ _ Hrest) as B1.
    pose proof (linear_C_bounds _ _ Hrest2) as B2.
    assert (i = j) by nia. subst j.
    f_equal. apply IH; [exact Hrest2 | lia].
Qed.

Lemma linear_F_injective (idx1 idx2 dims : list Z) :
  index_in_shape idx1 dims -> index_in_shape idx2 dims ->
  linear_F idx1 dims = linear_F idx2 dims -> idx1 = idx2.
Proof.
  intros H1. revert idx2.
  induction H1 as [| i n idx' dims' Hi Hrest IH]; intros idx2 H2 Heq.
  - inversion H2. reflexivity.
  - inversion H2 as [| j n' idx2' dims2 Hj Hrest2]; subst.
    cbn [linear_F] in Heq.
    assert (Hmod : forall a x, 0 <= a < n -> (a + n * x) mod n = a).
    { intros a x Ha. rewrite (Z.mul_comm n x), Z_mod_plus_full.
      apply Z.mod_small. exact Ha. }
    assert (i = j).
    { rewrite <- (Hmod i (linear_F idx' dims') Hi),
        <- (Hmod j (linear_F idx2' dims') Hj). now rewrite Heq. }
    subst j. f_equal. apply IH; [exact Hrest2 |].
    apply (Z.mul_reg_l _ _ n); lia.
Qed.

Lemma c_strides_length (dims : list Z) :
  List.length (c_strides dims) = List.length dims.
Proof. induction dims; cbn; auto. Qed.

Lemma f_strides_length (dims : list Z) :
  forall acc, List.length (f_strides acc dims) = List.length dims.
Proof. induction dims; intros acc; cbn; auto. Qed.

Lemma shm_as_ndarray_view (r : raw_array) (shape : py_shape) (order : np_order) :
  registered_ctype (arr_type r) -> valid_shape shape ->
  arr_len r = product (shape_dims shape) ->
  exists dtype,
    dict_get typecode_or_type_eqb _ctypes_to_numpy (CType (arr_type r))
      = Some dtype /\
    shm_as_ndarray (RawArray r) (Some shape) order
      = Ok (mkArray (arr_block r) dtype 0 (shape_dims shape)
              (strides_of order (shape_dims shape))).
Proof.
  intros Hreg Hval Hlen.
  destruct (shm_as_ndarray_unfold (RawArray r) Hreg) as (dtype & Hd & Hun).
  exists dtype. split; [exact Hd |].
  rewrite (Hun (Some shape) order), (reshape_flat_valid _ _ _ _ Hval).
  cbn [raw_of]. rewrite Hlen, Z.eqb_refl. destruct order; reflexivity.
Qed.

(** X6.  A view [shm_as_ndarray] builds with a valid shape on a buffer of
    matching size addresses the buffer and nothing else: every index
    within the shape denotes a cell between 0 and the element count, two
    different indices within the shape denote different cells, and any
    index that denotes a cell (one with negative entries, which count
    from the end of their axes) denotes the cell of an index within the
    shape.  Row-major and column-major order. *)
Theorem view_indices_address_distinct_cells_of_the_buffer
        (a : mp_array) (shape : py_shape) (order : np_order) :
  registered_ctype (arr_type (raw_of a)) ->
  valid_shape shape ->
  product (shape_dims shape) = arr_len (raw_of a) ->
  exists v,
    shm_as_ndarray a (Some shape) order = Ok v /\
    nd_block v = arr_block (raw_of a) /\
    (forall idx, index_in_shape idx (shape_dims shape) ->
       exists c, cell_of idx (nd_shape v) (nd_strides v) (nd_offset v) = Some c /\
                 0 <= c < arr_len (raw_of a)) /\
    (forall idx1 idx2 c,
       index_in_shape idx1 (shape_dims shape) ->
       index_in_shape idx2 (shape_dims shape) ->
       cell_of idx1 (nd_shape v) (nd_strides v) (nd_offset v) = Some c ->
       cell_of idx2 (nd_shape v) (nd_strides v) (nd_offset v) = Some c ->
       idx1 = idx2) /\
    (forall idx c,
       cell_of idx (nd_shape v) (nd_strides v) (nd_offset v) = Some c ->
       index_in_shape (wrap_index idx (shape_dims shape)) (shape_dims shape) /\
       cell_of (wrap_index idx (shape_dims shape))
         (nd_shape v) (nd_strides v) (nd_offset v) = Some c /\
       0 <= c < arr_len (raw_of a)).
Proof.
  intros Hreg Hval Hlen.
  assert (Hv : exists dtype,
             shm_as_ndarray a (Some shape) order
             = Ok (mkArray (arr_block (raw_of a)) dtype 0 (shape_dims shape)
                     (strides_of order (shape_dims shape)))).
  { destruct (shm_as_ndarray_unfold a Hreg) as (dtype & _ & Hun).
    exists dtype.
    rewrite (Hun (Some shape) order), (reshape_flat_valid _ _ _ _ Hval).
    rewrite <- Hlen, Z.eqb_refl. destruct order; reflexivity. }
  destruct Hv as (dtype & Hv). eexists. split; [exact Hv |].
  cbn [nd_block nd_shape nd_strides nd_offset].
  assert (Hcell : forall idx, index_in_shape idx (shape_dims shape) ->
             cell_of idx (shape_dims shape) (strides_of order (shape_dims shape)) 0
             = Some (linear_of order idx (shape_dims shape)) /\
             0 <= linear_of order idx (shape_dims shape)
               < product (shape_dims shape)).
  { intros idx Hidx. destruct order; cbn [strides_of linear_of].
    - rewrite (cell_of_C _ _ Hidx). split; [reflexivity |].
      now apply linear_C_bounds.
    - rewrite (cell_of_F _ _ Hidx), Z.mul_1_l. split; [reflexivity |].
      now apply linear_F_bounds. }
  split; [reflexivity |]. split; [| split].
  - intros idx Hidx. destruct (Hcell idx Hidx) as [Hc Hb].
    eexists. split; [exact Hc | lia].
  - intros idx1 idx2 c Hi1 Hi2 H1 H2.
    destruct (Hcell idx1 Hi1) as [Hc1 _]. destruct (Hcell idx2 Hi2) as [Hc2 _].
    rewrite Hc1 in H1. rewrite Hc2 in H2.
    assert (Heq : linear_of order idx1 (shape_dims shape)
                  = linear_of order idx2 (shape_dims shape)) by congruence.
    destruct order; cbn [linear_of] in Heq.
    + eapply linear_C_injective; eauto.
    + eapply linear_F_injective; eauto.
  - intros idx c Hc.
    destruct (cell_of_wrap_index _ _ _ _ _ Hc) as [Hin Hc'].
    split; [exact Hin |]. split; [exact Hc' |].
    destruct (Hcell _ Hin) as [Hc'' Hb]. rewrite Hc'' in Hc'.
    inversion Hc'; subst c. lia.
Qed.

Lemma view_indices_address_distinct_cells_of_the_buffer_witness :
  registered_ctype c_double /\ valid_shape (ShapeTuple [2; 3]) /\
  exists v,
    shm_as_ndarray (RawArray (mkRawArray c_double 6 0))
      (Some (ShapeTuple [2; 3])) order_F = Ok v /\
    (exists c, cell_of [1; 2] (nd_shape v) (nd_strides v) (nd_offset v) = Some c /\
               0 <= c < 6) /\
    cell_of [-1; -1] (nd_shape v) (nd_strides v) (nd_offset v)
    = cell_of [1; 2] (nd_shape v) (nd_strides v) (nd_offset v).
Proof.
  assert (Hr : registered_ctype c_double) by (vm_compute; discriminate).
  assert (Hv : valid_shape (ShapeTuple [2; 3])) by reflexivity.
  split; [exact Hr |]. split; [exact Hv |].
  destruct (view_indices_address_distinct_cells_of_the_buffer
              (RawArray (mkRawArray c_double 6 0)) (ShapeTuple [2; 3]) order_F
              Hr Hv eq_refl) as (v & Hview & _ & Hin & _ & Hwrap).
  exists v. split; [exact Hview |].
  split; [apply (Hin [1; 2]); repeat constructor; lia |].
  vm_compute in Hview. injection Hview as <-. reflexivity.
Defined.

(* ================================================================== *)
(** * The layout of a fresh pool *)

Lemma Forall2_nth_error_r {A B} (R : A -> B -> Prop) (l1 : list A) (l2 : list B) :
  Forall2 R l1 l2 ->
  forall i b, nth_error l2 i = Some b ->
              exists a, nth_error l1 i = Some a /\ R a b.
Proof.
  induction 1 as [| a0 b0 r1 r2 HR Hrest IH]; intros [| i] b Hb;
    cbn in Hb |- *; try discriminate.
  - inversion Hb; subst. eauto.
  - now apply IH.
Qed.

Lemma map_seq_nth_error {A} (f : A -> nat) (l : list A) (start : nat) :
  map f l = seq start (List.length l) ->
  forall i a, nth_error l i = Some a -> f a = (start + i)%nat.
Proof.
  revert start. induction l as [| x rest IH]; intros start Hmap [| i] a Ha;
    cbn in Hmap, Ha; try discriminate.
  - inversion Ha; subst. inversion Hmap. lia.
  - injection Hmap as Hx Hrest. rewrite (IH (S start) Hrest i a Ha). lia.
Qed.

Section PoolLayout.
Variable shape : py_shape.
Variable dtype : np_dtype.
Hypothesis Hreg : registered dtype.
Hypothesis Hval : valid_shape shape.

Let size : Z := product (shape_dims shape).

Lemma init_shm_ndarray_fresh (w : world) :
  exists b w1,
    init_shm_ndarray shape dtype w = (Ok b, w1) /\
    buffer_of shape dtype b /\
    arr_block (raw_of b) = next_shm w /\
    next_shm w1 = S (next_shm w) /\
    next_queue w1 = next_queue w /\
    queues w1 = queues w /\
    shm w1 (next_shm w) = repeat 0 (Z.to_nat size) /\
    (forall h, h <> next_shm w -> shm w1 h = shm w h).
Proof.
  destruct (init_shm_ndarray_ok shape dtype w Hreg Hval)
    as (t & _ & _ & Ht & Hinit).
  eexists _, _. split; [exact Hinit |].
  split; [eexists; repeat split; auto |].
  cbn. rewrite Nat.eqb_refl. repeat split.
  intros h Hh. apply Nat.eqb_neq in Hh. now rewrite Hh.
Qed.

Lemma create_buffers_loop_layout (q : nat) (idl : list Z) :
  forall (acc : list mp_array) (w : world),
  exists bs w',
    for_each idl
      (fun i buffers =>
         b <- init_shm_ndarray shape dtype ;;
         queue_put q i ;;;
         ret (buffers ++ [b])) acc w = (Ok (acc ++ bs), w') /\
    map (fun b => arr_block (raw_of b)) bs
      = seq (next_shm w) (List.length idl) /\
    List.length bs = List.length idl /\
    Forall (buffer_of shape dtype) bs /\
    next_shm w' = (next_shm w + List.length idl)%nat /\
    next_queue w' = next_queue w /\
    (forall h, (h < next_shm w)%nat -> shm w' h = shm w h) /\
    (forall h, (next_shm w <= h < next_shm w')%nat ->
               shm w' h = repeat 0 (Z.to_nat size)) /\
    (forall q', q' <> q -> queues w' q' = queues w q').
Proof.
  induction idl as [| i rest IH]; intros acc w.
  - exists [], w. cbn. rewrite !app_nil_r, Nat.add_0_r.
    repeat split; auto. intros h Hh. lia.
  - destruct (init_shm_ndarray_fresh w)
      as (b & w1 & Hinit & Hb & Hblock & Hn1 & Hnq1 & Hq1 & Hzero & Hframe).
    destruct (IH (acc ++ [b]) (set_queue w1 q (queues w1 q ++ [i])))
      as (bs & w' & Hloop & Hblocks & Hlen & Hall & Hnext & Hnq & Hold & Hnew & Hqs).
    cbn [set_queue next_shm next_queue shm queues] in *.
    exists (b :: bs), w'.
    cbn [for_each]. unfold bind at 1. unfold bind at 1. rewrite Hinit.
    unfold bind at 1. unfold queue_put at 1, ret at 1.
    rewrite Hloop, <- app_assoc. cbn [app List.length map seq].
    rewrite Hn1 in *.
    split; [reflexivity |].
    split; [now rewrite Hblocks, Hblock |].
    split; [now rewrite Hlen |].
    split; [now constructor |].
    split; [lia |]. split; [congruence |].
    split; [| split].
    + intros h Hh. rewrite Hold by lia. apply Hframe. lia.
    + intros h Hh. destruct (Nat.eq_dec h (next_shm w)) as [-> | Hne].
      * rewrite Hold by lia. exact Hzero.
      * apply Hnew. lia.
    + intros q' Hq'. rewrite (Hqs q' Hq').
      apply Nat.eqb_neq in Hq'. rewrite Hq'. now rewrite Hq1.
Qed.

Lemma rebuild_loop_views (self : BufferManager.t) (bs : list mp_array) :
  BufferManager.buf_shape self = Some shape ->
  Forall (buffer_of shape dtype) bs ->
  forall acc, exists views,
    BufferManager.rebuild_loop bs self acc =
      (Ok tt, BufferManager.set_buffers_np self (acc ++ views)) /\
    Forall2 (view_of shape dtype) bs views.
Proof.
  intros Hshape Hall. induction Hall as [| b rest Hb Hrest IH]; intros acc.
  - exists []. cbn. rewrite app_nil_r. auto.
  - destruct Hb as (r & -> & Ht & Hlen).
    assert (Hrc : registered_ctype (arr_type r)).
    { unfold registered_ctype. rewrite Ht. discriminate. }
    destruct (shm_as_ndarray_view r shape order_C Hrc Hval Hlen)
      as (dtype' & Hd & Hv).
    rewrite Ht in Hd. inversion Hd; subst dtype'. cbn [strides_of] in Hv.
    destruct (IH (acc ++ [mkArray (arr_block r) dtype 0 (shape_dims shape)
                            (c_strides (shape_dims shape))]))
      as (views & Hloop & Hviews).
    eexists (_ :: views). cbn [BufferManager.rebuild_loop].
    rewrite Hshape, Hv, Hloop, <- app_assoc. cbn [app].
    split; [reflexivity |]. constructor; [| exact Hviews].
    repeat split.
Qed.

Lemma managed_pool_layout (N : Z) (w : world) :
  exists bufs views m w1,
    create_managed_buffers N shape dtype true w = (Ok m, w1) /\
    BufferManager.queue m = next_queue w /\
    BufferManager.buffers_shm m = bufs /\
    BufferManager.buffers_np m = Some views /\
    List.length bufs = Z.to_nat N /\
    map (fun b => arr_block (raw_of b)) bufs = seq (next_shm w) (Z.to_nat N) /\
    Forall2 (view_of shape dtype) bufs views /\
    next_shm w1 = (next_shm w + Z.to_nat N)%nat /\
    next_queue w1 = S (next_queue w) /\
    (forall h, (h < next_shm w)%nat -> shm w1 h = shm w h) /\
    (forall h, (next_shm w <= h < next_shm w1)%nat ->
               shm w1 h = repeat 0 (Z.to_nat size)) /\
    (forall q', q' <> next_queue w -> queues w1 q' = queues w q') /\
    queues w1 (next_queue w) = ids (Z.to_nat N).
Proof.
  set (w0 := snd (mp_Queue w)).
  destruct (create_buffers_loop_layout (next_queue w) (range N) [] w0)
    as (bs & w1 & Hloop & Hblocks & Hlen & Hall & Hnext & Hnq & Hold & Hnew & Hqs).
  assert (Hrange : List.length (range N) = Z.to_nat N)
    by (unfold range; now rewrite length_map, length_seq).
  rewrite Hrange in *.
  set (self := BufferManager.mk (next_queue w) bs (Some shape) None).
  destruct (rebuild_loop_views self bs eq_refl Hall []) as (views & Hreb & Hviews).
  assert (Hcreate : create_buffers N shape dtype w = (Ok (bs, next_queue w), w1)).
  { unfold create_buffers. unfold bind at 1. cbn [mp_Queue].
    unfold bind at 1.
    change (mkWorld (shm w) (next_shm w)
              (fun q' => if Nat.eqb q' (next_queue w) then [] else queues w q')
              (S (next_queue w))) with w0.
    rewrite Hloop. reflexivity. }
  exists bs, views, (BufferManager.set_buffers_np self views), w1.
  split.
  { unfold create_managed_buffers. unfold bind at 1. rewrite Hcreate.
    cbn [fst snd lift]. unfold BufferManager.init, BufferManager.rebuild_buffers.
    cbn [BufferManager.buffers_shm]. fold self. now rewrite Hreb. }
  split; [reflexivity |]. split; [reflexivity |]. split; [reflexivity |].
  split; [exact Hlen |]. split; [exact Hblocks |]. split; [exact Hviews |].
  split; [exact Hnext |]. split; [exact Hnq |].
  split; [exact Hold |]. split; [exact Hnew |].
  split.
  - intros q' Hq'. rewrite (Hqs q' Hq'). unfold w0; cbn.
    apply Nat.eqb_neq in Hq'. now rewrite Hq'.
  - pose proof (create_buffers_loop shape dtype Hreg Hval (next_queue w)
                  (range N) [] w0) as (bs' & w1' & Hloop' & _ & _ & Hq).
    rewrite Hloop in Hloop'. inversion Hloop'; subst w1'.
    rewrite Hq. unfold w0; cbn. now rewrite Nat.eqb_refl.
Qed.
End PoolLayout.

Lemma managed_pool_slot (shape : py_shape) (dtype : np_dtype) (N : Z) (w : world) :
  registered dtype -> valid_shape shape ->
  exists m w1,
    create_managed_buffers N shape dtype true w = (Ok m, w1) /\
    BufferManager.queue m = next_queue w /\
    next_shm w1 = (next_shm w + Z.to_nat N)%nat /\
    next_queue w1 = S (next_queue w) /\
    (forall h, (h < next_shm w)%nat -> shm w1 h = shm w h) /\
    (forall h, (next_shm w <= h < next_shm w1)%nat ->
               shm w1 h = repeat 0 (Z.to_nat (product (shape_dims shape)))) /\
    (forall q', q' <> next_queue w -> queues w1 q' = queues w q') /\
    queues w1 (next_queue w) = ids (Z.to_nat N) /\
    forall id, 0 <= id < N ->
      exists v,
        BufferManager.map_buffer m id None = Ok v /\
        nd_block v = (next_shm w + Z.to_nat id)%nat /\
        nd_dtype v = dtype /\ nd_offset v = 0 /\
        nd_shape v = shape_dims shape /\
        nd_strides v = c_strides (shape_dims shape).
Proof.
  intros Hreg Hval.
  destruct (managed_pool_layout shape dtype Hreg Hval N w)
    as (bufs & views & m & w1 & Hm & Hq & Hbufs & Hviews & Hlen & Hblocks
        & Hall & Hnext & Hnq & Hold & Hnew & Hqs & Hids).
  exists m, w1.
  split; [exact Hm |]. split; [exact Hq |]. split; [exact Hnext |].
  split; [exact Hnq |]. split; [exact Hold |]. split; [exact Hnew |].
  split; [exact Hqs |]. split; [exact Hids |].
  intros id Hid.
  pose proof (Forall2_length Hall) as Hvlen.
  destruct (list_getitem_in_range views id) as (v & Hget & Hnth); [lia |].
  destruct (Forall2_nth_error_r _ _ _ Hall _ _ Hnth)
    as (b & Hb & Hblk & Hdt & Hoff & Hsh & Hst).
  exists v. split.
  { unfold BufferManager.map_buffer, BufferManager.get_buffers_np.
    rewrite Hviews. exact Hget. }
  rewrite <- Hlen in Hblocks.
  rewrite Hblk, (map_seq_nth_error _ _ _ Hblocks _ _ Hb). auto.
Qed.

(** X7.  In a pool [create_managed_buffers] has just built, the view of
    every slot has the requested dtype and shape, and every element of
    it reads zero. *)
Theorem fresh_pool_views_have_the_dtype_and_shape_and_read_zero
        (N : Z) (shape : py_shape) (dtype : np_dtype) (w : world) :
  registered dtype -> valid_shape shape ->
  exists m w1,
    create_managed_buffers N shape dtype true w = (Ok m, w1) /\
    forall id, 0 <= id < N ->
      exists v,
        BufferManager.map_buffer m id None = Ok v /\
        nd_dtype v = dtype /\
        nd_shape v = shape_dims shape /\
        forall idx, index_in_shape idx (shape_dims shape) ->
                    nd_item w1 v idx = Some 0.
Proof.
  intros Hreg Hval.
  destruct (managed_pool_slot shape dtype N w Hreg Hval)
    as (m & w1 & Hm & _ & Hnext & _ & _ & Hnew & _ & _ & Hslot).
  exists m, w1. split; [exact Hm |].
  intros id Hid. destruct (Hslot id Hid) as (v & Hv & Hblk & Hdt & Hoff & Hsh & Hst).
  exists v. split; [exact Hv |]. split; [exact Hdt |]. split; [exact Hsh |].
  intros idx Hidx. unfold nd_item. rewrite Hsh, Hst, Hoff, Hblk.
  rewrite (cell_of_C _ _ Hidx). cbn [Z.add].
  pose proof (linear_C_bounds _ _ Hidx) as Hb.
  destruct (Z.ltb_spec (linear_C idx (shape_dims shape)) 0); [lia |].
  rewrite Hnew by lia. apply nth_error_repeat. lia.
Qed.

Lemma fresh_pool_views_have_the_dtype_and_shape_and_read_zero_witness :
  registered float32 /\ valid_shape (ShapeTuple [2; 3]) /\
  exists m w1 v,
    create_managed_buffers 2 (ShapeTuple [2; 3]) float32 true empty_world
      = (Ok m, w1) /\
    BufferManager.map_buffer m 1 None = Ok v /\
    nd_dtype v = float32 /\
    nd_item w1 v [1; 2] = Some 0.
Proof.
  assert (Hr : registered float32) by (vm_compute; discriminate).
  assert (Hv : valid_shape (ShapeTuple [2; 3])) by reflexivity.
  split; [exact Hr |]. split; [exact Hv |].
  destruct (fresh_pool_views_have_the_dtype_and_shape_and_read_zero 2
              (ShapeTuple [2; 3]) float32 empty_world Hr Hv)
    as (m & w1 & Hm & Hslot).
  destruct (Hslot 1) as (v & Hmap & Hdt & _ & Hzero); [lia |].
  exists m, w1, v. split; [exact Hm |]. split; [exact Hmap |].
  split; [exact Hdt |]. apply Hzero. repeat constructor; lia.
Defined.

(** X8.  The slots of a pool [create_managed_buffers] has built do not
    share memory: the views of two different slots lie on different
    blocks, and none of these blocks existed before the pool. *)
Theorem pool_slots_lie_on_distinct_fresh_blocks
        (N : Z) (shape : py_shape) (dtype : np_dtype) (w : world) :
  registered dtype -> valid_shape shape ->
  exists m w1,
    create_managed_buffers N shape dtype true w = (Ok m, w1) /\
    (forall i vi, 0 <= i < N -> BufferManager.map_buffer m i None = Ok vi ->
                  (next_shm w <= nd_block vi < next_shm w1)%nat) /\
    (forall i j vi vj,
       0 <= i < N -> 0 <= j < N -> i <> j ->
       BufferManager.map_buffer m i None = Ok vi ->
       BufferManager.map_buffer m j None = Ok vj ->
       nd_block vi <> nd_block vj).
Proof.
  intros Hreg Hval.
  destruct (managed_pool_slot shape dtype N w Hreg Hval)
    as (m & w1 & Hm & _ & Hnext & _ & _ & _ & _ & _ & Hslot).
  exists m, w1. split; [exact Hm |]. split.
  - intros i vi Hi Hvi. destruct (Hslot i Hi) as (v & Hv & Hblk & _).
    rewrite Hv in Hvi. inversion Hvi; subst. lia.
  - intros i j vi vj Hi Hj Hij Hvi Hvj.
    destruct (Hslot i Hi) as (v & Hv & Hblk & _).
    destruct (Hslot j Hj) as (v' & Hv' & Hblk' & _).
    rewrite Hv in Hvi. rewrite Hv' in Hvj.
    inversion Hvi; inversion Hvj; subst. lia.
Qed.

Lemma pool_slots_lie_on_distinct_fresh_blocks_witness :
  registered float64 /\ valid_shape (ShapeTuple [4]) /\
  exists m w1 v0 v2,
    create_managed_buffers 3 (ShapeTuple [4]) float64 true empty_world
      = (Ok m, w1) /\
    BufferManager.map_buffer m 0 None = Ok v0 /\
    BufferManager.map_buffer m 2 None = Ok v2 /\
    nd_block v0 <> nd_block v2.
Proof.
  assert (Hr : registered float64) by (vm_compute; discriminate).
  assert (Hv : valid_shape (ShapeTuple [4])) by reflexivity.
  split; [exact Hr |]. split; [exact Hv |].
  destruct (pool_slots_lie_on_distinct_fresh_blocks 3 (ShapeTuple [4]) float64
              empty_world Hr Hv) as (m & w1 & Hm & _ & Hdistinct).
  vm_compute in Hm. inversion Hm; subst m w1.
  eexists _, _, _, _. split; [vm_compute; reflexivity |].
  split; [reflexivity |]. split; [reflexivity |].
  apply (Hdistinct 0 2); [lia | lia | lia | reflexivity | reflexivity].
Defined.

(** X9.  Building a pool does not disturb what is already there: the
    blocks and the queues that existed before [create_managed_buffers]
    keep their contents, the new queue is one that did not exist, and
    it holds [0 .. N-1]. *)
Theorem building_a_pool_leaves_existing_pools_untouched
        (N : Z) (shape : py_shape) (dtype : np_dtype) (w : world) :
  registered dtype -> valid_shape shape ->
  exists m w1,
    create_managed_buffers N shape dtype true w = (Ok m, w1) /\
    BufferManager.queue m = next_queue w /\
    next_queue w1 = S (next_queue w) /\
    queues w1 (BufferManager.queue m) = ids (Z.to_nat N) /\
    (forall h, (h < next_shm w)%nat -> shm w1 h = shm w h) /\
    (forall q', (q' < next_queue w)%nat -> queues w1 q' = queues w q').
Proof.
  intros Hreg Hval.
  destruct (managed_pool_slot shape dtype N w Hreg Hval)
    as (m & w1 & Hm & Hq & _ & Hnq & Hold & _ & Hqs & Hids & _).
  exists m, w1. split; [exact Hm |]. split; [exact Hq |]. split; [exact Hnq |].
  split; [now rewrite Hq |]. split; [exact Hold |].
  intros q' Hq'. apply Hqs. lia.
Qed.

Lemma building_a_pool_leaves_existing_pools_untouched_witness :
  registered float64 /\ valid_shape (ShapeTuple [4]) /\
  exists m1 w1 m2 w2,
    create_managed_buffers 2 (ShapeTuple [4]) float64 true empty_world
      = (Ok m1, w1) /\
    create_managed_buffers 3 (ShapeTuple [4]) float64 true w1 = (Ok m2, w2) /\
    queues w2 (BufferManager.queue m1) = queues w1 (BufferManager.queue m1).
Proof.
  assert (Hr : registered float64) by (vm_compute; discriminate).
  assert (Hv : valid_shape (ShapeTuple [4])) by reflexivity.
  split; [exact Hr |]. split; [exact Hv |].
  destruct (building_a_pool_leaves_existing_pools_untouched 2 (ShapeTuple [4])
              float64 empty_world Hr Hv)
    as (m1 & w1 & Hm1 & Hq1 & Hnq1 & _).
  destruct (building_a_pool_leaves_existing_pools_untouched 3 (ShapeTuple [4])
              float64 w1 Hr Hv)
    as (m2 & w2 & Hm2 & _ & _ & _ & _ & Hqs).
  exists m1, w1, m2, w2. split; [exact Hm1 |]. split; [exact Hm2 |].
  apply Hqs. rewrite Hq1, Hnq1. cbn. lia.
Defined.

(* ================================================================== *)
(** * Edge cases of building pools and managers *)

(** X10.  [create_buffers] looks at the dtype and the shape only inside
    its loop.  With a count of zero or less it returns a pool without
    buffers and with an empty queue for any dtype and shape, registered
    or not; with a positive count and an unregistered dtype it raises
    [KeyError] after it has created the queue: nothing is allocated or
    enqueued, but the queue counter has advanced. *)
Theorem create_buffers_checks_the_dtype_only_when_it_allocates
        (N : Z) (shape : py_shape) (dtype : np_dtype) (w : world) :
  (N <= 0 ->
   create_buffers N shape dtype w = (Ok ([], next_queue w), snd (mp_Queue w)) /\
   queues (snd (mp_Queue w)) (next_queue w) = []) /\
  (0 < N -> ~ registered dtype ->
   create_buffers N shape dtype w = (Raise KeyError, snd (mp_Queue w)) /\
   shm (snd (mp_Queue w)) = shm w /\
   next_shm (snd (mp_Queue w)) = next_shm w /\
   next_queue (snd (mp_Queue w)) = S (next_queue w)).
Proof.
  split.
  - intros HN. unfold create_buffers, range.
    replace (Z.to_nat N) with 0%nat by lia. cbn.
    now rewrite Nat.eqb_refl.
  - intros HN Hn. unfold create_buffers, range.
    destruct (Z.to_nat N) as [| k] eqn:Hk; [lia |].
    rewrite registered_iff in Hn.
    split; [| repeat split].
    destruct dtype; try (exfalso; apply Hn; auto; fail); reflexivity.
Qed.

Lemma create_buffers_checks_the_dtype_only_when_it_allocates_witness :
  ~ registered int16 /\
  create_buffers 0 (ShapeTuple [2; 3]) int16 empty_world
    = (Ok ([], 0%nat), snd (mp_Queue empty_world)) /\
  create_buffers 2 (ShapeTuple [2; 3]) int16 empty_world
    = (Raise KeyError, snd (mp_Queue empty_world)).
Proof.
  assert (Hn : ~ registered int16) by (intros H; apply H; reflexivity).
  split; [exact Hn |].
  destruct (create_buffers_checks_the_dtype_only_when_it_allocates 0
              (ShapeTuple [2; 3]) int16 empty_world) as [H0 _].
  destruct (create_buffers_checks_the_dtype_only_when_it_allocates 2
              (ShapeTuple [2; 3]) int16 empty_world) as [_ H2].
  split; [apply H0; lia | apply H2; [lia | exact Hn]].
Defined.

(** X11.  The shape given to a [BufferManager] is checked against the
    buffers when the views are built, not before: with buffers of one
    shape and a valid shape of another size, the constructor raises
    [ValueError] when [build] is true and returns a manager without
    views when it is false; with no shape it builds flat views whose
    length is the element count. *)
Theorem manager_shape_is_checked_when_views_are_built
        (shape shape' : py_shape) (b : mp_array) (rest : list mp_array)
        (q : nat) :
  buffer_of_shape shape b ->
  valid_shape shape' ->
  product (shape_dims shape') <> product (shape_dims shape) ->
  BufferManager.init (b :: rest) q (Some shape') true = Raise ValueError /\
  (exists m, BufferManager.init (b :: rest) q (Some shape') false = Ok m /\
             BufferManager.buffers_np m = None) /\
  (Forall (buffer_of_shape shape) rest ->
   exists m views,
     BufferManager.init (b :: rest) q None true = Ok m /\
     BufferManager.buffers_np m = Some views /\
     List.length views = S (List.length rest) /\
     Forall (fun v => nd_shape v = [product (shape_dims shape)]) views).
Proof.
  intros (r & -> & Ht & Hlen) Hval Hne.
  split; [| split].
  - unfold BufferManager.init, BufferManager.rebuild_buffers.
    cbn [BufferManager.buffers_shm BufferManager.rebuild_loop
           BufferManager.buf_shape].
    destruct (shm_as_ndarray_succeeds_iff_size_matches_parts
                (RawArray r) shape' order_C Ht Hval) as [_ Hbad].
    rewrite Hbad; [reflexivity |]. cbn [raw_of]. congruence.
  - eexists. split; reflexivity.
  - intros Hrest.
    assert (Hloop : forall bs, Forall (buffer_of_shape shape) bs ->
               forall self acc,
                 BufferManager.buf_shape self = None ->
                 exists views,
                   BufferManager.rebuild_loop bs self acc
                     = (Ok tt, BufferManager.set_buffers_np self (acc ++ views)) /\
                   List.length views = List.length bs /\
                   Forall (fun v => nd_shape v = [product (shape_dims shape)])
                          views).
    { induction 1 as [| b0 bs (r0 & -> & Ht0 & Hlen0) Hbs IH];
        intros self acc Hshape.
      - exists []. cbn. rewrite app_nil_r. auto.
      - destruct (shm_as_ndarray_unfold (RawArray r0) Ht0) as (dt & _ & Hun).
        destruct (IH self (acc ++ [flat_view r0 dt]) Hshape)
          as (views & Hl & Hn & Hall).
        exists (flat_view r0 dt :: views).
        cbn [BufferManager.rebuild_loop]. rewrite Hshape, (Hun None order_C).
        cbn [raw_of]. rewrite Hl, <- app_assoc. cbn. rewrite Hn.
        repeat split; auto. constructor; [| exact Hall].
        cbn. now rewrite Hlen0. }
    destruct (Hloop (RawArray r :: rest)
                (Forall_cons _ (ex_intro _ r (conj eq_refl (conj Ht Hlen))) Hrest)
                (BufferManager.mk q (RawArray r :: rest) None None) [] eq_refl)
      as (views & Hl & Hn & Hall).
    eexists _, views.
    unfold BufferManager.init, BufferManager.rebuild_buffers.
    cbn [BufferManager.buffers_shm]. rewrite Hl.
    split; [reflexivity |]. split; [reflexivity |]. split; [exact Hn | exact Hall].
Qed.

Lemma manager_shape_is_checked_when_views_are_built_witness :
  buffer_of_shape (ShapeTuple [2; 3]) (RawArray (mkRawArray c_double 6 0)) /\
  valid_shape (ShapeTuple [4; 2]) /\
  BufferManager.init [RawArray (mkRawArray c_double 6 0)] 0
    (Some (ShapeTuple [4; 2])) true = Raise ValueError.
Proof.
  assert (Hb : buffer_of_shape (ShapeTuple [2; 3])
                 (RawArray (mkRawArray c_double 6 0))).
  { eexists. split; [reflexivity |]. split; [| reflexivity].
    vm_compute. discriminate. }
  assert (Hv : valid_shape (ShapeTuple [4; 2])) by reflexivity.
  split; [exact Hb |]. split; [exact Hv |].
  destruct (manager_shape_is_checked_when_views_are_built (ShapeTuple [2; 3])
              (ShapeTuple [4; 2]) (RawArray (mkRawArray c_double 6 0)) [] 0%nat
              Hb Hv) as [H _]; [cbn; lia | exact H].
Defined.

Lemma rebuild_loop_ignores_old_views (bs : list mp_array) :
  forall (self : BufferManager.t) (l acc : list ndarray),
    BufferManager.rebuild_loop bs (BufferManager.set_buffers_np self l) acc
    = BufferManager.rebuild_loop bs self acc.
Proof.
  induction bs as [| b rest IH]; intros self l acc; cbn; [reflexivity |].
  destruct (shm_as_ndarray b (BufferManager.buf_shape self) order_C);
    [apply IH | reflexivity | reflexivity].
Qed.

Lemma rebuild_loop_result (bs : list mp_array) :
  forall (self s : BufferManager.t) (acc : list ndarray) (o : outcome unit),
    BufferManager.rebuild_loop bs self acc = (o, s) ->
    exists l, s = BufferManager.set_buffers_np self l.
Proof.
  induction bs as [| b rest IH]; intros self s acc o H; cbn in H.
  - inversion H. eauto.
  - destruct (shm_as_ndarray b (BufferManager.buf_shape self) order_C);
      [eapply IH; eauto | inversion H; eauto | inversion H; eauto].
Qed.

Lemma dict_rebuild_loop_ignores_old_views (bs : list (sdict mp_array)) :
  forall (self : BufferedDictManager.t) (l acc : list (sdict ndarray)),
    BufferedDictManager.rebuild_loop bs
      (BufferedDictManager.set_buffers_nd self l) acc
    = BufferedDictManager.rebuild_loop bs self acc.
Proof.
  induction bs as [| b rest IH]; intros self l acc; cbn; [reflexivity |].
  destruct (shm_to_nd_dict b NoShape order_C);
    [apply IH | reflexivity | reflexivity].
Qed.

Lemma dict_rebuild_loop_result (bs : list (sdict mp_array)) :
  forall (self s : BufferedDictManager.t) (acc : list (sdict ndarray))
         (o : outcome unit),
    BufferedDictManager.rebuild_loop bs self acc = (o, s) ->
    exists l, s = BufferedDictManager.set_buffers_nd self l.
Proof.
  induction bs as [| b rest IH]; intros self s acc o H; cbn in H.
  - inversion H. eauto.
  - destruct (shm_to_nd_dict b NoShape order_C);
      [eapply IH; eauto | inversion H; eauto | inversion H; eauto].
Qed.

(** X12.  [rebuild_buffers] computes the views from the shared buffers
    and the shape alone: it keeps the queue, the buffers and the shape,
    discards whatever views the manager had, and running it again on
    its own result (as a worker does after the manager has crossed a
    process boundary) gives the same manager.  Both managers. *)
Theorem rebuild_buffers_is_idempotent
        (self s : BufferManager.t) (dself ds : BufferedDictManager.t)
        (o o' : outcome unit) :
  BufferManager.rebuild_buffers self = (o, s) ->
  BufferedDictManager.rebuild_buffers dself = (o', ds) ->
  (BufferManager.rebuild_buffers s = (o, s) /\
   BufferManager.queue s = BufferManager.queue self /\
   BufferManager.buffers_shm s = BufferManager.buffers_shm self /\
   BufferManager.buf_shape s = BufferManager.buf_shape self /\
   forall l, BufferManager.rebuild_buffers (BufferManager.set_buffers_np self l)
             = (o, s)) /\
  (BufferedDictManager.rebuild_buffers ds = (o', ds) /\
   BufferedDictManager.queue ds = BufferedDictManager.queue dself /\
   BufferedDictManager.buffers_shm ds = BufferedDictManager.buffers_shm dself /\
   forall l, BufferedDictManager.rebuild_buffers
               (BufferedDictManager.set_buffers_nd dself l) = (o', ds)).
Proof.
  intros H Hd. split.
  - unfold BufferManager.rebuild_buffers in *.
    destruct (rebuild_loop_result _ _ _ _ _ H) as (l & ->).
    cbn [BufferManager.set_buffers_np BufferManager.buffers_shm
           BufferManager.queue BufferManager.buf_shape].
    assert (Hl : forall l0,
               BufferManager.rebuild_loop (BufferManager.buffers_shm self)
                 (BufferManager.set_buffers_np self l0) []
               = (o, BufferManager.set_buffers_np self l)).
    { intros l0. rewrite rebuild_loop_ignores_old_views. exact H. }
    split; [apply (Hl l) |]. repeat split. exact Hl.
  - unfold BufferedDictManager.rebuild_buffers in *.
    destruct (dict_rebuild_loop_result _ _ _ _ _ Hd) as (l & ->).
    cbn [BufferedDictManager.set_buffers_nd BufferedDictManager.buffers_shm
           BufferedDictManager.queue].
    assert (Hl : forall l0,
               BufferedDictManager.rebuild_loop
                 (BufferedDictManager.buffers_shm dself)
                 (BufferedDictManager.set_buffers_nd dself l0) []
               = (o', BufferedDictManager.set_buffers_nd dself l)).
    { intros l0. rewrite dict_rebuild_loop_ignores_old_views. exact Hd. }
    split; [apply (Hl l) |]. repeat split. exact Hl.
Qed.

Lemma rebuild_buffers_is_idempotent_witness :
  BufferManager.rebuild_buffers
    (BufferManager.mk 0 (BufferManager.buffers_shm sample_manager) None None)
    = (Ok tt, sample_manager) /\
  BufferedDictManager.rebuild_buffers
    (BufferedDictManager.mk 0
       (BufferedDictManager.buffers_shm sample_dict_manager) None)
    = (Ok tt, sample_dict_manager) /\
  BufferManager.rebuild_buffers sample_manager = (Ok tt, sample_manager) /\
  BufferedDictManager.rebuild_buffers sample_dict_manager
    = (Ok tt, sample_dict_manager).
Proof.
  split; [reflexivity |]. split; [reflexivity |].
  destruct (rebuild_buffers_is_idempotent
              (BufferManager.mk 0 (BufferManager.buffers_shm sample_manager)
                 None None) sample_manager
              (BufferedDictManager.mk 0
                 (BufferedDictManager.buffers_shm sample_dict_manager) None)
              sample_dict_manager (Ok tt) (Ok tt) eq_refl eq_refl)
    as ((H1 & _) & (H2 & _)).
  split; [exact H1 | exact H2].
Defined.

(* ================================================================== *)
(** * Every view spans its buffer *)

Lemma known_size_spec (dims : list Z) :
  forall acc s, known_size dims acc = Some s -> s = acc * known_product dims.
Proof.
  unfold known_product.
  induction dims as [| d rest IH]; intros acc s H; cbn in H |- *.
  - inversion H. lia.
  - destruct (d <? 0); cbn [negb].
    + now apply IH.
    + destruct (intp_max <? acc * d); [discriminate |].
      apply IH in H. cbn [product fold_right]. fold (product (filter
        (fun d0 => negb (d0 <? 0)) rest)). lia.
Qed.

Lemma product_resolved (q : Z) (dims : list Z) :
  product (map (fun d => if d <? 0 then q else d) dims)
  = known_product dims * q ^ Z.of_nat (count_unknown dims).
Proof.
  unfold known_product, count_unknown.
  induction dims as [| d rest IH]; [reflexivity |].
  cbn [map filter]. destruct (d <? 0); cbn [negb List.length product fold_right].
  - fold (product (map (fun d0 => if d0 <? 0 then q else d0) rest)).
    rewrite IH, Nat2Z.inj_succ, Z.pow_succ_r by lia. unfold product.
    generalize (q ^ Z.of_nat (List.length (filter (fun d0 => d0 <? 0) rest))).
    generalize (fold_right Z.mul 1 (filter (fun d0 => negb (d0 <? 0)) rest)).
    intros; ring.
  - fold (product (map (fun d0 => if d0 <? 0 then q else d0) rest)).
    rewrite IH. unfold product.
    generalize (q ^ Z.of_nat (List.length (filter (fun d0 => d0 <? 0) rest))).
    generalize (fold_right Z.mul 1 (filter (fun d0 => negb (d0 <? 0)) rest)).
    intros; ring.
Qed.

Lemma product_no_unknown (dims : list Z) :
  count_unknown dims = 0%nat -> product dims = known_product dims.
Proof.
  unfold known_product, count_unknown.
  induction dims as [| d rest IH]; [reflexivity |].
  cbn [filter]. destruct (d <? 0); cbn [negb List.length]; [discriminate |].
  intros H. cbn [product fold_right].
  fold (product rest). fold (product (filter (fun d0 => negb (d0 <? 0)) rest)).
  now rewrite IH.
Qed.

Lemma fix_unknown_dimension_size (dims dims' : list Z) (size : Z) :
  fix_unknown_dimension dims size = Ok dims' ->
  product dims' = size /\ List.length dims' = List.length dims.
Proof.
  unfold fix_unknown_dimension.
  destruct (Nat.leb_spec 2 (count_unknown dims)) as [Hc | Hc]; [discriminate |].
  destruct (known_size dims 1) as [s |] eqn:Hs; [| discriminate].
  apply known_size_spec in Hs. rewrite Z.mul_1_l in Hs.
  destruct (Nat.eqb_spec (count_unknown dims) 1) as [H1 | H1].
  - destruct (Z.eqb_spec s 0) as [H0 | H0]; cbn [orb]; [discriminate |].
    destruct (Z.eqb_spec (size mod s) 0) as [Hm | Hm]; cbn [negb];
      [| discriminate].
    intros H. inversion H; subst dims'. split; [| apply length_map].
    rewrite product_resolved, H1, <- Hs.
    change (Z.of_nat 1) with 1. rewrite Z.pow_1_r.
    rewrite (Z.div_mod size s H0) at 2. rewrite Hm. lia.
  - destruct (Z.eqb_spec size s) as [He | He]; [| discriminate].
    intros H. inversion H; subst dims'. split; [| reflexivity].
    rewrite product_no_unknown; [congruence | lia].
Qed.

Lemma shm_as_ndarray_registered (a : mp_array) (shape : option py_shape)
      (order : np_order) (v : ndarray) :
  shm_as_ndarray a shape order = Ok v ->
  registered_ctype (arr_type (raw_of a)).
Proof.
  unfold shm_as_ndarray, registered_ctype, dict_getitem.
  destruct a as [r | r]; cbn [has_type_attr negb get_obj obind type_attr raw_of];
    destruct (dict_get typecode_or_type_eqb _ctypes_to_numpy
                (CType (arr_type r))); cbn [obind]; discriminate.
Qed.

Lemma shm_as_ndarray_spans
        (a : mp_array) (shape : option py_shape) (order : np_order)
        (v : ndarray) :
  shm_as_ndarray a shape order = Ok v ->
  dict_get typecode_or_type_eqb _ctypes_to_numpy (CType (arr_type (raw_of a)))
    = Some (nd_dtype v) /\
  nd_block v = arr_block (raw_of a) /\
  nd_offset v = 0 /\
  product (nd_shape v) = arr_len (raw_of a) /\
  List.length (nd_strides v) = List.length (nd_shape v) /\
  (shape = None -> nd_shape v = [arr_len (raw_of a)]) /\
  (forall s, shape = Some s ->
             List.length (nd_shape v) = List.length (shape_dims s)).
Proof.
  intros H.
  pose proof (shm_as_ndarray_registered a shape order v H) as Hreg.
  destruct (shm_as_ndarray_unfold a Hreg) as (dtype & Hd & Hun).
  rewrite (Hun shape order) in H.
  destruct shape as [s |].
  - unfold reshape in H.
    destruct (intp_converter (shape_dims s)) as [dims0 | e |] eqn:Hconv;
      cbn [obind] in H; try discriminate.
    apply intp_converter_Ok in Hconv as (-> & _ & _).
    destruct (fix_unknown_dimension (shape_dims s)
                (nd_size (flat_view (raw_of a) dtype))) as [dims | e |] eqn:Hfix;
      cbn [obind] in H; try discriminate.
    apply fix_unknown_dimension_size in Hfix as [Hprod Hlen].
    inversion H; subst v. cbn [nd_dtype nd_block nd_offset nd_shape nd_strides].
    unfold nd_size, flat_view in Hprod. cbn [nd_shape product fold_right] in Hprod.
    repeat split; auto; try lia.
    + destruct order; [apply c_strides_length | apply f_strides_length].
    + discriminate.
    + intros s0 Hs. inversion Hs; subst. exact Hlen.
  - inversion H; subst v. cbn. repeat split; auto; try lia.
    intros s Hs. discriminate.
Qed.

(** X13.  Whatever shape is asked for, with or without a dimension to
    infer, a view [shm_as_ndarray] returns spans exactly its buffer: the
    buffer has a registered element type, the view has the dtype the
    table gives for it, starts at the first element of the buffer's
    block, has one stride per axis, and the product of its dimensions
    is the buffer's element count. *)
Theorem every_view_spans_exactly_its_buffer
        (a : mp_array) (shape : option py_shape) (order : np_order)
        (v : ndarray) :
  shm_as_ndarray a shape order = Ok v ->
  dict_get typecode_or_type_eqb _ctypes_to_numpy (CType (arr_type (raw_of a)))
    = Some (nd_dtype v) /\
  nd_block v = arr_block (raw_of a) /\
  nd_offset v = 0 /\
  product (nd_shape v) = arr_len (raw_of a) /\
  List.length (nd_strides v) = List.length (nd_shape v) /\
  (shape = None -> nd_shape v = [arr_len (raw_of a)]) /\
  (forall s, shape = Some s ->
             List.length (nd_shape v) = List.length (shape_dims s)).
Proof. apply shm_as_ndarray_spans. Qed.

Lemma every_view_spans_exactly_its_buffer_witness :
  exists v,
    shm_as_ndarray (SynchronizedArray (mkRawArray c_float 12 3))
      (Some (ShapeTuple [2; -1; 3])) order_F = Ok v /\
    nd_block v = 3%nat /\ product (nd_shape v) = 12.
Proof.
  eexists. split; [reflexivity |].
  destruct (every_view_spans_exactly_its_buffer
              (SynchronizedArray (mkRawArray c_float 12 3))
              (Some (ShapeTuple [2; -1; 3])) order_F _ eq_refl)
    as (_ & Hb & _ & Hp & _).
  split; [exact Hb | exact Hp].
Defined.

Lemma shm_as_ndarray_given_shape (a : mp_array) (s : py_shape)
      (order : np_order) (v : ndarray) :
  shm_as_ndarray a (Some s) order = Ok v ->
  count_unknown (shape_dims s) = 0%nat ->
  nd_shape v = shape_dims s.
Proof.
  intros H Hc.
  pose proof (shm_as_ndarray_registered a (Some s) order v H) as Hreg.
  destruct (shm_as_ndarray_unfold a Hreg) as (dtype & _ & Hun).
  rewrite (Hun (Some s) order) in H. unfold reshape in H.
  destruct (intp_converter (shape_dims s)) as [dims0 | e |] eqn:Hconv;
    cbn [obind] in H; try discriminate.
  apply intp_converter_Ok in Hconv as (-> & _ & _).
  unfold fix_unknown_dimension in H.
  rewrite Hc in H. cbn [Nat.leb Nat.eqb] in H.
  destruct (known_size (shape_dims s) 1); cbn [obind] in H; [| discriminate].
  destruct (nd_size (flat_view (raw_of a) dtype) =? z); cbn [obind] in H;
    [| discriminate].
  inversion H. reflexivity.
Qed.

(* ================================================================== *)
(** * Converting records of buffers *)

Lemma ofor_each_ext {A S} (f g : A -> S -> outcome S) (xs : list A) :
  (forall x s, f x s = g x s) ->
  forall s, ofor_each xs f s = ofor_each xs g s.
Proof.
  intros Hfg. induction xs as [| x rest IH]; intros s; cbn; [reflexivity |].
  rewrite Hfg. destruct (g x s); cbn; auto.
Qed.

Lemma convert_loop (f : string -> mp_array -> outcome ndarray)
      (items : sdict mp_array) :
  forall (acc res : sdict ndarray),
    NoDup (dict_keys acc ++ dict_keys items) ->
    ofor_each items
      (fun kv nd_dict =>
         a <-? f (fst kv) (snd kv) ;; Ok (sset nd_dict (fst kv) a)) acc = Ok res ->
    exists nd,
      res = acc ++ nd /\
      Forall2 (fun kb kn => fst kn = fst kb /\
                            f (fst kb) (snd kb) = Ok (snd kn)) items nd.
Proof.
  induction items as [| [k b] rest IH]; intros acc res Hnd H.
  - cbn in H. inversion H; subst. exists []. rewrite app_nil_r. auto.
  - cbn [ofor_each fst snd] in H.
    destruct (f k b) as [a | e |] eqn:Hf; cbn [obind] in H; try discriminate.
    cbn [dict_keys map fst] in Hnd.
    assert (Hfresh : ~ In k (dict_keys acc)).
    { apply NoDup_remove_2 in Hnd. intros Hin. apply Hnd.
      apply in_or_app. now left. }
    rewrite (sset_fresh acc k a Hfresh) in H.
    destruct (IH (acc ++ [(k, a)]) res) as (nd & Hres & Hall).
    { unfold dict_keys in *. rewrite map_app, <- app_assoc. exact Hnd. }
    { exact H. }
    exists ((k, a) :: nd). rewrite Hres, <- app_assoc. split; [reflexivity |].
    constructor; [| exact Hall]. split; [reflexivity | exact Hf].
Qed.

Lemma shm_to_nd_dict_loop (shape : shape_arg) (order : np_order)
      (items : sdict mp_array) :
  forall (ts : option py_shape) (acc : sdict ndarray)
         (r : option py_shape * sdict ndarray),
    NoDup (dict_keys acc ++ dict_keys items) ->
    ofor_each items
      (fun kv st =>
         let '(k, v) := kv in
         let '(to_shape, nd_dict) := st in
         to_shape <-? match shape with
                      | ShapeDict d => sgetitem d k
                      | _ => Ok to_shape
                      end ;;
         a <-? shm_as_ndarray v to_shape order ;;
         Ok (to_shape, sset nd_dict k a)) (ts, acc) = Ok r ->
    exists nd,
      snd r = acc ++ nd /\
      Forall2 (fun kb kn =>
                 fst kn = fst kb /\
                 exists ts',
                   shm_as_ndarray (snd kb) ts' order = Ok (snd kn) /\
                   match shape with
                   | ShapeDict d => sget d (fst kb) = Some ts'
                   | _ => ts' = ts
                   end) items nd.
Proof.
  induction items as [| [k b] rest IH]; intros ts acc r Hnd H.
  - cbn in H. inversion H; subst. exists []. cbn. rewrite app_nil_r. auto.
  - cbn [ofor_each] in H.
    assert (Hts : exists ts',
               match shape with
               | ShapeDict d => sgetitem d k
               | _ => Ok ts
               end = Ok ts' /\
               match shape with
               | ShapeDict d => sget d k = Some ts'
               | _ => ts' = ts
               end).
    { destruct shape as [| s | d]; try (exists ts; auto; fail).
      unfold sgetitem, dict_getitem, sget in *.
      destruct (dict_get String.eqb d k) as [x |]; cbn [obind] in H;
        [eauto | discriminate]. }
    destruct Hts as (ts' & Hts & Hsrc). rewrite Hts in H. cbn [obind] in H.
    destruct (shm_as_ndarray b ts' order) as [a | e |] eqn:Ha;
      cbn [obind] in H; try discriminate.
    cbn [dict_keys map fst] in Hnd.
    assert (Hfresh : ~ In k (dict_keys acc)).
    { apply NoDup_remove_2 in Hnd. intros Hin. apply Hnd.
      apply in_or_app. now left. }
    rewrite (sset_fresh acc k a Hfresh) in H.
    destruct (IH ts' (acc ++ [(k, a)]) r) as (nd & Hres & Hall).
    { unfold dict_keys in *. rewrite map_app, <- app_assoc. exact Hnd. }
    { exact H. }
    exists ((k, a) :: nd). rewrite Hres, <- app_assoc. split; [reflexivity |].
    constructor.
    + split; [reflexivity |]. exists ts'. split; [exact Ha | exact Hsrc].
    + eapply Forall2_impl; [| exact Hall].
      intros kb kn (Hk & ts2 & Hv & Hsrc2). split; [exact Hk |].
      exists ts2. split; [exact Hv |].
      destruct shape; auto; congruence.
Qed.

(** X14.  Whenever [shm_to_nd_dict] (without shape, with a common shape
    or with a dictionary of shapes) or [shm_to_nd_dict_inputs] succeeds
    on a record of buffers, the result has the record's field names in
    the same order, and the view of each field spans the buffer of that
    field.  With a dictionary of shapes, success means every field has
    an entry in it; for [shm_to_nd_dict_inputs], a field whose entry is
    [None] or [()] has a buffer of exactly one element. *)
Theorem converted_record_spans_the_buffers_field_by_field
        (buffers : sdict mp_array) (shape : shape_arg)
        (shapes : sdict (option py_shape)) (order : np_order) :
  NoDup (dict_keys buffers) ->
  (forall nd,
     shm_to_nd_dict buffers shape order = Ok nd ->
     Forall2 field_spans buffers nd /\
     dict_keys nd = dict_keys buffers /\
     forall d, shape = ShapeDict d ->
               forall k, In k (dict_keys buffers) -> sget d k <> None) /\
  (forall nd,
     shm_to_nd_dict_inputs buffers shapes order = Ok nd ->
     Forall2 field_spans buffers nd /\
     dict_keys nd = dict_keys buffers /\
     forall k b, In (k, b) buffers ->
       exists s, sget shapes k = Some s /\
                 (s = None \/ s = Some (ShapeTuple []) ->
                  arr_len (raw_of b) = 1)).
Proof.
  intros Hnd.
  assert (Hkeys : forall (R : string * mp_array -> string * ndarray -> Prop)
                         (l1 : sdict mp_array) (l2 : sdict ndarray),
             Forall2 R l1 l2 -> (forall a b, R a b -> fst b = fst a) ->
             dict_keys l2 = dict_keys l1).
  { intros R l1 l2 H HR. unfold dict_keys.
    induction H as [| a b r1 r2 Hab Hrest IH]; cbn [map]; [reflexivity |].
    now rewrite (HR _ _ Hab), IH. }
  split.
  - intros nd H. unfold shm_to_nd_dict, dict_items in H.
    match type of H with
    | obind ?run _ = _ => destruct run as [r | e |] eqn:Hrun
    end; cbn [obind] in H; try discriminate.
    inversion H; subst nd.
    apply shm_to_nd_dict_loop in Hrun; [| exact Hnd].
    destruct Hrun as (nd & Hres & Hall). cbn [app] in Hres. rewrite Hres.
    assert (Hspans : Forall2 field_spans buffers nd).
    { eapply Forall2_impl; [| exact Hall].
      intros kb kn (Hk & ts' & Hv & _).
      destruct (shm_as_ndarray_spans _ _ _ _ Hv) as (_ & Hb & Ho & Hp & _).
      split; auto. }
    split; [exact Hspans |].
    split; [apply (Hkeys _ _ _ Hspans); intros a b Hab; apply Hab |].
    intros d -> k Hk.
    apply in_map_iff in Hk as ([k' b] & Hk' & Hin). cbn in Hk'. subst k'.
    clear - Hall Hin. induction Hall as [| kb kn r1 r2 Hab Hrest IH];
      [contradiction |].
    destruct Hin as [-> | Hin]; [| now apply IH].
    destruct Hab as (_ & ts' & _ & Hsrc). cbn in Hsrc. congruence.
  - intros nd H. unfold shm_to_nd_dict_inputs, dict_items in H.
    set (f := fun (k : string) (v : mp_array) =>
                s <-? sgetitem shapes k ;;
                scalar <-? is_scalar_shape s ;;
                if scalar then shm_as_ndarray v (Some (ShapeTuple [1])) order
                else shm_as_ndarray v s order).
    rewrite (ofor_each_ext _
               (fun kv nd_dict =>
                  a <-? f (fst kv) (snd kv) ;; Ok (sset nd_dict (fst kv) a)))
      in H.
    2:{ intros [k v] s. unfold f. cbn [fst snd].
        destruct (sgetitem shapes k) as [x | e |]; cbn [obind]; try reflexivity.
        destruct (is_scalar_shape x) as [sc | e |]; cbn [obind]; try reflexivity.
        destruct sc; reflexivity. }
    apply convert_loop in H; [| exact Hnd].
    destruct H as (nd' & Hres & Hall). cbn [app] in Hres. subst nd'.
    assert (Hspans : Forall2 field_spans buffers nd).
    { eapply Forall2_impl; [| exact Hall].
      intros [k b] kn (Hk & Hf). unfold f in Hf. cbn [fst snd] in *.
      destruct (sgetitem shapes k) as [x | e |]; cbn [obind] in Hf;
        try discriminate.
      destruct (is_scalar_shape x) as [sc | e |]; cbn [obind] in Hf;
        try discriminate.
      destruct sc;
        destruct (shm_as_ndarray_spans _ _ _ _ Hf) as (_ & Hb & Ho & Hp & _);
        split; auto. }
    split; [exact Hspans |].
    split; [apply (Hkeys _ _ _ Hspans); intros a b Hab; apply Hab |].
    intros k b Hin.
    clear - Hall Hin. induction Hall as [| kb kn r1 r2 Hab Hrest IH];
      [contradiction |].
    destruct Hin as [-> | Hin]; [| now apply IH].
    destruct Hab as (_ & Hf). unfold f in Hf. cbn [fst snd] in Hf.
    unfold sgetitem, dict_getitem in Hf. fold (sget shapes k) in Hf.
    destruct (sget shapes k) as [s |]; cbn [obind] in Hf; [| discriminate].
    exists s. split; [reflexivity |].
    intros Hs.
    assert (Hsc : is_scalar_shape s = Ok true) by (destruct Hs as [-> | ->]; reflexivity).
    rewrite Hsc in Hf. cbn [obind] in Hf.
    destruct (shm_as_ndarray_spans _ _ _ _ Hf) as (_ & _ & _ & Hp & _).
    rewrite (shm_as_ndarray_given_shape _ _ _ _ Hf eq_refl) in Hp.
    cbn in Hp. lia.
Qed.

Lemma converted_record_spans_the_buffers_field_by_field_witness :
  NoDup (dict_keys [("x"%string, RawArray (mkRawArray c_double 1 0));
                    ("y"%string, RawArray (mkRawArray c_double 10 1))]) /\
  exists nd,
    shm_to_nd_dict_inputs
      [("x"%string, RawArray (mkRawArray c_double 1 0));
       ("y"%string, RawArray (mkRawArray c_double 10 1))]
      sample_shape_map order_C = Ok nd /\
    dict_keys nd = ["x"; "y"]%string.
Proof.
  assert (Hk : NoDup (dict_keys [("x"%string, RawArray (mkRawArray c_double 1 0));
                                 ("y"%string, RawArray (mkRawArray c_double 10 1))]))
    by (repeat constructor; cbn; intuition discriminate).
  split; [exact Hk |].
  destruct (converted_record_spans_the_buffers_field_by_field
              [("x"%string, RawArray (mkRawArray c_double 1 0));
               ("y"%string, RawArray (mkRawArray c_double 10 1))]
              NoShape sample_shape_map order_C Hk) as [_ H].
  eexists. split; [reflexivity |].
  destruct (H _ eq_refl) as (_ & Hkeys & _). exact Hkeys.
Defined.

(* ================================================================== *)
(** * Records of one common shape *)

Lemma sset_keys_In_iff {V} (d : sdict V) (k x : string) (v : V) :
  In x (dict_keys (sset d k v)) <-> x = k \/ In x (dict_keys d).
Proof.
  split; [apply sset_keys_In |].
  induction d as [| [k' v'] rest IH]; cbn.
  - intros [-> | []]. now left.
  - destruct (String.eqb_spec k' k) as [-> | Hne]; cbn.
    + intros [-> | [<- | H]]; auto.
    + intros [-> | [<- | H]]; auto.
Qed.

Lemma sset_keys_eq {V W} (d : sdict V) (d' : sdict W) (k : string)
      (v : V) (v' : W) :
  dict_keys d = dict_keys d' ->
  dict_keys (sset d k v) = dict_keys (sset d' k v').
Proof.
  revert d'. induction d as [| [k1 v1] rest IH]; intros [| [k2 v2] rest'] H;
    cbn in H; try discriminate; [reflexivity |].
  injection H as Hk Hrest. subst k2. cbn.
  destruct (String.eqb k1 k); cbn; [now rewrite Hrest |].
  f_equal. now apply IH.
Qed.

Section CommonShape.
Variable shape : py_shape.
Variable dtype : np_dtype.
Variable order : np_order.
Hypothesis Hreg : registered dtype.
Hypothesis Hval : valid_shape shape.

Let shaped (b : mp_array) : ndarray :=
  mkArray (arr_block (raw_of b)) dtype 0 (shape_dims shape)
          (strides_of order (shape_dims shape)).

Lemma shm_as_ndarray_buffer_of (b : mp_array) :
  buffer_of shape dtype b ->
  shm_as_ndarray b (Some shape) order = Ok (shaped b).
Proof.
  intros (r & -> & Ht & Hlen).
  assert (Hrc : registered_ctype (arr_type r)).
  { unfold registered_ctype. rewrite Ht. discriminate. }
  destruct (shm_as_ndarray_view r shape order Hrc Hval Hlen) as (dt & Hd & Hv).
  rewrite Ht in Hd. inversion Hd; subst dt. exact Hv.
Qed.

Lemma create_shm_dict_loop (keys : list string) :
  forall (bufs : sdict mp_array) (shapes : sdict (option py_shape)) (w : world),
    dict_keys shapes = dict_keys bufs ->
    NoDup (dict_keys bufs) ->
    Forall (fun kv => buffer_of shape dtype (snd kv)) bufs ->
    Forall (fun kv => snd kv = Some shape) shapes ->
    exists bufs' shapes' w',
      for_each keys
        (fun k st =>
           b <- init_shm_ndarray shape dtype ;;
           ret (sset (fst st) k b, sset (snd st) k (Some shape)))
        (bufs, shapes) w = (Ok (bufs', shapes'), w') /\
      dict_keys shapes' = dict_keys bufs' /\
      NoDup (dict_keys bufs') /\
      Forall (fun kv => buffer_of shape dtype (snd kv)) bufs' /\
      Forall (fun kv => snd kv = Some shape) shapes' /\
      (forall k, In k (dict_keys bufs') <-> In k (dict_keys bufs) \/ In k keys) /\
      next_shm w' = (next_shm w + List.length keys)%nat.
Proof.
  induction keys as [| k rest IH]; intros bufs shapes w Hk Hnd Hb Hs.
  - exists bufs, shapes, w. cbn. rewrite Nat.add_0_r.
    repeat split; auto. intros [H | []]; exact H.
  - destruct (init_shm_ndarray_fresh shape dtype Hreg Hval w)
      as (b & w1 & Hinit & Hbuf & _ & Hn1 & _).
    destruct (IH (sset bufs k b) (sset shapes k (Some shape)) w1)
      as (bufs' & shapes' & w' & Hloop & Hk' & Hnd' & Hb' & Hs' & Hin & Hn').
    { now apply sset_keys_eq. }
    { now apply sset_keys_NoDup. }
    { now apply (sset_Forall (buffer_of shape dtype)). }
    { now apply (sset_Forall (fun s => s = Some shape)). }
    exists bufs', shapes', w'.
    cbn [for_each]. unfold bind at 1. unfold bind at 1. rewrite Hinit.
    unfold ret at 1. cbn [fst snd]. rewrite Hloop.
    repeat split; auto.
    + intros H. apply Hin in H as [H | H]; [| right; now right].
      apply sset_keys_In_iff in H as [-> | H]; [right; now left | now left].
    + intros [H | [<- | H]]; apply Hin.
      * left. apply sset_keys_In_iff. now right.
      * left. apply sset_keys_In_iff. now left.
      * now right.
    + rewrite Hn', Hn1. cbn [List.length]. lia.
Qed.

Lemma shm_to_nd_dict_shaped (arg : shape_arg) (items : sdict mp_array) :
  (forall k b, In (k, b) items ->
               buffer_of shape dtype b /\
               match arg with
               | ShapeDict d => sget d k = Some (Some shape)
               | CommonShape s => s = shape
               | NoShape => False
               end) ->
  forall (ts : option py_shape) (acc : sdict ndarray),
    (match arg with CommonShape _ => ts = Some shape | _ => True end) ->
    NoDup (dict_keys acc ++ dict_keys items) ->
    exists ts',
      ofor_each items
        (fun kv st =>
           let '(k, v) := kv in
           let '(to_shape, nd_dict) := st in
           to_shape <-? match arg with
                        | ShapeDict d => sgetitem d k
                        | _ => Ok to_shape
                        end ;;
           a <-? shm_as_ndarray v to_shape order ;;
           Ok (to_shape, sset nd_dict k a)) (ts, acc)
      = Ok (ts', acc ++ map (fun kb => (fst kb, shaped (snd kb))) items).
Proof.
  induction items as [| [k b] rest IH]; intros Hall ts acc Hts Hnd.
  - exists ts. cbn. now rewrite app_nil_r.
  - destruct (Hall k b (or_introl eq_refl)) as [Hb Harg].
    cbn [dict_keys map fst] in Hnd.
    assert (Hfresh : ~ In k (dict_keys acc)).
    { apply NoDup_remove_2 in Hnd. intros Hin. apply Hnd.
      apply in_or_app. now left. }
    assert (Hres : match arg with
                   | ShapeDict d => sgetitem d k
                   | _ => Ok ts
                   end = Ok (Some shape)).
    { destruct arg as [| s | d]; [contradiction | now rewrite Hts |].
      unfold sgetitem, dict_getitem. fold (sget d k). now rewrite Harg. }
    destruct (IH (fun k' b' H => Hall k' b' (or_intror H)) (Some shape)
                (acc ++ [(k, shaped b)])) as (ts' & Hloop).
    { destruct arg; auto. }
    { unfold dict_keys in *. rewrite map_app, <- app_assoc. exact Hnd. }
    exists ts'. cbn [ofor_each]. rewrite Hres. cbn [obind].
    rewrite (shm_as_ndarray_buffer_of b Hb). cbn [obind].
    rewrite (sset_fresh acc k (shaped b) Hfresh), Hloop, <- app_assoc.
    reflexivity.
Qed.
End CommonShape.

(** X15.  [create_shm_dict] allocates one buffer of the common shape per
    name (a repeated name keeps a single entry) and records that shape
    under every name.  Converting the buffers back with
    [shm_to_nd_dict] gives the same views whether it is handed the
    recorded dictionary of shapes or the common shape itself: one view
    per name, each of the requested shape and dtype. *)
Theorem create_shm_dict_round_trips_through_shm_to_nd_dict
        (keys : list string) (shape : py_shape) (dtype : np_dtype)
        (order : np_order) (w : world) :
  registered dtype -> valid_shape shape ->
  exists bufs shapes w' nd,
    create_shm_dict keys shape dtype w = (Ok (bufs, shapes), w') /\
    NoDup (dict_keys bufs) /\
    (forall k, In k (dict_keys bufs) <-> In k keys) /\
    (forall k, In k keys -> sget shapes k = Some (Some shape)) /\
    shm_to_nd_dict bufs (ShapeDict shapes) order = Ok nd /\
    shm_to_nd_dict bufs (CommonShape shape) order = Ok nd /\
    dict_keys nd = dict_keys bufs /\
    forall k v, sget nd k = Some v ->
                nd_shape v = shape_dims shape /\ nd_dtype v = dtype /\
                exists b, sget bufs k = Some b /\
                          nd_block v = arr_block (raw_of b).
Proof.
  intros Hreg Hval.
  destruct (create_shm_dict_loop shape dtype Hreg Hval keys [] [] w eq_refl
              (NoDup_nil _) (Forall_nil _) (Forall_nil _))
    as (bufs & shapes & w' & Hloop & Hk & Hnd & Hb & Hs & Hin & _).
  assert (Hshapes : forall k, In k (dict_keys bufs) ->
                              sget shapes k = Some (Some shape)).
  { intros k Hkin. rewrite <- Hk in Hkin.
    clear - Hs Hkin. induction Hs as [| [k' s] rest Hhead Hrest IH];
      [contradiction |].
    cbn in Hhead, Hkin |- *. subst s.
    destruct (String.eqb_spec k' k) as [-> | Hne]; [reflexivity |].
    destruct Hkin as [-> | Hkin]; [contradiction | now apply IH]. }
  assert (Hitems : forall arg,
             (match arg with
              | ShapeDict d => d = shapes
              | CommonShape s => s = shape
              | NoShape => False
              end) ->
             forall k b, In (k, b) bufs ->
               buffer_of shape dtype b /\
               match arg with
               | ShapeDict d => sget d k = Some (Some shape)
               | CommonShape s => s = shape
               | NoShape => False
               end).
  { intros arg Harg k b Hkb. split.
    - rewrite Forall_forall in Hb. exact (Hb (k, b) Hkb).
    - destruct arg as [| s | d]; auto. subst d. apply Hshapes.
      apply in_map_iff. exists (k, b). auto. }
  destruct (shm_to_nd_dict_shaped shape dtype order Hval (ShapeDict shapes) bufs
              (Hitems (ShapeDict shapes) eq_refl) None [] I) as (ts1 & H1).
  { cbn. exact Hnd. }
  destruct (shm_to_nd_dict_shaped shape dtype order Hval (CommonShape shape) bufs
              (Hitems (CommonShape shape) eq_refl) (Some shape) [] eq_refl)
    as (ts2 & H2).
  { cbn. exact Hnd. }
  exists bufs, shapes, w',
    (map (fun kb => (fst kb,
                     mkArray (arr_block (raw_of (snd kb))) dtype 0
                       (shape_dims shape) (strides_of order (shape_dims shape))))
         bufs).
  split.
  { unfold create_shm_dict. unfold bind at 1.
    unfold sdict, pydict in *. rewrite Hloop. reflexivity. }
  split; [exact Hnd |].
  split; [intros k; rewrite Hin; cbn; intuition |].
  split; [intros k Hkin; apply Hshapes, Hin; now right |].
  split; [unfold shm_to_nd_dict, dict_items; rewrite H1; reflexivity |].
  split; [unfold shm_to_nd_dict, dict_items; rewrite H2; reflexivity |].
  split; [unfold dict_keys; now rewrite map_map |].
  intros k v Hv.
  apply sget_In in Hv. apply in_map_iff in Hv as ([k' b] & Heq & Hkb).
  cbn in Heq. inversion Heq; subst. cbn.
  repeat split. exists b. split; [| reflexivity].
  now apply sget_NoDup_In.
Qed.

Lemma create_shm_dict_round_trips_through_shm_to_nd_dict_witness :
  registered float32 /\ valid_shape (ShapeTuple [2; 3]) /\
  exists bufs shapes w' nd v,
    create_shm_dict ["p"; "q"; "p"]%string (ShapeTuple [2; 3]) float32 empty_world
      = (Ok (bufs, shapes), w') /\
    dict_keys bufs = ["p"; "q"]%string /\
    shm_to_nd_dict bufs (ShapeDict shapes) order_C = Ok nd /\
    sget nd "q"%string = Some v /\ nd_shape v = [2; 3].
Proof.
  assert (Hr : registered float32) by (vm_compute; discriminate).
  assert (Hv : valid_shape (ShapeTuple [2; 3])) by reflexivity.
  split; [exact Hr |]. split; [exact Hv |].
  destruct (create_shm_dict_round_trips_through_shm_to_nd_dict
              ["p"; "q"; "p"]%string (ShapeTuple [2; 3]) float32 order_C
              empty_world Hr Hv)
    as (bufs & shapes & w' & nd & Hc & _ & _ & _ & Hnd & _ & Hkeys & Hviews).
  vm_compute in Hc. inversion Hc; subst bufs shapes w'.
  vm_compute in Hnd. injection Hnd as Hnd. subst nd.
  eexists _, _, _, _, _. split; [vm_compute; reflexivity |].
  split; [reflexivity |]. split; [vm_compute; reflexivity |].
  split; [reflexivity |].
  destruct (Hviews "q"%string _ eq_refl) as (Hshape & _). exact Hshape.
Defined.

(* ================================================================== *)
(** * Lengths outside the allocated range *)

Lemma slice_loop (ix : py_index) (g : ndarray -> ndarray)
      (fields : sdict ndarray) :
  (forall k v, In (k, v) fields -> nd_getitem v ix = Ok (g v)) ->
  forall acc : sdict ndarray,
    NoDup (dict_keys (acc ++ fields)) ->
    ofor_each fields
      (fun kv buffers =>
         let '(k, v) := kv in
         s <-? nd_getitem v ix ;;
         Ok (sset buffers k s)) acc
    = Ok (acc ++ map (fun kv => (fst kv, g (snd kv))) fields).
Proof.
  induction fields as [| [k v] rest IH]; intros Hall acc Hnd.
  - cbn. now rewrite app_nil_r.
  - cbn [ofor_each]. rewrite (Hall k v (or_introl eq_refl)).
    cbn [obind map fst snd].
    unfold dict_keys in Hnd. rewrite map_app in Hnd. cbn [map fst] in Hnd.
    rewrite sset_fresh.
    + rewrite (IH (fun k' v' Hin => Hall k' v' (or_intror Hin))
                 (acc ++ [(k, g v)])).
      * now rewrite <- app_assoc.
      * unfold dict_keys. rewrite map_app, map_app, <- app_assoc. exact Hnd.
    + apply NoDup_remove_2 in Hnd. intros Hin. apply Hnd.
      apply in_or_app. now left.
Qed.

Lemma nd_getitem_clipped (v : ndarray) (L : Z) :
  has_leading_axis v -> 0 <= leading_len v ->
  nd_getitem v (IdxSlice (Some 0) (Some L))
  = Ok (truncated v (clip_len (leading_len v) L)).
Proof.
  intros Hax Hn.
  destruct (nd_getitem_leading_slice v L Hax)
    as (n & sh & st & str & Hsh & Hst & Hget).
  rewrite Hget. unfold truncated, leading_len, clip_len in *.
  rewrite Hsh, Hst in *. cbn [hd tl] in *. unfold slice_bound.
  destruct (Z.ltb_spec 0 0); [lia |].
  replace (Z.min 0 n) with 0 by lia.
  match goal with
  | |- context [(if ?c then 0 else 0) * st] =>
      replace ((if c then 0 else 0) * st) with 0 by (destruct c; lia)
  end.
  rewrite Z.add_0_r, Z.sub_0_r.
  destruct (Z.ltb_spec L 0).
  - replace (Z.max 0 (Z.max (L + n) 0)) with (Z.max (L + n) 0) by lia.
    reflexivity.
  - replace (Z.max 0 (Z.min L n)) with (Z.min L n) by lia. reflexivity.
Qed.

(** X16.  [BufferedDictManager.map_buffer] never rejects a length: on a
    manager whose views were built, any integer [L] gives a record of
    the same fields where each view is the slice [v[0:L]] on the same
    block, with Python's clipping.  A length beyond the allocated one
    returns the full view unchanged, and a negative length counts from
    the end. *)
Theorem dict_map_buffer_clips_any_length
        (self d : BufferedDictManager.t) (nds : list (sdict ndarray))
        (fields : sdict ndarray) (id : Z) (L : Z) :
  BufferedDictManager.rebuild_buffers self = (Ok tt, d) ->
  BufferedDictManager.buffers_nd d = Some nds ->
  list_getitem nds id = Ok fields ->
  (forall k v, In (k, v) fields -> 0 <= leading_len v) ->
  exists out,
    BufferedDictManager.map_buffer d id (Some L) = Ok out /\
    dict_keys out = dict_keys fields /\
    forall k v, sget fields k = Some v ->
      exists v',
        sget out k = Some v' /\
        nd_block v' = nd_block v /\
        nd_offset v' = nd_offset v /\
        nd_len v' = Ok (if L <? 0 then Z.max (L + leading_len v) 0
                        else Z.min L (leading_len v)) /\
        (leading_len v <= L -> v' = v).
Proof.
  intros Hbuilt Hnd Hget Hlens.
  destruct (dict_rebuild_loop_well_formed self d
              (BufferedDictManager.buffers_shm self) [] (Forall_nil _) Hbuilt)
    as (nds' & Hnd' & Hwf).
  rewrite Hnd in Hnd'. inversion Hnd'; subst nds'.
  rewrite Forall_forall in Hwf.
  destruct (Hwf fields (list_getitem_In nds id fields Hget)) as [Hkeys Hax].
  rewrite Forall_forall in Hax.
  exists (map (fun kv => (fst kv,
                          truncated (snd kv) (clip_len (leading_len (snd kv)) L)))
              fields).
  split.
  { unfold BufferedDictManager.map_buffer, BufferedDictManager.get_buffers_nd.
    rewrite Hnd. cbn [obind]. rewrite Hget. cbn [obind]. unfold dict_items.
    rewrite (slice_loop (IdxSlice (Some 0) (Some L))
               (fun v => truncated v (clip_len (leading_len v) L)) fields);
      [reflexivity | | exact Hkeys].
    intros k v Hin. apply nd_getitem_clipped;
      [exact (Hax (k, v) Hin) | exact (Hlens k v Hin)]. }
  split.
  { unfold dict_keys. rewrite map_map. reflexivity. }
  intros k v Hk.
  exists (truncated v (clip_len (leading_len v) L)).
  rewrite (sget_map (fun v => truncated v (clip_len (leading_len v) L))), Hk.
  pose proof (sget_In fields k v Hk) as Hin.
  split; [reflexivity |]. split; [reflexivity |]. split; [reflexivity |].
  split; [reflexivity |].
  intros Hover. destruct (Hax (k, v) Hin) as [Hsh _]. cbn [snd] in Hsh.
  pose proof (Hlens k v Hin) as Hn.
  unfold truncated, clip_len, leading_len in *.
  destruct v as [blk dt off sh str]. cbn [nd_shape nd_block nd_dtype nd_offset
                                           nd_strides] in *.
  destruct sh as [| n sh']; [contradiction |]. cbn [hd tl] in *.
  destruct (Z.ltb_spec L 0); [lia |].
  replace (Z.min L n) with n by lia. reflexivity.
Qed.

Lemma dict_map_buffer_clips_any_length_witness :
  BufferedDictManager.rebuild_buffers sample_dict_manager
    = (Ok tt, sample_dict_manager) /\
  exists out1 out2 v1 v2,
    BufferedDictManager.map_buffer sample_dict_manager 0 (Some 9) = Ok out1 /\
    sget out1 "a"%string = Some v1 /\ nd_len v1 = Ok 5 /\
    BufferedDictManager.map_buffer sample_dict_manager 0 (Some (-2)) = Ok out2 /\
    sget out2 "a"%string = Some v2 /\ nd_len v2 = Ok 3.
Proof.
  split; [reflexivity |].
  assert (Hl : forall k v, In (k, v) sample_record -> 0 <= leading_len v).
  { intros k v [H | [H | []]]; inversion H; subst; unfold leading_len; cbn; lia. }
  destruct (dict_map_buffer_clips_any_length sample_dict_manager
              sample_dict_manager [sample_record] sample_record 0 9
              eq_refl eq_refl eq_refl Hl) as (out1 & H1 & _ & F1).
  destruct (dict_map_buffer_clips_any_length sample_dict_manager
              sample_dict_manager [sample_record] sample_record 0 (-2)
              eq_refl eq_refl eq_refl Hl) as (out2 & H2 & _ & F2).
  destruct (F1 "a"%string _ eq_refl) as (v1 & Hv1 & _ & _ & Hlen1 & _).
  destruct (F2 "a"%string _ eq_refl) as (v2 & Hv2 & _ & _ & Hlen2 & _).
  exists out1, out2, v1, v2.
  split; [exact H1 |]. split; [exact Hv1 |]. split; [exact Hlen1 |].
  split; [exact H2 |]. split; [exact Hv2 | exact Hlen2].
Defined.

(* ================================================================== *)
(** * Index projections are views *)

(** X17.  For an integer index that Python counts as true, on a slot
    of at least two axes, [BufferManager.map_buffer] returns a view into
    the slot, not a copy: an index [i] within the leading axis (counted
    from the end when negative) gives the view of the remaining axes on
    the same block whose element at [idx] is the slot's element at
    [i :: idx].  Whatever the number of axes, an index outside the
    leading axis raises [IndexError].  (On a slot of one axis the index
    uses up the only axis and numpy hands out the element, not a view;
    that case is left out.) *)
Theorem map_buffer_integer_index_is_a_view_into_the_slot
        (m : BufferManager.t) (id : Z) (v : ndarray) (i n st : Z)
        (sh str : list Z) :
  BufferManager.map_buffer m id None = Ok v ->
  nd_shape v = n :: sh -> nd_strides v = st :: str ->
  i <> 0 ->
  (sh <> [] -> - n <= i < n ->
   exists v',
     BufferManager.map_buffer m id (Some (IdxInt i)) = Ok v' /\
     nd_block v' = nd_block v /\ nd_shape v' = sh /\ nd_strides v' = str /\
     nd_shape v' <> [] /\
     nd_offset v' = nd_offset v + (if i <? 0 then i + n else i) * st /\
     forall w idx,
       nd_item w v' idx = nd_item w v ((if i <? 0 then i + n else i) :: idx)) /\
  (i < - n \/ n <= i ->
   BufferManager.map_buffer m id (Some (IdxInt i)) = Raise IndexError).
Proof.
  intros Hv Hsh Hst Hi.
  assert (Hmap : BufferManager.map_buffer m id (Some (IdxInt i))
                 = nd_getitem v (IdxInt i)).
  { unfold BufferManager.map_buffer in *. cbn [truthy negb] in *.
    apply Z.eqb_neq in Hi. rewrite Hi. cbn [negb].
    destruct (BufferManager.get_buffers_np m) as [bufs | e |];
      cbn [obind] in *; try discriminate.
    rewrite Hv. reflexivity. }
  rewrite Hmap. unfold nd_getitem. cbn [index_axes_of index_axes].
  rewrite Hsh, Hst. split.
  - intros Hne Hin.
    assert (Hj : 0 <= (if i <? 0 then i + n else i) < n)
      by (destruct (Z.ltb_spec i 0); lia).
    destruct (Z.ltb_spec (if i <? 0 then i + n else i) 0); [lia |].
    destruct (Z.leb_spec n (if i <? 0 then i + n else i)); [lia |].
    cbn [orb obind fst snd]. eexists. split; [reflexivity |].
    cbn [nd_block nd_shape nd_strides nd_offset].
    split; [reflexivity |]. split; [reflexivity |]. split; [reflexivity |].
    split; [exact Hne |]. split; [reflexivity |].
    intros w idx. unfold nd_item.
    cbn [nd_shape nd_strides nd_offset nd_block]. rewrite Hsh, Hst.
    rewrite cell_of_cons by lia. reflexivity.
  - intros Hout.
    destruct (Z.ltb_spec i 0).
    + destruct (Z.ltb_spec (i + n) 0); [reflexivity | lia].
    + destruct (Z.ltb_spec i 0); [lia |].
      destruct (Z.leb_spec n i); [reflexivity | lia].
Qed.

Lemma map_buffer_integer_index_is_a_view_into_the_slot_witness :
  BufferManager.map_buffer sample_matrix_manager 1 None
    = Ok (mkArray 1 float64 0 [2; 3] [3; 1]) /\
  exists v',
    BufferManager.map_buffer sample_matrix_manager 1 (Some (IdxInt (-1))) = Ok v' /\
    nd_block v' = 1%nat /\ nd_shape v' = [3] /\ nd_offset v' = 3 /\
    BufferManager.map_buffer sample_matrix_manager 1 (Some (IdxInt 2))
      = Raise IndexError.
Proof.
  split; [reflexivity |].
  destruct (map_buffer_integer_index_is_a_view_into_the_slot
              sample_matrix_manager 1
              (mkArray 1 float64 0 [2; 3] [3; 1]) (-1) 2 3 [3] [1] eq_refl eq_refl
              eq_refl) as [Hin _]; [lia |].
  destruct (map_buffer_integer_index_is_a_view_into_the_slot
              sample_matrix_manager 1
              (mkArray 1 float64 0 [2; 3] [3; 1]) 2 2 3 [3] [1] eq_refl eq_refl
              eq_refl) as [_ Hout]; [lia |].
  destruct Hin as (v' & Hv' & Hblk & Hshape & _ & _ & Hoff & _);
    [discriminate | lia |].
  exists v'. split; [exact Hv' |]. split; [exact Hblk |].
  split; [exact Hshape |]. split; [exact Hoff |].
  apply Hout. right. lia.
Defined.

Lemma Forall2_In_r {A B} (R : A -> B -> Prop) (l1 : list A) (l2 : list B) :
  Forall2 R l1 l2 ->
  forall y, In y l2 -> exists x, In x l1 /\ R x y.
Proof.
  induction 1 as [| a b r1 r2 HR Hrest IH]; intros y Hy; [contradiction |].
  destruct Hy as [<- | Hy].
  - exists a. split; [now left | exact HR].
  - destruct (IH y Hy) as (x & Hx & Hxy). exists x. split; [now right | exact Hxy].
Qed.

(* ================================================================== *)
(** * The records of a pool of records *)

Lemma shm_to_nd_dict_no_shape_flat (b : sdict mp_array) (nd : sdict ndarray)
      (order : np_order) :
  NoDup (dict_keys b) ->
  shm_to_nd_dict b NoShape order = Ok nd ->
  Forall2 field_flat b nd.
Proof.
  intros Hnd H. unfold shm_to_nd_dict, dict_items in H.
  match type of H with
  | obind ?run _ = _ => destruct run as [r | e |] eqn:Hrun
  end; cbn [obind] in H; try discriminate.
  inversion H; subst nd.
  apply (shm_to_nd_dict_loop NoShape order) in Hrun; [| exact Hnd].
  destruct Hrun as (nd & Hres & Hall). cbn [app] in Hres. rewrite Hres.
  eapply Forall2_impl; [| exact Hall].
  intros kb kn (Hk & ts' & Hv & Hts). subst ts'.
  destruct (shm_as_ndarray_spans _ _ _ _ Hv) as (_ & Hb & Ho & _ & _ & Hflat & _).
  split; [exact Hk |]. split; [exact Hb |]. split; [exact Ho |].
  now apply Hflat.
Qed.

Lemma dict_rebuild_loop_rel (self d : BufferedDictManager.t)
      (bs : list (sdict mp_array)) :
  forall acc : list (sdict ndarray),
    BufferedDictManager.rebuild_loop bs self acc = (Ok tt, d) ->
    exists nds,
      BufferedDictManager.buffers_nd d = Some (acc ++ nds) /\
      Forall2 (fun b nd => shm_to_nd_dict b NoShape order_C = Ok nd) bs nds.
Proof.
  induction bs as [| b rest IH]; intros acc H; cbn in H.
  - inversion H; subst. exists []. cbn. rewrite app_nil_r. auto.
  - destruct (shm_to_nd_dict b NoShape order_C) as [nd | e |] eqn:Hnd;
      try discriminate.
    destruct (IH (acc ++ [nd]) H) as (nds & Hd & Hall).
    exists (nd :: nds). rewrite Hd, <- app_assoc. auto.
Qed.

Section RecordPool.
Variable recordables : list string.
Variable buf_len : py_shape.
Variable dtype : np_dtype.
Hypothesis Hreg : registered dtype.
Hypothesis Hval : valid_shape buf_len.

Lemma create_record_loop_layout (keys : list string) :
  forall (cur : sdict mp_array) (w : world),
    NoDup (dict_keys cur) ->
    Forall (fun kv => buffer_of buf_len dtype (snd kv)) cur ->
    exists cur' w',
      for_each keys
        (fun k cur =>
           b <- init_shm_ndarray buf_len dtype ;;
           ret (sset cur k b)) cur w = (Ok cur', w') /\
      NoDup (dict_keys cur') /\
      Forall (fun kv => buffer_of buf_len dtype (snd kv)) cur' /\
      (forall k, In k (dict_keys cur') <-> In k (dict_keys cur) \/ In k keys) /\
      next_shm w' = (next_shm w + List.length keys)%nat /\
      queues w' = queues w.
Proof.
  induction keys as [| k rest IH]; intros cur w Hnd Hcur.
  - exists cur, w. cbn. rewrite Nat.add_0_r. repeat split; auto.
    intros [H | []]; exact H.
  - destruct (init_shm_ndarray_fresh buf_len dtype Hreg Hval w)
      as (b & w1 & Hinit & Hbuf & _ & Hn1 & _ & Hq1 & _).
    destruct (IH (sset cur k b) w1) as (cur' & w' & Hloop & Hnd' & Hall & Hin & Hn & Hq).
    { now apply sset_keys_NoDup. }
    { now apply (sset_Forall (buffer_of buf_len dtype)). }
    exists cur', w'. cbn [for_each]. unfold bind at 1. unfold bind at 1.
    rewrite Hinit. unfold ret at 1. rewrite Hloop.
    repeat split; auto.
    + intros H. apply Hin in H as [H | H]; [| right; now right].
      apply sset_keys_In_iff in H as [-> | H]; [right; now left | now left].
    + intros [H | [<- | H]]; apply Hin.
      * left. apply sset_keys_In_iff. now right.
      * left. apply sset_keys_In_iff. now left.
      * now right.
    + rewrite Hn, Hn1. cbn [List.length]. lia.
    + congruence.
Qed.

Lemma create_dict_buffers_loop_layout (q : nat) (idl : list Z) :
  forall (acc : list (sdict mp_array)) (w : world),
  exists bs w',
    for_each idl
      (fun i buffers =>
         cur_buf_shm <- for_each recordables
                          (fun k cur =>
                             b <- init_shm_ndarray buf_len dtype ;;
                             ret (sset cur k b))
                          [] ;;
         queue_put q i ;;;
         ret (buffers ++ [cur_buf_shm])) acc w = (Ok (acc ++ bs), w') /\
    List.length bs = List.length idl /\
    Forall (record_of recordables buf_len dtype) bs /\
    next_shm w'
      = (next_shm w + List.length idl * List.length recordables)%nat.
Proof.
  induction idl as [| i rest IH]; intros acc w.
  - exists [], w. cbn. rewrite !app_nil_r, Nat.add_0_r. auto.
  - destruct (create_record_loop_layout recordables [] w (NoDup_nil _)
                (Forall_nil _)) as (cur & w1 & Hrec & Hnd & Hcur & Hin & Hn1 & Hq1).
    destruct (IH (acc ++ [cur]) (set_queue w1 q (queues w1 q ++ [i])))
      as (bs & w' & Hloop & Hlen & Hall & Hn).
    exists (cur :: bs), w'.
    cbn [for_each]. unfold bind at 1. unfold bind at 1.
    rewrite Hrec. unfold bind at 1. unfold queue_put at 1, ret at 1.
    rewrite Hloop, <- app_assoc. cbn [app List.length].
    split; [reflexivity |]. split; [now rewrite Hlen |].
    split.
    + constructor; [| exact Hall]. split; [exact Hnd |]. split; [| exact Hcur].
      intros k. rewrite Hin. cbn. intuition.
    + rewrite Hn. cbn [set_queue next_shm]. rewrite Hn1. lia.
Qed.
End RecordPool.

(** X18.  [create_dict_buffers] builds one record per slot, each with
    exactly the given names as fields (a repeated name once) and a
    buffer of [product(buf_len)] elements of the requested type per
    field, and allocates one block per listed name and slot.  The
    [BufferedDictManager] built on them gives every slot a record of
    flat views, one per field, each spanning the field's buffer. *)
Theorem create_dict_buffers_builds_one_record_per_slot
        (recordables : list string) (N : Z) (buf_len : py_shape)
        (dtype : np_dtype) (w : world) :
  registered dtype -> valid_shape buf_len ->
  exists bufs q d w1,
    create_dict_buffers recordables N buf_len dtype w = (Ok (bufs, q), w1) /\
    BufferedDictManager.init bufs q true = Ok d /\
    List.length bufs = Z.to_nat N /\
    Forall (record_of recordables buf_len dtype) bufs /\
    next_shm w1 = (next_shm w + Z.to_nat N * List.length recordables)%nat /\
    forall id, 0 <= id < N ->
      exists rec fields,
        list_getitem bufs id = Ok rec /\
        BufferedDictManager.map_buffer d id None = Ok fields /\
        Forall2 field_flat rec fields /\
        forall k v, sget fields k = Some v ->
                    In k recordables /\
                    nd_shape v = [product (shape_dims buf_len)].
Proof.
  intros Hreg Hval.
  destruct (create_dict_pool_ok recordables N buf_len dtype w Hreg Hval)
    as (bufs & d & nds & w1 & Hcreate & Hinit & _ & _ & Hnd & Hnlen & _).
  set (w0 := snd (mp_Queue w)).
  destruct (create_dict_buffers_loop_layout recordables buf_len dtype Hreg Hval
              (next_queue w) (range N) [] w0)
    as (bs & w1' & Hloop & Hlen & Hall & Hn).
  assert (Hrange : List.length (range N) = Z.to_nat N)
    by (unfold range; now rewrite length_map, length_seq).
  rewrite Hrange in *.
  assert (Hsame : bufs = bs /\ w1 = w1').
  { unfold create_dict_buffers in Hcreate. cbv zeta in Hcreate.
    unfold bind at 1 in Hcreate. cbn [mp_Queue] in Hcreate.
    unfold bind at 1 in Hcreate.
    change (mkWorld (shm w) (next_shm w)
              (fun q' => if Nat.eqb q' (next_queue w) then [] else queues w q')
              (S (next_queue w))) with w0 in Hcreate.
    rewrite Hloop in Hcreate. cbn [app ret] in Hcreate.
    inversion Hcreate. auto. }
  destruct Hsame as [-> ->].
  exists bs, (next_queue w), d, w1'.
  split; [exact Hcreate |]. split; [exact Hinit |]. split; [exact Hlen |].
  split; [exact Hall |]. split; [exact Hn |].
  intros id Hid.
  assert (Hrel : Forall2 (fun b nd => shm_to_nd_dict b NoShape order_C = Ok nd)
                         bs nds).
  { unfold BufferedDictManager.init, BufferedDictManager.rebuild_buffers in Hinit.
    cbn [BufferedDictManager.buffers_shm] in Hinit.
    destruct (BufferedDictManager.rebuild_loop bs
                (BufferedDictManager.mk (next_queue w) bs None) [])
      as [[[] | e |] s] eqn:Hreb; try discriminate.
    inversion Hinit; subst s.
    destruct (dict_rebuild_loop_rel _ _ _ _ Hreb) as (nds' & Hd & Hr).
    cbn [app] in Hd. rewrite Hnd in Hd. inversion Hd; subst. exact Hr. }
  destruct (list_getitem_in_range nds id) as (fields & Hget & Hnth); [lia |].
  destruct (Forall2_nth_error_r _ _ _ Hrel _ _ Hnth) as (rec & Hrec & Hconv).
  assert (Hrecof : record_of recordables buf_len dtype rec).
  { rewrite Forall_forall in Hall. apply Hall. eapply nth_error_In; eauto. }
  destruct Hrecof as (Hkeys & Hnames & Hbufs).
  pose proof (shm_to_nd_dict_no_shape_flat rec fields order_C Hkeys Hconv) as Hflat.
  exists rec, fields.
  split.
  { unfold list_getitem.
    pose proof (Forall2_length Hrel) as Hl.
    destruct (Z.ltb_spec id 0); [lia |].
    destruct (Z.ltb_spec id 0); [lia |].
    destruct (Z.leb_spec (Z.of_nat (List.length bs)) id); [lia |].
    cbn [orb]. now rewrite Hrec. }
  split.
  { unfold BufferedDictManager.map_buffer, BufferedDictManager.get_buffers_nd.
    rewrite Hnd. exact Hget. }
  split; [exact Hflat |].
  intros k v Hv. apply sget_In in Hv.
  destruct (Forall2_In_r _ _ _ Hflat _ Hv) as ([kb b] & Hin & Hk & _ & _ & Hshape).
  cbn [fst snd] in *. subst kb.
  split.
  - apply Hnames. apply in_map_iff. exists (k, b). auto.
  - rewrite Forall_forall in Hbufs.
    destruct (Hbufs (k, b) Hin) as (r & Hb & _ & Hrlen). cbn [snd] in Hb.
    subst b. cbn [raw_of] in Hshape. now rewrite Hshape, Hrlen.
Qed.

Lemma create_dict_buffers_builds_one_record_per_slot_witness :
  registered float64 /\ valid_shape (ShapeInt 5) /\
  exists bufs q d w1 fields v,
    create_dict_buffers ["a"; "b"; "a"]%string 2 (ShapeInt 5) float64 empty_world
      = (Ok (bufs, q), w1) /\
    BufferedDictManager.init bufs q true = Ok d /\
    next_shm w1 = 6%nat /\
    BufferedDictManager.map_buffer d 1 None = Ok fields /\
    dict_keys fields = ["a"; "b"]%string /\
    sget fields "b"%string = Some v /\ nd_shape v = [5].
Proof.
  assert (Hr : registered float64) by (vm_compute; discriminate).
  assert (Hv : valid_shape (ShapeInt 5)) by reflexivity.
  split; [exact Hr |]. split; [exact Hv |].
  destruct (create_dict_buffers_builds_one_record_per_slot
              ["a"; "b"; "a"]%string 2 (ShapeInt 5) float64 empty_world Hr Hv)
    as (bufs & q & d & w1 & Hc & Hi & _ & _ & Hn & Hslot).
  vm_compute in Hc. inversion Hc; subst bufs q w1.
  vm_compute in Hi. injection Hi as Hi. subst d.
  destruct (Hslot 1) as (rec & fields & _ & Hmap & _ & Hviews); [lia |].
  vm_compute in Hmap. injection Hmap as Hmap. subst fields.
  eexists _, _, _, _, _, _. split; [vm_compute; reflexivity |].
  split; [vm_compute; reflexivity |]. split; [reflexivity |].
  split; [reflexivity |]. split; [reflexivity |].
  split; [reflexivity |].
  destruct (Hviews "b"%string _ eq_refl) as [_ Hshape]. exact Hshape.
Defined.


(* ================================================================== *)
(** * Allocation, case by case *)



(** X20.  [shm_as_ndarray] looks up the element type before anything
    else: on a buffer whose type is not in the table it raises
    [KeyError] for every shape and order; and an array behind a lock
    wrapper is treated exactly as the raw array it wraps. *)
Theorem shm_as_ndarray_rejects_unregistered_element_types
        (r : raw_array) (shape : option py_shape) (order : np_order) :
  (shm_as_ndarray (SynchronizedArray r) shape order
   = shm_as_ndarray (RawArray r) shape order) /\
  (~ registered_ctype (arr_type r) ->
   shm_as_ndarray (RawArray r) shape order = Raise KeyError) /\
  (registered_ctype (arr_type r) -> shape = None ->
   exists v, shm_as_ndarray (RawArray r) shape order = Ok v).
Proof.
  split; [reflexivity |]. split.
  - intros Hn. unfold shm_as_ndarray, dict_getitem, registered_ctype in *.
    cbn [has_type_attr negb obind type_attr].
    destruct (dict_get typecode_or_type_eqb _ctypes_to_numpy
                (CType (arr_type r))); [| reflexivity].
    exfalso. apply Hn. discriminate.
  - intros Hreg ->.
    destruct (shm_as_ndarray_unfold (RawArray r) Hreg) as (dtype & _ & Hun).
    rewrite (Hun None order). eexists; reflexivity.
Qed.

Lemma shm_as_ndarray_rejects_unregistered_element_types_witness :
  ~ registered_ctype c_int /\
  shm_as_ndarray (RawArray (mkRawArray c_int 6 0)) (Some (ShapeTuple [2; 3]))
    order_C = Raise KeyError.
Proof.
  assert (Hn : ~ registered_ctype c_int) by (intros H; apply H; reflexivity).
  split; [exact Hn |].
  destruct (shm_as_ndarray_rejects_unregistered_element_types
              (mkRawArray c_int 6 0) (Some (ShapeTuple [2; 3])) order_C)
    as (_ & H & _).
  exact (H Hn).
Defined.

(* ================================================================== *)
(** * Outside the protocol *)

(** X21.  What the unchecked [reclaim] leads to: after one id has been
    reclaimed twice in a row, the next two [get_buffer] calls both
    return that id with the same view, so two checkouts hold the same
    buffer. *)
Theorem double_reclaim_hands_one_slot_out_twice
        (m : BufferManager.t) (n : Z) (id : Z) (w : world) :
  pool_size m = Some n ->
  0 <= id < n ->
  queues w (BufferManager.queue m) = [] ->
  exists v w2,
    (BufferManager.reclaim m id ;;; BufferManager.reclaim m id ;;;
     x <- BufferManager.get_buffer m None ;;
     y <- BufferManager.get_buffer m None ;;
     ret (x, y)) w = (Ok ((id, v), (id, v)), w2) /\
    queues w2 (BufferManager.queue m) = [].
Proof.
  intros Hm Hid Hq.
  set (q := BufferManager.queue m) in *.
  set (w1 := set_queue (set_queue w q (queues w q ++ [id])) q
               (queues (set_queue w q (queues w q ++ [id])) q ++ [id])).
  assert (Hq1 : queues w1 q = [id; id]).
  { unfold w1. rewrite !queues_set_queue, Hq. reflexivity. }
  destruct (get_buffer_head m n Hm None w1 id [id] Hq1 Hid) as (v & Hg1).
  destruct (get_buffer_head m n Hm None (set_queue w1 q [id]) id []
              (queues_set_queue _ _ _) Hid) as (v' & Hg2).
  assert (v' = v).
  { destruct (map_buffer_slot m n Hm id Hid) as (v0 & Hv0).
    change (BufferManager.get_buffer m None)
      with (checkout q (fun i => BufferManager.map_buffer m i None) None) in *.
    rewrite (checkout_nonempty q _ None w1 id [id] Hq1), Hv0 in Hg1.
    rewrite (checkout_nonempty q _ None (set_queue w1 q [id]) id []
               (queues_set_queue _ _ _)), Hv0 in Hg2.
    inversion Hg1. inversion Hg2. congruence. }
  subst v'.
  exists v, (set_queue (set_queue w1 q [id]) q []).
  split; [| apply queues_set_queue].
  unfold bind at 1. unfold BufferManager.reclaim at 1, queue_put at 1.
  unfold bind at 1. unfold BufferManager.reclaim at 1, queue_put at 1.
  fold q. fold w1.
  unfold bind at 1. rewrite Hg1. fold q.
  unfold bind at 1. rewrite Hg2. reflexivity.
Qed.

Lemma double_reclaim_hands_one_slot_out_twice_witness :
  pool_size sample_manager = Some 3 /\
  exists v w2,
    (BufferManager.reclaim sample_manager 1 ;;;
     BufferManager.reclaim sample_manager 1 ;;;
     x <- BufferManager.get_buffer sample_manager None ;;
     y <- BufferManager.get_buffer sample_manager None ;;
     ret (x, y)) empty_world = (Ok ((1, v), (1, v)), w2).
Proof.
  split; [reflexivity |].
  destruct (double_reclaim_hands_one_slot_out_twice sample_manager 3 1
              empty_world) as (v & w2 & H & _); [reflexivity | lia | reflexivity |].
  exists v, w2. exact H.
Defined.

Example init_shm_ndarray_product_wraps_around :
  init_shm_ndarray (ShapeTuple [4294967296; 2147483648]) float64 empty_world
  = (Raise ValueError, empty_world).
Proof. reflexivity. Qed.

(* ================================================================== *)
(** * A slot that is not given back *)

Lemma remove_first_keeps_others (x y : nat * Z) (l : list (nat * Z)) :
  x <> y -> In y l -> In y (remove_first x l).
Proof.
  intros Hne. induction l as [| z rest IH]; intros Hin; [contradiction |].
  cbn. destruct (holds_eqb x z) eqn:E.
  - apply holds_eqb_eq in E. subst z.
    destruct Hin as [Heq | Hin]; [congruence | exact Hin].
  - destruct Hin as [-> | Hin]; [now left | right; now apply IH].
Qed.

Section HeldSlot.
Variables A V : Type.
Variable get : A -> M (Z * V).
Variable put : Z -> M unit.
Variable c : nat.
Variable id : Z.

Lemma step_keeps_unreclaimed (s s' : pool_state) (a : action A) :
  a <> Reclaim c id ->
  step get put s a = Some s' ->
  In (c, id) (held s) -> In (c, id) (held s').
Proof.
  intros Ha Hstep Hin. destruct a as [c0 args | c0 id0]; cbn in Hstep.
  - destruct (get args (pool_world s)) as [[[x v] | e |] w'];
      inversion Hstep; subst; cbn; auto.
  - destruct (existsb (holds_eqb (c0, id0)) (held s)); [| discriminate].
    destruct (put id0 (pool_world s)) as [[[] | e |] w'];
      inversion Hstep; subst; cbn; auto.
    apply remove_first_keeps_others; [| exact Hin].
    intros Heq. apply Ha. inversion Heq. reflexivity.
Qed.

Lemma run_keeps_unreclaimed (actions : list (action A)) :
  forall s s',
    Forall (fun a => a <> Reclaim c id) actions ->
    run get put s actions = Some s' ->
    In (c, id) (held s) -> In (c, id) (held s').
Proof.
  induction actions as [| a rest IH]; intros s s' Hall Hrun Hin; cbn in Hrun.
  - inversion Hrun; subst. exact Hin.
  - inversion Hall as [| ? ? Ha Hrest]; subst.
    destruct (step get put s a) as [s1 |] eqn:Hstep; [| discriminate].
    eapply IH; [exact Hrest | exact Hrun |].
    eapply step_keeps_unreclaimed; eauto.
Qed.
End HeldSlot.

(** X22.  There is no recovery of a slot: in a pool built by
    [create_managed_buffers], once a consumer holds an id, every run of
    the protocol in which that consumer does not reclaim it leaves the
    id held by that consumer and absent from the free list, however
    many [get_buffer] and [reclaim] calls the others make. *)
Theorem held_slot_stays_out_of_the_free_list_until_reclaimed
        (N : Z) (shape : py_shape) (dtype : np_dtype) (w : world)
        (c : nat) (id : Z) :
  registered dtype -> valid_shape shape ->
  exists m w1,
    create_managed_buffers N shape dtype true w = (Ok m, w1) /\
    forall before after s1 s2,
      run (BufferManager.get_buffer m) (BufferManager.reclaim m)
          (mkPool w1 []) before = Some s1 ->
      In (c, id) (held s1) ->
      Forall (fun a => a <> Reclaim c id) after ->
      run (BufferManager.get_buffer m) (BufferManager.reclaim m) s1 after
        = Some s2 ->
      In (c, id) (held s2) /\
      ~ In id (queues (pool_world s2) (BufferManager.queue m)).
Proof.
  intros Hreg Hval.
  destruct (create_managed_buffers_ok N shape dtype w Hreg Hval)
    as (bufs & m & w1 & _ & _ & Hm & Hqm & Hq & Hsize).
  exists m, w1. split; [exact Hm |].
  intros before after s1 s2 Hrun1 Hheld Hafter Hrun2.
  assert (Hkeep : forall actions s s',
             pool_inv N (BufferManager.queue m) s ->
             run (BufferManager.get_buffer m) (BufferManager.reclaim m) s actions
               = Some s' ->
             pool_inv N (BufferManager.queue m) s').
  { intros actions s s' Hinv Hrun.
    apply (run_keeps_pool_inv (option Z) ndarray (BufferManager.queue m)
             (fun _ i => BufferManager.map_buffer m i None) (fun t => t) N)
      with (actions := actions) (s := s); auto.
    intros _ i Hi. apply (map_buffer_slot m _ Hsize). lia. }
  assert (Hinv0 : pool_inv N (BufferManager.queue m) (mkPool w1 [])).
  { unfold pool_inv; cbn. rewrite Hqm, Hq, app_nil_r. reflexivity. }
  pose proof (Hkeep _ _ _ (Hkeep _ _ _ Hinv0 Hrun1) Hrun2) as Hinv2.
  pose proof (run_keeps_unreclaimed _ _ _ _ c id after s1 s2 Hafter Hrun2 Hheld)
    as Hheld2.
  split; [exact Hheld2 |].
  destruct (pool_inv_free_list _ _ _ Hinv2) as (_ & Hrange & Hcases & _).
  intros Hfree. destruct (Hcases id (Hrange id Hfree)) as [[_ Hnone] | [Hnot _]].
  - exact (Hnone c Hheld2).
  - exact (Hnot Hfree).
Qed.

Lemma held_slot_stays_out_of_the_free_list_until_reclaimed_witness :
  registered float64 /\ valid_shape (ShapeTuple [4]) /\
  exists m w1 s2,
    create_managed_buffers 2 (ShapeTuple [4]) float64 true empty_world
      = (Ok m, w1) /\
    run (BufferManager.get_buffer m) (BufferManager.reclaim m) (mkPool w1 [])
        [Get 0%nat None; Get 1%nat None; Reclaim 1%nat 1; Get 1%nat (Some 3);
         Get 1%nat (Some 3)] = Some s2 /\
    In (0%nat, 0) (held s2) /\
    ~ In 0 (queues (pool_world s2) (BufferManager.queue m)).
Proof.
  assert (Hr : registered float64) by (vm_compute; discriminate).
  assert (Hv : valid_shape (ShapeTuple [4])) by reflexivity.
  split; [exact Hr |]. split; [exact Hv |].
  destruct (held_slot_stays_out_of_the_free_list_until_reclaimed 2
              (ShapeTuple [4]) float64 empty_world 0%nat 0 Hr Hv)
    as (m & w1 & Hm & Hstay).
  vm_compute in Hm. inversion Hm; subst m w1.
  eexists _, _, _. split; [vm_compute; reflexivity |].
  split; [vm_compute; reflexivity |].
  eapply (Hstay [Get 0%nat None]
                [Get 1%nat None; Reclaim 1%nat 1; Get 1%nat (Some 3);
                 Get 1%nat (Some 3)]).
  - vm_compute. reflexivity.
  - now left.
  - repeat constructor; discriminate.
  - vm_compute. reflexivity.
Defined.
